(** * TalkBot GUI: a shallow embedding of [talkbot_gui.py]

    The program is a Qt window whose handlers read a few text fields, call an
    HTTP gateway, append lines to a log pane and start text-to-speech worker
    threads.  The embedding keeps that shape:

    - Python [str] values are lists of Unicode code points;
    - the window is a record, handlers are computations in a state-and-exception
      monad over it;
    - everything the handlers obtain from outside (clock, HTTP, JPEG encoder,
      presence of pyttsx3) is read from an explicit [World]; the settings
      file is a state of the file system with the outcome of the write;
    - [json.dumps] and [json.loads] are those of CPython, in [Json];
    - the worker threads of [_speak_async] are a small-step interleaving
      semantics over a shared lock. *)

From Stdlib Require Import List NArith ZArith Bool Ascii String Lia.
From Stdlib Require Import DecimalString.
From Stdlib Require Decimal.
Import ListNotations.

Local Open Scope N_scope.
Local Set Warnings "-register-all".

(** ** Python strings *)

Module Py.

(** A [str] is the sequence of its code points. *)
Definition str := list N.

Fixpoint lit (s : string) : str :=
  match s with
  | EmptyString => []
  | String c s' => N_of_ascii c :: lit s'
  end.

Definition str_eqb (a b : str) : bool :=
  if list_eq_dec N.eq_dec a b then true else false.

(** Truth value of a string: [bool(s)] is [len(s) > 0]. *)
Definition truthy (s : str) : bool :=
  match s with [] => false | _ :: _ => true end.

(** [a or b] on strings. *)
Definition or_else (a b : str) : str := if truthy a then a else b.

(** [str.isspace] on one code point (Py_UNICODE_ISSPACE). *)
Definition is_space (c : N) : bool :=
  ((9 <=? c) && (c <=? 13)) || ((28 <=? c) && (c <=? 32))
  || (c =? 133) || (c =? 160) || (c =? 5760)
  || ((8192 <=? c) && (c <=? 8202))
  || (c =? 8232) || (c =? 8233) || (c =? 8239) || (c =? 8287)
  || (c =? 12288).

(** Line boundaries of [str.splitlines] (Py_UNICODE_ISLINEBREAK). *)
Definition is_linebreak (c : N) : bool :=
  ((10 <=? c) && (c <=? 13)) || ((28 <=? c) && (c <=? 30))
  || (c =? 133) || (c =? 8232) || (c =? 8233).

Fixpoint drop_space (s : str) : str :=
  match s with
  | [] => []
  | c :: s' => if is_space c then drop_space s' else s
  end.

Definition lstrip (s : str) : str := drop_space s.
Definition rstrip (s : str) : str := rev (drop_space (rev s)).
Definition strip (s : str) : str := rstrip (lstrip s).

Fixpoint startswith (s p : str) {struct p} : bool :=
  match p with
  | [] => true
  | a :: p' =>
      match s with
      | [] => false
      | b :: s' => (a =? b) && startswith s' p'
      end
  end.

(** [s.split(sep, 1)[1]] for a one-character separator: the text after the
    first occurrence of [sep]; [None] is the IndexError raised when [sep]
    does not occur. *)
Fixpoint split1_snd (sep : N) (s : str) : option str :=
  match s with
  | [] => None
  | c :: s' => if c =? sep then Some s' else split1_snd sep s'
  end.

(** [str.splitlines()]: [cur] is the current line, reversed. *)
Fixpoint splitlines_from (cur : str) (s : str) : list str :=
  match s with
  | [] => match cur with [] => [] | _ :: _ => [rev cur] end
  | c :: s' =>
      if c =? 13 then
        match s' with
        | 10 :: s'' => rev cur :: splitlines_from [] s''
        | _ => rev cur :: splitlines_from [] s'
        end
      else if is_linebreak c then rev cur :: splitlines_from [] s'
      else splitlines_from (c :: cur) s'
  end.

Definition splitlines (s : str) : list str := splitlines_from [] s.

(** [sep.join(parts)]. *)
Fixpoint join (sep : str) (parts : list str) : str :=
  match parts with
  | [] => []
  | [p] => p
  | p :: ps => p ++ sep ++ join sep ps
  end.

(** ASCII part of [str.lower]; code points from 128 on are left to the
    caller. *)
Definition ascii_lower (c : N) : N :=
  if (65 <=? c) && (c <=? 90) then c + 32 else c.

Definition is_ascii (s : str) : bool := forallb (fun c => c <? 128) s.

(** [f"{n}"] for an [int]. *)
Definition str_of_int (n : Z) : str :=
  lit (NilZero.string_of_int (Z.to_int n)).

(** [x in s] on strings: [x] occurs in [s] as a contiguous run. *)
Definition occurs_in (x s : str) : Prop :=
  exists pre post, s = pre ++ x ++ post.

End Py.

Import Py.

(** ** Values, exceptions *)

(** A Python [float], as far as the program can tell floats apart. *)
Inductive pyfloat :=
| FNan
| FInf (negative : bool)
| FFinite (mantissa exponent : Z).

(** What [json.loads] and [Response.json] can return. [JDict] lists the items
    of the dict in insertion order; keys are distinct, as in any dict. *)
Inductive json :=
| JNull
| JBool (b : bool)
| JInt (n : Z)
| JFloat (x : pyfloat)
| JStr (s : str)
| JList (l : list json)
| JDict (items : list (str * json)).

(** [bool(v)]. *)
Definition json_truthy (v : json) : bool :=
  match v with
  | JNull => false
  | JBool b => b
  | JInt n => negb (n =? 0)%Z
  | JFloat (FFinite m _) => negb (m =? 0)%Z
  | JFloat _ => true
  | JStr s => truthy s
  | JList l => match l with [] => false | _ => true end
  | JDict d => match d with [] => false | _ => true end
  end.

Definition type_name (v : json) : str :=
  match v with
  | JNull => lit "NoneType"
  | JBool _ => lit "bool"
  | JInt _ => lit "int"
  | JFloat _ => lit "float"
  | JStr _ => lit "str"
  | JList _ => lit "list"
  | JDict _ => lit "dict"
  end.

(** [d.get(key, default)]. *)
Fixpoint dict_get (d : list (str * json)) (key : str) (default : json) : json :=
  match d with
  | [] => default
  | (k, v) :: d' => if str_eqb k key then v else dict_get d' key default
  end.

(** An HTTP response as [requests] hands it over. [decoded] is what
    [r.json()] does: the decoded body, or the message of the error raised. *)
Record Response := mkResponse {
  status_code : Z;
  reason : str;
  url : str;
  text : str;
  decoded : str + json
}.

(** The exceptions the handlers tell apart, with [str(e)]. Everything else
    below [Exception] is [OtherException]. *)
Inductive exn :=
| RuntimeError (msg : str)
| HTTPError (msg : str) (response : option Response)
| ConnectionError (msg : str)
| AttributeError (msg : str)
| TypeError (msg : str)
| OtherException (msg : str).

Definition exn_str (e : exn) : str :=
  match e with
  | RuntimeError m | HTTPError m _ | ConnectionError m
  | AttributeError m | TypeError m | OtherException m => m
  end.

Inductive result (A : Type) :=
| Ok (a : A)
| Raise (e : exn).
Arguments Ok {A} a.
Arguments Raise {A} e.

Definition no_attribute (v : json) (attr : string) : exn :=
  AttributeError
    (lit "'" ++ type_name v ++ lit "' object has no attribute '"
         ++ lit attr ++ lit "'").

(** ** Settings *)

Module Settings.

(** The dataclass. Its annotations say [str], but nothing checks them: [V]
    is [json] for the record [load] builds from a file and [str] for the
    record the window works with. *)
Record t (V : Type) := mk {
  host : V;
  api_key : V;
  voice_name : V
}.

Arguments mk {V} host api_key voice_name.
Arguments host {V} t.
Arguments api_key {V} t.
Arguments voice_name {V} t.

Definition defaults : t json := mk (JStr []) (JStr []) (JStr []).

Definition of_strings (s : t str) : t json :=
  mk (JStr (host s)) (JStr (api_key s)) (JStr (voice_name s)).

(** [json.dumps(_, indent=2)] and [json.loads], which the program takes from
    the standard library; [Json.python] below is the codec of CPython. *)
Record JsonCodec := mkCodec {
  dumps : json -> result str;
  loads : str -> result json
}.

(** The file [settings.json]. [Unreadable] is a path that exists and whose
    [read_text] raises (a directory, bytes that are not UTF-8);
    [Inaccessible] is a path that cannot even be asked about: [exists()]
    raises (no permission to search the directory). *)
Inductive settings_file :=
| Missing
| Unreadable (e : exn)
| Content (c : str)
| Inaccessible (e : exn).

(** [SETTINGS_FILE.exists()]. *)
Definition exists_ (f : settings_file) : result bool :=
  match f with
  | Missing => Ok false
  | Unreadable _ | Content _ => Ok true
  | Inaccessible e => Raise e
  end.

Definition read_text (f : settings_file) : result str :=
  match f with
  | Content c => Ok c
  | Unreadable e => Raise e
  | Inaccessible e => Raise e
  | Missing => Raise (OtherException (lit "No such file or directory"))
  end.

(** What [write_text] does: the text is written, or the call raises and
    leaves the path as [remains]. *)
Inductive write_outcome :=
| Written
| WriteFails (e : exn) (remains : settings_file).

Definition field_names : list str :=
  [lit "host"; lit "api_key"; lit "voice_name"].

Definition is_field (k : str) : bool := existsb (str_eqb k) field_names.

(** The constructor called with the items of [v] as keyword arguments:
    every key must name a field; a field that is not given keeps its
    default. *)
Definition construct (v : json) : result (t json) :=
  match v with
  | JDict d =>
      if forallb (fun kv => is_field (fst kv)) d then
        Ok (mk (dict_get d (lit "host") (JStr []))
               (dict_get d (lit "api_key") (JStr []))
               (dict_get d (lit "voice_name") (JStr [])))
      else Raise (TypeError (lit "__init__() got an unexpected keyword argument"))
  | _ => Raise (TypeError (lit "argument after ** must be a mapping"))
  end.

(** [asdict(self)]. *)
Definition asdict (s : t json) : json :=
  JDict [(lit "host", host s); (lit "api_key", api_key s);
         (lit "voice_name", voice_name s)].

Definition load_file (codec : JsonCodec) (f : settings_file)
  : result (t json) :=
  match read_text f with
  | Raise e => Raise e
  | Ok c =>
      match loads codec c with
      | Raise e => Raise e
      | Ok v => construct v
      end
  end.

Definition load (codec : JsonCodec) (f : settings_file) : result (t json) :=
  match exists_ f with
  | Raise e => Raise e                  (* the test is outside the [try] *)
  | Ok true =>
      match load_file codec f with
      | Ok s => Ok s
      | Raise _ => Ok defaults          (* except Exception: pass *)
      end
  | Ok false => Ok defaults
  end.

(** [save]: the outcome and the file afterwards. [o] says what [write_text]
    does; when [json.dumps] raises, nothing is written. *)
Definition save (codec : JsonCodec) (o : write_outcome) (s : t json)
           (f : settings_file) : result unit * settings_file :=
  match dumps codec (asdict s) with
  | Raise e => (Raise e, f)
  | Ok c =>
      match o with
      | Written => (Ok tt, Content c)
      | WriteFails e remains => (Raise e, remains)
      end
  end.

End Settings.

(** ** The JSON codec of CPython

    [json.dumps(_, indent=2)] and [json.loads] as the C accelerated module
    does them.  Conversion between floats and their text is left to [Env];
    so is the limit on the digits of an integer.  The messages of the
    decoder's errors are given without the position that follows them, and
    exhausting the interpreter (recursion depth, memory) is not modelled. *)

Module Json.

Record Env := mkEnv {
  parse_float : str -> pyfloat;        (* [float(text)] *)
  float_repr : pyfloat -> str;         (* [float.__repr__] *)
  int_max_str_digits : N               (* [sys.get_int_max_str_digits()]:
                                          0 for no limit, or at least 640 *)
}.

(** *** Encoding *)

Definition hex_digit (n : N) : N := if n <? 10 then 48 + n else 87 + n.

(** [n] as four lower-case hexadecimal digits. *)
Definition hex4 (n : N) : str :=
  [hex_digit (n / 4096 mod 16); hex_digit (n / 256 mod 16);
   hex_digit (n / 16 mod 16); hex_digit (n mod 16)].

(** One character inside a string, with [ensure_ascii]. *)
Definition escape_char (c : N) : str :=
  if c =? 34 then [92; 34]
  else if c =? 92 then [92; 92]
  else if c =? 10 then [92; 110]
  else if c =? 13 then [92; 114]
  else if c =? 9 then [92; 116]
  else if c =? 8 then [92; 98]
  else if c =? 12 then [92; 102]
  else if (32 <=? c) && (c <=? 126) then [c]
  else if c <? 65536 then [92; 117] ++ hex4 c
  else
    let v := c - 65536 in
    [92; 117] ++ hex4 (55296 + v / 1024 mod 1024)
      ++ [92; 117] ++ hex4 (56320 + v mod 1024).

Definition encode_string (s : str) : str :=
  [34] ++ flat_map escape_char s ++ [34].

Definition digits_of (n : Z) : N := N.of_nat (List.length (str_of_int (Z.abs n))).

(** [int.__repr__], which raises when the number has too many digits. *)
Definition encode_int (env : Env) (n : Z) : result str :=
  if negb (int_max_str_digits env =? 0)
     && (int_max_str_digits env <? digits_of n)
  then Raise (OtherException
                (lit "Exceeds the limit ("
                   ++ str_of_int (Z.of_N (int_max_str_digits env))
                   ++ lit " digits) for integer string conversion; "
                   ++ lit "use sys.set_int_max_str_digits() "
                   ++ lit "to increase the limit"))
  else Ok (str_of_int n).

Definition encode_float (env : Env) (x : pyfloat) : str :=
  match x with
  | FNan => lit "NaN"
  | FInf false => lit "Infinity"
  | FInf true => lit "-Infinity"
  | FFinite _ _ => float_repr env x
  end.

(** A new line and the indentation of nesting level [level]. *)
Definition newline_indent (level : nat) : str :=
  [10] ++ repeat 32 (2 * level).

Fixpoint join_ok (sep : str) (parts : list (result str)) : result str :=
  match parts with
  | [] => Ok []
  | Raise e :: _ => Raise e
  | Ok p :: ps =>
      match ps with
      | [] => Ok p
      | _ :: _ =>
          match join_ok sep ps with
          | Raise e => Raise e
          | Ok t => Ok (p ++ sep ++ t)
          end
      end
  end.

Fixpoint encode (env : Env) (level : nat) (v : json) {struct v} : result str :=
  match v with
  | JNull => Ok (lit "null")
  | JBool true => Ok (lit "true")
  | JBool false => Ok (lit "false")
  | JInt n => encode_int env n
  | JFloat x => Ok (encode_float env x)
  | JStr s => Ok (encode_string s)
  | JList [] => Ok (lit "[]")
  | JList l =>
      match join_ok (lit "," ++ newline_indent (S level))
                    (map (encode env (S level)) l) with
      | Raise e => Raise e
      | Ok t =>
          Ok (lit "[" ++ newline_indent (S level) ++ t
                ++ newline_indent level ++ lit "]")
      end
  | JDict [] => Ok (lit "{}")
  | JDict d =>
      match join_ok (lit "," ++ newline_indent (S level))
                    (map (fun kv =>
                            match encode env (S level) (snd kv) with
                            | Raise e => Raise e
                            | Ok t => Ok (encode_string (fst kv)
                                            ++ lit ": " ++ t)
                            end) d) with
      | Raise e => Raise e
      | Ok t =>
          Ok (lit "{" ++ newline_indent (S level) ++ t
                ++ newline_indent level ++ lit "}")
      end
  end.

(** [json.dumps(v, indent=2)]. *)
Definition dumps (env : Env) (v : json) : result str := encode env 0 v.

(** *** Decoding *)

Definition decode_error (msg : string) : exn := OtherException (lit msg).

Definition is_ws (c : N) : bool :=
  (c =? 32) || (c =? 9) || (c =? 10) || (c =? 13).

Fixpoint skip_ws (s : str) : str :=
  match s with
  | c :: s' => if is_ws c then skip_ws s' else s
  | [] => []
  end.

Definition hex_value (c : N) : option N :=
  if (48 <=? c) && (c <=? 57) then Some (c - 48)
  else if (97 <=? c) && (c <=? 102) then Some (c - 87)
  else if (65 <=? c) && (c <=? 70) then Some (c - 55)
  else None.

Definition hex4_value (a b c d : N) : option N :=
  match hex_value a, hex_value b, hex_value c, hex_value d with
  | Some x, Some y, Some z, Some t => Some (x * 4096 + y * 256 + z * 16 + t)
  | _, _, _, _ => None
  end.

Definition is_high (c : N) : bool := (55296 <=? c) && (c <=? 56319).
Definition is_low (c : N) : bool := (56320 <=? c) && (c <=? 57343).

(** The character after a backslash, other than [u]. *)
Definition simple_escape (c : N) : option N :=
  if c =? 34 then Some 34
  else if c =? 92 then Some 92
  else if c =? 47 then Some 47
  else if c =? 98 then Some 8
  else if c =? 102 then Some 12
  else if c =? 110 then Some 10
  else if c =? 114 then Some 13
  else if c =? 116 then Some 9
  else None.

(** What follows a high surrogate written as an escape: a second escape
    (with at least one character after it) is read; when it is a low
    surrogate the two are joined. *)
Inductive pair_look :=
| NoPair                       (* carry on with the high surrogate alone *)
| BadPair                      (* the second escape is not four hex digits *)
| Joined (c : N).              (* the pair, joined; 12 characters are used *)

Definition join_surrogates (hi lo : N) : N :=
  65536 + ((hi - 55296) * 1024 + (lo - 56320)).

Definition look_pair (hi b u x1 x2 x3 x4 : N) : pair_look :=
  if (b =? 92) && (u =? 117) then
    match hex4_value x1 x2 x3 x4 with
    | None => BadPair
    | Some lo => if is_low lo then Joined (join_surrogates hi lo) else NoPair
    end
  else NoPair.

(** The scanner of strings, started after the opening quote; [acc] is what
    has been read, reversed.  The result is the string and the rest of the
    text after the closing quote. *)
Fixpoint scanstring (acc : str) (s : str) {struct s} : result (str * str) :=
  match s with
  | [] => Raise (decode_error "Unterminated string starting at")
  | c :: s1 =>
      if c =? 34 then Ok (rev acc, s1)
      else if c =? 92 then
        match s1 with
        | [] => Raise (decode_error "Unterminated string starting at")
        | e :: s2 =>
            if e =? 117 then
              match s2 with
              | x1 :: x2 :: x3 :: x4 :: ((_ :: _) as s3) =>
                  match hex4_value x1 x2 x3 x4 with
                  | None => Raise (decode_error "Invalid \uXXXX escape")
                  | Some hi =>
                      if is_high hi then
                        match s3 with
                        | b :: u :: y1 :: y2 :: y3 :: y4 :: ((_ :: _) as s4) =>
                            match look_pair hi b u y1 y2 y3 y4 with
                            | NoPair => scanstring (hi :: acc) s3
                            | BadPair =>
                                Raise (decode_error "Invalid \uXXXX escape")
                            | Joined j => scanstring (j :: acc) s4
                            end
                        | _ => scanstring (hi :: acc) s3
                        end
                      else scanstring (hi :: acc) s3
                  end
              | _ => Raise (decode_error "Invalid \uXXXX escape")
              end
            else
              match simple_escape e with
              | Some d => scanstring (d :: acc) s2
              | None => Raise (decode_error "Invalid \escape")
              end
        end
      else if c <? 32 then
        Raise (decode_error "Invalid control character at")
      else scanstring (c :: acc) s1
  end.

Definition is_digit (c : N) : bool := (48 <=? c) && (c <=? 57).

Fixpoint span_digits (s : str) : str * str :=
  match s with
  | c :: s' =>
      if is_digit c then let (d, r) := span_digits s' in (c :: d, r)
      else ([], s)
  | [] => ([], [])
  end.

Fixpoint digits_value (acc : Z) (d : str) : Z :=
  match d with
  | [] => acc
  | c :: d' => digits_value (acc * 10 + Z.of_N (c - 48)) d'
  end.

(** The integer part: [0], or a digit from 1 to 9 and more digits. *)
Definition int_part (s : str) : option (str * str) :=
  match s with
  | c :: s' =>
      if c =? 48 then Some ([48], s')
      else if (49 <=? c) && (c <=? 57) then
        let (d, r) := span_digits s' in Some (c :: d, r)
      else None
  | [] => None
  end.

(** The fraction: a point and at least one digit, with something before
    the end of the text after the point. *)
Definition frac_part (s : str) : str * str :=
  match s with
  | p :: d :: s' =>
      if (p =? 46) && is_digit d then
        let (ds, r) := span_digits s' in (p :: d :: ds, r)
      else ([], s)
  | _ => ([], s)
  end.

(** The exponent: [e] or [E], a sign or none, and at least one digit. *)
Definition exp_part (s : str) : str * str :=
  match s with
  | e :: s' =>
      if ((e =? 101) || (e =? 69)) then
        match s' with
        | [] => ([], s)
        | g :: s'' =>
            if (g =? 45) || (g =? 43) then
              match span_digits s'' with
              | ([], _) => ([], s)
              | (ds, r) => (e :: g :: ds, r)
              end
            else
              match span_digits s' with
              | ([], _) => ([], s)
              | (ds, r) => (e :: ds, r)
              end
        end
      else ([], s)
  | [] => ([], [])
  end.

(** A number at the head of [s]: its value and the rest; [None] when there
    is no number there. *)
Definition match_number (env : Env) (s : str) : option (result json * str) :=
  let (sign, s0) :=
    match s with
    | c :: s' => if c =? 45 then ([45], s') else ([], s)
    | [] => ([], [])
    end in
  match int_part s0 with
  | None => None
  | Some (ip, s1) =>
      let (fp, s2) := frac_part s1 in
      let (ep, s3) := exp_part s2 in
      match fp, ep with
      | [], [] =>
          if negb (int_max_str_digits env =? 0)
             && (int_max_str_digits env <? N.of_nat (List.length ip))
          then
            Some (Raise (OtherException
                           (lit "Exceeds the limit ("
                              ++ str_of_int (Z.of_N (int_max_str_digits env))
                              ++ lit " digits) for integer string conversion: "
                              ++ lit "value has "
                              ++ str_of_int (Z.of_nat (List.length ip))
                              ++ lit " digits; "
                              ++ lit "use sys.set_int_max_str_digits() "
                              ++ lit "to increase the limit")),
                  s3)
          else
            let n := digits_value 0 ip in
            Some (Ok (JInt (match sign with [] => n | _ => (- n)%Z end)), s3)
      | _, _ => Some (Ok (JFloat (parse_float env (sign ++ ip ++ fp ++ ep))), s3)
      end
  end.

(** [d[k] = v] on the items of a dict: a key that is there keeps its place. *)
Fixpoint dict_set (d : list (str * json)) (k : str) (v : json)
  : list (str * json) :=
  match d with
  | [] => [(k, v)]
  | (k', v') :: d' =>
      if str_eqb k' k then (k', v) :: d' else (k', v') :: dict_set d' k v
  end.

(** The scanner of values, and the loops over the members of an object and
    the items of an array, started after the opening bracket and the white
    space that follows it.  Every call uses up text, so that fuel above the
    length of the text is never used up. *)
Fixpoint scan_once (env : Env) (fuel : nat) (s : str) {struct fuel}
  : result (json * str) :=
  match fuel with
  | O => Raise (decode_error "Expecting value")
  | S fuel' =>
      let members :=
        fix members (fuel : nat) (d : list (str * json)) (s : str)
          {struct fuel} : result (json * str) :=
          match fuel with
          | O => Raise (decode_error "Expecting value")
          | S fuel1 =>
              match s with
              | 34 :: s1 =>
                  match scanstring [] s1 with
                  | Raise e => Raise e
                  | Ok (key, s2) =>
                      match skip_ws s2 with
                      | 58 :: s3 =>
                          match scan_once env fuel' (skip_ws s3) with
                          | Raise e => Raise e
                          | Ok (v, s4) =>
                              match skip_ws s4 with
                              | 125 :: s5 => Ok (JDict (dict_set d key v), s5)
                              | 44 :: s5 =>
                                  members fuel1 (dict_set d key v) (skip_ws s5)
                              | _ => Raise (decode_error "Expecting ',' delimiter")
                              end
                          end
                      | _ => Raise (decode_error "Expecting ':' delimiter")
                      end
                  end
              | _ =>
                  Raise (decode_error
                           "Expecting property name enclosed in double quotes")
              end
          end in
      let items :=
        fix items (fuel : nat) (l : list json) (s : str)
          {struct fuel} : result (json * str) :=
          match fuel with
          | O => Raise (decode_error "Expecting value")
          | S fuel1 =>
              match scan_once env fuel' s with
              | Raise e => Raise e
              | Ok (v, s1) =>
                  match skip_ws s1 with
                  | 93 :: s2 => Ok (JList (rev (v :: l)), s2)
                  | 44 :: s2 => items fuel1 (v :: l) (skip_ws s2)
                  | _ => Raise (decode_error "Expecting ',' delimiter")
                  end
              end
          end in
      match s with
      | [] => Raise (decode_error "Expecting value")
      | c :: s1 =>
          if c =? 34 then
            match scanstring [] s1 with
            | Raise e => Raise e
            | Ok (t, r) => Ok (JStr t, r)
            end
          else if c =? 123 then
            match skip_ws s1 with
            | 125 :: s2 => Ok (JDict [], s2)
            | s2 => members (S (List.length s2)) [] s2
            end
          else if c =? 91 then
            match skip_ws s1 with
            | 93 :: s2 => Ok (JList [], s2)
            | s2 => items (S (List.length s2)) [] s2
            end
          else if startswith s (lit "null") then Ok (JNull, skipn 4 s)
          else if startswith s (lit "true") then Ok (JBool true, skipn 4 s)
          else if startswith s (lit "false") then Ok (JBool false, skipn 5 s)
          else if startswith s (lit "NaN") then Ok (JFloat FNan, skipn 3 s)
          else if startswith s (lit "Infinity") then
            Ok (JFloat (FInf false), skipn 8 s)
          else if startswith s (lit "-Infinity") then
            Ok (JFloat (FInf true), skipn 9 s)
          else
            match match_number env s with
            | Some (Ok v, r) => Ok (v, r)
            | Some (Raise e, _) => Raise e
            | None => Raise (decode_error "Expecting value")
            end
      end
  end.

(** [json.loads(text)]. *)
Definition loads (env : Env) (text : str) : result json :=
  if startswith text [65279] then
    Raise (decode_error "Unexpected UTF-8 BOM (decode using utf-8-sig)")
  else
    match scan_once env (S (List.length text)) (skip_ws text) with
    | Raise e => Raise e
    | Ok (v, r) =>
        match skip_ws r with
        | [] => Ok v
        | _ :: _ => Raise (decode_error "Extra data")
        end
    end.

(** The codec as [Settings] takes it. *)
Definition python (env : Env) : Settings.JsonCodec :=
  Settings.mkCodec (dumps env) (loads env).

End Json.

(** ** The outside world *)

(** A camera frame (the BGR array of OpenCV), as raw samples. *)
Definition frame := list N.

Inductive request :=
| GetHealth (url : str)
| PostChat (url authorization : str) (text voice_id : str)
| PostVision (url authorization : str) (image : list Byte.byte)
             (prompt mode target voice_id : str).

Record World := mkWorld {
  (** [pyttsx3 is not None]: the import at the top of the file worked. *)
  pyttsx3_present : bool;
  (** [time.strftime("[%H:%M:%S]")] at the n-th reading of the clock. *)
  strftime : nat -> str;
  (** [requests.get] and [requests.post]: a response, or the exception
      raised before there is one. *)
  requests_send : request -> result Response;
  (** [cv2.imencode(".jpg", frame, ...)]. *)
  imencode : frame -> result (bool * list Byte.byte);
  (** [str.lower] on a string that is not pure ASCII. *)
  lower_unicode : str -> str
}.

Definition lower (w : World) (s : str) : str :=
  if is_ascii s then map ascii_lower s else lower_unicode w s.

(** [Response.raise_for_status] of the requests library. *)
Definition raise_for_status (r : Response) : result unit :=
  let n := status_code r in
  if ((400 <=? n) && (n <? 500))%Z then
    Raise (HTTPError (str_of_int n ++ lit " Client Error: " ++ reason r
                        ++ lit " for url: " ++ url r) (Some r))
  else if ((500 <=? n) && (n <? 600))%Z then
    Raise (HTTPError (str_of_int n ++ lit " Server Error: " ++ reason r
                        ++ lit " for url: " ++ url r) (Some r))
  else Ok tt.

(** [r.json()]. *)
Definition response_json (r : Response) : result json :=
  match decoded r with
  | inr v => Ok v
  | inl msg => Raise (OtherException msg)
  end.

(** [getattr(e.response, 'text', '')]. *)
Definition response_text (e : exn) : str :=
  match e with
  | HTTPError _ (Some r) => text r
  | _ => []
  end.

(** [encode_jpeg]. *)
Definition encode_jpeg (w : World) (frame_bgr : frame)
  : result (list Byte.byte) :=
  match imencode w frame_bgr with
  | Raise e => Raise e
  | Ok (ok, buf) =>
      if ok then Ok buf
      else Raise (RuntimeError (lit "Failed to encode frame as JPEG"))
  end.

(** ** The window *)

Record MainWindow := mkWindow {
  settings : Settings.t str;
  host_edit : str;
  key_edit : str;
  chat_input : str;
  target_edit : str;
  mode_combo : str;
  (** The paragraphs appended to the log pane, oldest first. *)
  log : list str;
  last_frame : option frame;
  _last_spoken_text : str;
  (** What the handlers did to the outside, oldest first: the texts of the
      speech worker threads started, the HTTP requests sent, and how often
      the clock was read. *)
  tts_started : list str;
  http_sent : list request;
  clock_reads : nat
}.

Definition with_log (l : list str) (n : nat) (st : MainWindow) : MainWindow :=
  mkWindow (settings st) (host_edit st) (key_edit st) (chat_input st)
           (target_edit st) (mode_combo st) l (last_frame st)
           (_last_spoken_text st) (tts_started st) (http_sent st) n.

Definition with_speech (t : str) (st : MainWindow) : MainWindow :=
  mkWindow (settings st) (host_edit st) (key_edit st) (chat_input st)
           (target_edit st) (mode_combo st) (log st) (last_frame st)
           t (tts_started st ++ [t]) (http_sent st) (clock_reads st).

Definition with_request (r : request) (st : MainWindow) : MainWindow :=
  mkWindow (settings st) (host_edit st) (key_edit st) (chat_input st)
           (target_edit st) (mode_combo st) (log st) (last_frame st)
           (_last_spoken_text st) (tts_started st) (http_sent st ++ [r])
           (clock_reads st).

(** [self.log.toPlainText()]: the paragraphs, one per line. *)
Definition toPlainText (st : MainWindow) : str := join [10] (log st).

(** *** Handlers: state and exceptions *)

Definition M (A : Type) : Type := MainWindow -> result A * MainWindow.

Definition ret {A} (a : A) : M A := fun st => (Ok a, st).

Definition bind {A B} (m : M A) (k : A -> M B) : M B :=
  fun st =>
    match m st with
    | (Ok a, st') => k a st'
    | (Raise e, st') => (Raise e, st')
    end.

Definition raise {A} (e : exn) : M A := fun st => (Raise e, st).

Definition lift {A} (r : result A) : M A := fun st => (r, st).

Definition gets {A} (f : MainWindow -> A) : M A := fun st => (Ok (f st), st).

Definition modify (f : MainWindow -> MainWindow) : M unit :=
  fun st => (Ok tt, f st).

(** [try: body / except Exception as e: handler e]. *)
Definition try_except {A} (body : M A) (handler : exn -> M A) : M A :=
  fun st =>
    match body st with
    | (Ok a, st') => (Ok a, st')
    | (Raise e, st') => handler e st'
    end.

(** [try: x = m / except Exception as e: ...] with the outcome handed on. *)
Definition attempt {A} (m : M A) : M (result A) :=
  fun st => let (r, st') := m st in (Ok r, st').

Notation "x <- m ;; k" := (bind m (fun x => k))
  (at level 61, m at next level, right associativity).
Notation "m ;;; k" := (bind m (fun _ => k))
  (at level 61, right associativity).

Section Handlers.

Variable w : World.

(** [_log]. *)
Definition _log (msg : str) : M unit :=
  fun st =>
    let now := strftime w (clock_reads st) in
    (Ok tt, with_log (log st ++ [now ++ lit " " ++ msg]) (S (clock_reads st)) st).

(** [_speak_async]: the worker thread it starts is [Tts.worker] below. *)
Definition _speak_async (text : str) : M unit :=
  if negb (truthy text) || negb (pyttsx3_present w) then ret tt
  else modify (with_speech text).

(** The first loop of [_speak_last_text], over the reversed lines; the
    result says whether the function has returned. *)
Fixpoint scan_prefixed (ls : list str) : M bool :=
  match ls with
  | [] => ret false
  | line :: rest =>
      let s := strip line in
      if startswith s (lit "Assistant:") || startswith s (lit "Vision:") then
        match split1_snd 58 s with
        | None => raise (OtherException (lit "list index out of range"))
        | Some after =>
            let content := strip after in
            if truthy content then _speak_async content ;;; ret true
            else scan_prefixed rest
        end
      else scan_prefixed rest
  end.

(** Its second loop. *)
Fixpoint scan_nonblank (ls : list str) : M bool :=
  match ls with
  | [] => ret false
  | line :: rest =>
      let s := strip line in
      if truthy s then _speak_async s ;;; ret true
      else scan_nonblank rest
  end.

(** [_speak_last_text]. *)
Definition _speak_last_text : M unit :=
  last <- gets _last_spoken_text ;;
  if truthy last then _speak_async last
  else
    lines <- gets (fun st => splitlines (toPlainText st)) ;;
    returned <- scan_prefixed (rev lines) ;;
    if returned : bool then ret tt
    else
      returned <- scan_nonblank (rev lines) ;;
      if returned : bool then ret tt
      else _log (lit "Nothing to speak yet.").

(** [_hk]. *)
Definition _hk : M (str * str) :=
  fun st =>
    let host := or_else (strip (host_edit st))
                        (strip (Settings.host (settings st))) in
    let key := or_else (strip (key_edit st))
                       (strip (Settings.api_key (settings st))) in
    if negb (truthy host) || negb (truthy key)
    then (Raise (RuntimeError (lit "Host or API key missing.")), st)
    else (Ok (host, key), st).

(** A call of [requests.get] or [requests.post]. *)
Definition send (r : request) : M Response :=
  modify (with_request r) ;;; lift (requests_send w r).

Definition voice_id (st : MainWindow) : str :=
  or_else (Settings.voice_name (settings st)) (lit "en_US-amy-medium").

(** [_post_chat]. *)
Definition _post_chat (host key text : str) : M json :=
  voice <- gets voice_id ;;
  r <- send (PostChat (host ++ lit "/chat") (lit "Bearer " ++ key) text voice) ;;
  lift (raise_for_status r) ;;;
  lift (response_json r).

(** [_post_vision]. *)
Definition _post_vision (host key : str) (frame_bgr : frame)
           (prompt mode target : str) : M json :=
  jpeg_bytes <- lift (encode_jpeg w frame_bgr) ;;
  voice <- gets voice_id ;;
  r <- send (PostVision (host ++ lit "/vision") (lit "Bearer " ++ key)
                        jpeg_bytes
                        (or_else prompt [])
                        (lower w (or_else mode (lit "scene")))
                        (or_else target [])
                        voice) ;;
  lift (raise_for_status r) ;;;
  lift (response_json r).

(** [(res or {}).get("text", "").strip()]. *)
Definition reply_text (res : json) : result str :=
  match (if json_truthy res then res else JDict []) with
  | JDict d =>
      match dict_get d (lit "text") (JStr []) with
      | JStr s => Ok (strip s)
      | v => Raise (no_attribute v "strip")
      end
  | v => Raise (no_attribute v "get")
  end.

(** [_test_health]. *)
Definition _test_health : M unit :=
  hk <- attempt _hk ;;
  match hk with
  | Raise e => _log (lit "Health check error: " ++ exn_str e)
  | Ok (host, _) =>
      try_except
        (r <- send (GetHealth (host ++ lit "/health")) ;;
         _log (lit "Health: " ++ str_of_int (status_code r)
                 ++ lit " " ++ text r))
        (fun e => _log (lit "Health check error: " ++ exn_str e))
  end.

(** [_send_chat]. *)
Definition _send_chat : M unit :=
  hk <- attempt _hk ;;
  match hk with
  | Raise e => _log (lit "Chat error: " ++ exn_str e)
  | Ok (host, key) =>
      text <- gets (fun st => strip (chat_input st)) ;;
      if negb (truthy text) then ret tt
      else
        _log (lit "You: " ++ text) ;;;
        try_except
          (res <- _post_chat host key text ;;
           msg <- lift (reply_text res) ;;
           if truthy msg then
             _log (lit "Assistant: " ++ msg) ;;;
             _speak_async msg
           else _log (lit "Assistant: (empty)"))
          (fun e =>
             match e with
             | HTTPError _ _ =>
                 _log (lit "Chat error: " ++ exn_str e
                         ++ lit " | Body: " ++ response_text e)
             | _ => _log (lit "Chat error: " ++ exn_str e)
             end)
  end.

(** The prompt [_vision_with_frame] sends: the given one, or the entry of
    the mode in its table of defaults. *)
Definition default_prompts (target : str) : list (str * str) :=
  [(lit "scene", lit "Describe the scene briefly for navigation.");
   (lit "emotion",
    lit "Describe the likely facial expression and overall emotion.");
   (lit "navigate",
    lit "How to navigate toward " ++ or_else target (lit "the target")
      ++ lit " in the scene?");
   (lit "objects", lit "List the main objects present with short positions.")].

Fixpoint table_get (d : list (str * str)) (key default : str) : str :=
  match d with
  | [] => default
  | (k, v) :: d' => if str_eqb k key then v else table_get d' key default
  end.

Definition user_prompt (mode target prompt : str) : str :=
  or_else prompt
    (table_get (default_prompts target)
               (lower w (or_else mode (lit "scene")))
               (lit "Describe the scene briefly for navigation.")).

(** [_vision_with_frame]. *)
Definition _vision_with_frame (frame_bgr : frame) (mode target prompt : str)
  : M unit :=
  hk <- attempt _hk ;;
  match hk with
  | Raise e => _log (lit "Vision error: " ++ exn_str e)
  | Ok (host, key) =>
      try_except
        (res <- _post_vision host key frame_bgr
                             (user_prompt mode target prompt) mode target ;;
         text <- lift (reply_text res) ;;
         if truthy text then
           _log (lit "Vision:" ++ [10] ++ text) ;;;
           _speak_async text
         else _log (lit "Vision: (empty response)."))
        (fun e =>
           match e with
           | HTTPError _ _ =>
               _log (lit "Vision error: " ++ exn_str e
                       ++ lit " | Body: " ++ response_text e)
           | ConnectionError _ =>
               _log (lit "Vision error: connection failed ("
                       ++ exn_str e ++ lit ")")
           | _ => _log (lit "Vision error: " ++ exn_str e)
           end)
  end.

(** [_vision_click]. *)
Definition _vision_click : M unit :=
  fr <- gets last_frame ;;
  match fr with
  | None => _log (lit "No frame. Start Camera or Snap first.")
  | Some f =>
      mode <- gets mode_combo ;;
      target <- gets (fun st => strip (target_edit st)) ;;
      _vision_with_frame f mode target []
  end.

End Handlers.

(** ** The speech worker threads

    [_speak_async] starts one thread per utterance; each runs the local
    function [run].  The threads of one window share [self._tts_lock].  The
    semantics below interleaves their steps; a thread is named by the order
    in which it was started. *)

Module Tts.

(** Where a worker is in [run]. *)
Inductive pc :=
| Start            (* before [with self._tts_lock] *)
| InitEngine       (* lock taken, before [pyttsx3.init()] *)
| SelectVoice      (* before the voice lookup *)
| PickVoice        (* [eng.getProperty("voices")] returned, in the loop *)
| Say              (* before [eng.say(text)] *)
| RunAndWait       (* before [eng.runAndWait()] *)
| StopEngine       (* before [eng.stop()] *)
| Finished.        (* left the [with] block, normally or by an exception *)

(** The thread is inside the [with] block. *)
Definition in_lock (p : pc) : bool :=
  match p with
  | InitEngine | SelectVoice | PickVoice | Say | RunAndWait | StopEngine =>
      true
  | Start | Finished => false
  end.

(** Calls into the speech engine. *)
Inductive op :=
| EInit
| EGetVoices                 (* [eng.getProperty("voices")] *)
| ESetVoice (id : str)       (* [eng.setProperty("voice", v.id)] *)
| ESay (text : str)
| ERunAndWait
| EStop.

Record state := mkState {
  locked : bool;                  (* [self._tts_lock] is held *)
  started : nat;                  (* number of threads started *)
  at_pc : nat -> pc;
  text_of : nat -> str;           (* the [text] each [run] closes over *)
  engine : list (nat * op);       (* engine calls that returned, oldest
                                     first *)
  tts_errors : list nat           (* threads that logged "TTS error: ..." *)
}.

Definition init : state :=
  mkState false 0 (fun _ => Start) (fun _ => []) [] [].

Definition upd {A} (f : nat -> A) (i : nat) (a : A) : nat -> A :=
  fun j => if Nat.eqb j i then a else f j.

Definition goto (i : nat) (p : pc) (l : bool) (s : state) : state :=
  mkState l (started s) (upd (at_pc s) i p) (text_of s) (engine s)
          (tts_errors s).

Definition call (i : nat) (o : op) (s : state) : state :=
  mkState (locked s) (started s) (at_pc s) (text_of s)
          (engine s ++ [(i, o)]) (tts_errors s).

Definition log_error (i : nat) (s : state) : state :=
  mkState (locked s) (started s) (at_pc s) (text_of s) (engine s)
          (tts_errors s ++ [i]).

(** [threading.Thread(target=run, daemon=True).start()]. *)
Definition spawn (text : str) (s : state) : state :=
  mkState (locked s) (S (started s))
          (upd (at_pc s) (started s) Start)
          (upd (text_of s) (started s) text)
          (engine s) (tts_errors s).

Inductive step : state -> state -> Prop :=
| step_spawn s text :
    step s (spawn text s)
| step_acquire s i :
    (i < started s)%nat -> at_pc s i = Start -> locked s = false ->
    step s (goto i InitEngine true s)
| step_init s i :
    (i < started s)%nat -> at_pc s i = InitEngine ->
    step s (call i EInit (goto i SelectVoice (locked s) s))
| step_no_voice s i :
    (* no voice name is saved and the lookup is skipped, or [getProperty]
       raises and the inner [except] swallows it *)
    (i < started s)%nat -> at_pc s i = SelectVoice ->
    step s (goto i Say (locked s) s)
| step_get_voices s i :
    (i < started s)%nat -> at_pc s i = SelectVoice ->
    step s (call i EGetVoices (goto i PickVoice (locked s) s))
| step_set_voice s i id :
    (* a voice has the saved name and [setProperty] returns *)
    (i < started s)%nat -> at_pc s i = PickVoice ->
    step s (call i (ESetVoice id) (goto i Say (locked s) s))
| step_no_match s i :
    (* no voice has the saved name, or the loop raises (in [setProperty],
       say) and the inner [except] swallows it *)
    (i < started s)%nat -> at_pc s i = PickVoice ->
    step s (goto i Say (locked s) s)
| step_say s i :
    (i < started s)%nat -> at_pc s i = Say ->
    step s (call i (ESay (text_of s i)) (goto i RunAndWait (locked s) s))
| step_run s i :
    (i < started s)%nat -> at_pc s i = RunAndWait ->
    step s (call i ERunAndWait (goto i StopEngine (locked s) s))
| step_stop s i :
    (* [eng.stop()], then the [with] block releases the lock *)
    (i < started s)%nat -> at_pc s i = StopEngine ->
    step s (call i EStop (goto i Finished false s))
| step_fail s i :
    (* an exception inside the [with] block, from a call of the engine or
       not: the lock is released on the way out and the outer [except]
       logs it *)
    (i < started s)%nat -> in_lock (at_pc s i) = true ->
    step s (log_error i (goto i Finished false s)).

Inductive reachable : state -> Prop :=
| reach_init : reachable init
| reach_step s s' : reachable s -> step s s' -> reachable s'.

(** The threads in the order in which they used the engine: the thread of
    each engine call, runs of the same thread merged. *)
Fixpoint owners (l : list nat) : list nat :=
  match l with
  | [] => []
  | i :: l' =>
      match l' with
      | j :: _ => if Nat.eqb i j then owners l' else i :: owners l'
      | [] => [i]
      end
  end.

(** The engine calls are serial: once another thread has used the engine,
    a thread does not come back. *)
Definition serial (s : state) : Prop := NoDup (owners (map fst (engine s))).

End Tts.

(** ** Vocabulary of the specification *)

(** A log line that carries an utterance: stripped, it starts with
    "Assistant:" or "Vision:", and [content], the stripped text after that
    prefix, is not empty. *)
Definition carries (line content : str) : Prop :=
  exists rest,
    (strip line = lit "Assistant:" ++ rest \/ strip line = lit "Vision:" ++ rest)
    /\ content = strip rest
    /\ content <> [].

(** What [_hk] resolves a field to: the stripped text of the edit field when
    that is not empty, otherwise the saved value (stripped as well). *)
Definition resolve (edit saved : str) : str :=
  match strip edit with
  | [] => strip saved
  | c :: e => c :: e
  end.

(** The outcome [out] of a handler started in [st] is: it returned, having
    appended to the log the one line [msg] (stamped with the time), sent no
    HTTP request and started no speech. *)
Definition only_logs (w : World) (st : MainWindow) (msg : str)
           (out : result unit * MainWindow) : Prop :=
  fst out = Ok tt
  /\ log (snd out) = log st ++ [strftime w (clock_reads st) ++ lit " " ++ msg]
  /\ http_sent (snd out) = http_sent st
  /\ tts_started (snd out) = tts_started st.

(** The request that goes to /vision for the arguments of
    [_vision_with_frame], once host and key are resolved and the frame is
    encoded. *)
Definition vision_request (w : World) (st : MainWindow) (host key : str)
           (jpeg : list Byte.byte) (mode target prompt : str) : request :=
  PostVision (host ++ lit "/vision") (lit "Bearer " ++ key) jpeg
             (or_else (user_prompt w mode target prompt) [])
             (lower w (or_else mode (lit "scene")))
             (or_else target [])
             (voice_id st).

(** The field [prompt] of a request to /vision. *)
Definition prompt_of (r : request) : option str :=
  match r with
  | PostVision _ _ _ p _ _ _ => Some p
  | _ => None
  end.

(** The prompt of the request sent last. *)
Definition last_prompt (st : MainWindow) : option str :=
  match rev (http_sent st) with
  | r :: _ => prompt_of r
  | [] => None
  end.

(** The file format of the specification: a JSON object with the fields
    [host], [api_key] and [voice_name], each a string. *)
Definition matches_record (v : json) : Prop :=
  exists (d : list (str * json)) (h k n : str),
    v = JDict d
    /\ dict_get d (lit "host") JNull = JStr h
    /\ dict_get d (lit "api_key") JNull = JStr k
    /\ dict_get d (lit "voice_name") JNull = JStr n.

(** The settings file is there and parses as JSON matching the record. *)
Definition parses_as_record (codec : Settings.JsonCodec)
           (f : Settings.settings_file) : Prop :=
  exists (c : str) (v : json),
    f = Settings.Content c /\ Settings.loads codec c = Ok v
    /\ matches_record v.

(** The settings file is there and parses as a JSON object all of whose keys
    name fields of the record. *)
Definition parses_as_fields (codec : Settings.JsonCodec)
           (f : Settings.settings_file) : Prop :=
  exists (c : str) (d : list (str * json)),
    f = Settings.Content c /\ Settings.loads codec c = Ok (JDict d)
    /\ Forall (fun kv => In (fst kv) Settings.field_names) d.

(** The worker has called the engine and is still inside the [with] block. *)
Definition speaking (p : Tts.pc) : bool :=
  match p with
  | Tts.SelectVoice | Tts.PickVoice | Tts.Say | Tts.RunAndWait
  | Tts.StopEngine => true
  | _ => false
  end.

(** The worker has not called the engine yet. *)
Definition silent (p : Tts.pc) : bool :=
  match p with
  | Tts.Start | Tts.InitEngine => true
  | _ => false
  end.

(** What holds in every state the workers can reach: the lock is held
    whenever a worker is inside the [with] block, at most one is, only
    started workers have called the engine, those that have not yet are
    absent from the record of calls, the one that is speaking made the last
    call, and the calls are serial. *)
Record tts_inv (s : Tts.state) : Prop := mkInv {
  inv_locked : forall i, Tts.in_lock (Tts.at_pc s i) = true ->
                         Tts.locked s = true;
  inv_alone : forall i j, Tts.in_lock (Tts.at_pc s i) = true ->
                          Tts.in_lock (Tts.at_pc s j) = true -> i = j;
  inv_started : forall i, In i (map fst (Tts.engine s)) ->
                          (i < Tts.started s)%nat;
  inv_silent : forall i, silent (Tts.at_pc s i) = true ->
                         ~ In i (map fst (Tts.engine s));
  inv_speaking : forall i, speaking (Tts.at_pc s i) = true ->
                           exists l, map fst (Tts.engine s) = l ++ [i];
  inv_serial : Tts.serial s
}.

(** ** The other handlers *)

Definition with_settings (s : Settings.t str) (st : MainWindow) : MainWindow :=
  mkWindow s (host_edit st) (key_edit st) (chat_input st)
           (target_edit st) (mode_combo st) (log st) (last_frame st)
           (_last_spoken_text st) (tts_started st) (http_sent st)
           (clock_reads st).

Definition with_chat_input (t : str) (st : MainWindow) : MainWindow :=
  mkWindow (settings st) (host_edit st) (key_edit st) t
           (target_edit st) (mode_combo st) (log st) (last_frame st)
           (_last_spoken_text st) (tts_started st) (http_sent st)
           (clock_reads st).

Definition with_last_frame (f : option frame) (st : MainWindow) : MainWindow :=
  mkWindow (settings st) (host_edit st) (key_edit st) (chat_input st)
           (target_edit st) (mode_combo st) (log st) f
           (_last_spoken_text st) (tts_started st) (http_sent st)
           (clock_reads st).

(** [_save_settings], on the window and the file [settings.json]; an
    exception of [save] is not caught. *)
Definition _save_settings (codec : Settings.JsonCodec)
           (o : Settings.write_outcome) (w : World)
           (st : MainWindow) (f : Settings.settings_file)
  : result unit * MainWindow * Settings.settings_file :=
  let st1 :=
    with_settings (Settings.mk (strip (host_edit st)) (strip (key_edit st))
                               (Settings.voice_name (settings st))) st in
  match Settings.save codec o (Settings.of_strings (settings st1)) f with
  | (Raise e, f1) => (Raise e, st1, f1)
  | (Ok _, f1) =>
      (_log w (lit "[Saved] Settings written to settings.json.") st1, f1)
  end.


(** [_snap_to_vision]. *)
Definition _snap_to_vision (w : World) : M unit :=
  fr <- gets last_frame ;;
  match fr with
  | None => _log w (lit "No frame yet.")
  | Some f =>
      mode <- gets mode_combo ;;
      target <- gets (fun st => strip (target_edit st)) ;;
      _vision_with_frame w f mode target []
  end.

(** *** Microphone *)

(** What happens when [_chat_from_mic] listens. *)
Inductive hearing :=
| RecognizerFailed (e : exn)   (* [sr.Recognizer()] raised *)
| MicrophoneFailed (e : exn)   (* [sr.Microphone()] could not be entered *)
| ListenFailed (e : exn)       (* raised inside the [with] block *)
| UnknownValue                 (* [sr.UnknownValueError] *)
| RequestFailed (msg : str)    (* [sr.RequestError], with [str(e)] *)
| RecognizeFailed (e : exn)    (* another exception of [recognize_google] *)
| Transcript (t : str).

Record Ears := mkEars {
  sr_present : bool;              (* [sr is not None] *)
  hear : hearing
}.

Definition listening : str := lit "Listening" ++ [8230] ++ lit " (speak now)".

(** [_chat_from_mic]; [mic_target] is [self.mic_target_combo.currentText()].
    [QLineEdit.setText] is taken to keep the transcript as it is. *)
Definition _chat_from_mic (w : World) (ears : Ears) (mic_target : str)
  : M unit :=
  if negb (sr_present ears) then
    _log w (lit "STT not available. Install: SpeechRecognition + PyAudio")
  else
    let target := lower w (or_else mic_target (lit "chat")) in
    match hear ears with
    | RecognizerFailed e => raise e
    | MicrophoneFailed e => _log w (lit "Mic error: " ++ exn_str e)
    | ListenFailed e =>
        _log w listening ;;; _log w (lit "Mic error: " ++ exn_str e)
    | UnknownValue =>
        _log w listening ;;;
        _log w (lit "Sorry, I couldn't understand your speech.")
    | RequestFailed msg =>
        _log w listening ;;; _log w (lit "Speech service error: " ++ msg)
    | RecognizeFailed e =>
        _log w listening ;;; _log w (lit "Mic error: " ++ exn_str e)
    | Transcript transcript =>
        _log w listening ;;;
        if str_eqb target (lit "vision") then
          fr <- gets last_frame ;;
          match fr with
          | None => _log w (lit "No camera frame. Start Camera and try again.")
          | Some f =>
              mode <- gets mode_combo ;;
              tgt <- gets (fun st => strip (target_edit st)) ;;
              _vision_with_frame w f mode tgt transcript
          end
        else
          modify (with_chat_input transcript) ;;;
          _send_chat w
    end.

(** *** Camera *)

(** What the preview label shows. *)
Inductive preview_content :=
| PreviewText (s : str)
| PreviewPixmap (rgb : frame).

(** The camera side of the window: whether [self.cap] is set, whether the
    timer runs, the caption of the camera button, the preview. *)
Record Camera := mkCamera {
  cap : bool;
  timer_active : bool;
  btn_cam : str;
  preview : preview_content
}.

(** What [cv2.VideoCapture(0)] and [isOpened] do. *)
Inductive opening :=
| ConstructRaises (e : exn)        (* [cv2.VideoCapture(0)] raised *)
| IsOpenedRaises (e : exn)         (* [self.cap.isOpened()] raised *)
| NotOpened
| Opened.

Record Eyes := mkEyes {
  cv2_present : bool;                       (* [cv2 is not None] *)
  open_camera : opening;
  release : result unit;                    (* [self.cap.release()] *)
  read_frame : result (bool * option frame);(* [self.cap.read()] *)
  cvt_color : frame -> result frame         (* [cv2.cvtColor(_, BGR2RGB)] *)
}.

(** [_toggle_camera]. *)
Definition _toggle_camera (w : World) (eyes : Eyes)
           (st : MainWindow) (cam : Camera)
  : result unit * MainWindow * Camera :=
  if negb (cv2_present eyes) then
    (_log w (lit "OpenCV not available. Install opencv-python.") st, cam)
  else if negb (cap cam) then
    match open_camera eyes with
    | ConstructRaises e =>
        (_log w (lit "Camera error: " ++ exn_str e) st, cam)
    | IsOpenedRaises e =>
        (_log w (lit "Camera error: " ++ exn_str e) st,
         mkCamera true (timer_active cam) (btn_cam cam) (preview cam))
    | NotOpened =>
        match release eyes with
        | Ok _ => (_log w (lit "Could not open webcam.") st, cam)
        | Raise e =>
            (_log w (lit "Camera error: " ++ exn_str e) st,
             mkCamera true (timer_active cam) (btn_cam cam) (preview cam))
        end
    | Opened =>
        ((Ok tt, st),
         mkCamera true true (lit "Stop Camera") (preview cam))
    end
  else
    ((Ok tt, with_last_frame None st),
     mkCamera false false (lit "Start Camera")
              (PreviewText (lit "Camera preview"))).

(** [_grab_frame]. *)
Definition _grab_frame (eyes : Eyes) (st : MainWindow) (cam : Camera)
  : result unit * MainWindow * Camera :=
  if negb (cap cam) then ((Ok tt, st), cam)
  else
    match read_frame eyes with
    | Raise e => ((Raise e, st), cam)
    | Ok (ok, fr) =>
        match ok, fr with
        | true, Some f =>
            let st1 := with_last_frame (Some f) st in
            match cvt_color eyes f with
            | Raise e => ((Raise e, st1), cam)
            | Ok rgb =>
                ((Ok tt, st1),
                 mkCamera (cap cam) (timer_active cam) (btn_cam cam)
                          (PreviewPixmap rgb))
            end
        | _, _ => ((Ok tt, st), cam)
        end
    end.

(** *** More about the speech workers *)

(** The engine calls of thread [i], in order. *)
Definition calls_of (i : nat) (l : list (nat * Tts.op)) : list Tts.op :=
  map snd (filter (fun e => Nat.eqb (fst e) i) l).

(** The engine calls of the voice lookup: none when no voice name is saved,
    else the voices are asked for, and a voice is set when one has the
    name. *)
Inductive voice_calls : list Tts.op -> Prop :=
| no_lookup : voice_calls []
| looked_up : voice_calls [Tts.EGetVoices]
| voice_set id : voice_calls [Tts.EGetVoices; Tts.ESetVoice id].

(** The engine calls of a worker that runs to the end, with the calls [vc]
    of its voice lookup. *)
Definition script (vc : list Tts.op) (t : str) : list Tts.op :=
  Tts.EInit :: vc ++ [Tts.ESay t; Tts.ERunAndWait; Tts.EStop].

(** The engine calls [l] that have returned to a worker with the text [t]
    when it is at [p]. *)
Definition calls_at (p : Tts.pc) (t : str) (l : list Tts.op) : Prop :=
  match p with
  | Tts.Start | Tts.InitEngine => l = []
  | Tts.SelectVoice => l = [Tts.EInit]
  | Tts.PickVoice => l = [Tts.EInit; Tts.EGetVoices]
  | Tts.Say => exists vc, voice_calls vc /\ l = Tts.EInit :: vc
  | Tts.RunAndWait =>
      exists vc, voice_calls vc /\ l = Tts.EInit :: vc ++ [Tts.ESay t]
  | Tts.StopEngine =>
      exists vc, voice_calls vc
                 /\ l = Tts.EInit :: vc ++ [Tts.ESay t; Tts.ERunAndWait]
  | Tts.Finished =>
      exists vc n, voice_calls vc /\ l = firstn n (script vc t)
  end.

Record tts_order (s : Tts.state) : Prop := mkOrder {
  ord_started : forall i, In i (map fst (Tts.engine s)) ->
                          (i < Tts.started s)%nat;
  ord_calls : forall i, calls_at (Tts.at_pc s i) (Tts.text_of s i)
                                 (calls_of i (Tts.engine s))
}.

(** The lock is held by a started worker. *)
Definition tts_held (s : Tts.state) : Prop :=
  Tts.locked s = true ->
  exists j, (j < Tts.started s)%nat /\ Tts.in_lock (Tts.at_pc s j) = true.

(** Worker [j] can take a step. *)
Definition can_move (s : Tts.state) (j : nat) : Prop :=
  exists s', Tts.step s s' /\ Tts.at_pc s' j <> Tts.at_pc s j.

(** The request [_send_chat] posts from [st]. *)
Definition chat_request (st : MainWindow) (host key : str) : request :=
  PostChat (host ++ lit "/chat") (lit "Bearer " ++ key)
           (strip (chat_input st)) (voice_id st).

(** The window after "You: ..." is logged and the request has gone out. *)
Definition asked (w : World) (st : MainWindow) (host key : str)
  : MainWindow :=
  with_request (chat_request st host key)
               (snd (_log w (lit "You: " ++ strip (chat_input st)) st)).

(** A Python string: every element is a code point. *)
Definition is_text (s : str) : Prop := Forall (fun c => c < 1114112) s.

(** No high surrogate is followed at once by a low surrogate. *)
Fixpoint pair_free (s : str) : bool :=
  match s with
  | hi :: ((lo :: _) as s') =>
      negb (Json.is_high hi && Json.is_low lo) && pair_free s'
  | _ => true
  end.

(** A settings record of three Python strings free of such pairs. *)
Definition pair_free_record (s : Settings.t str) : Prop :=
  (is_text (Settings.host s) /\ pair_free (Settings.host s) = true)
  /\ (is_text (Settings.api_key s) /\ pair_free (Settings.api_key s) = true)
  /\ (is_text (Settings.voice_name s)
      /\ pair_free (Settings.voice_name s) = true).

(** The text [s] does not start with the escape of a low surrogate: read
    after the escape of a high surrogate, it is not joined to it. *)
Definition no_low_next (s : str) : Prop :=
  forall hi b u y1 y2 y3 y4 s4,
    s = b :: u :: y1 :: y2 :: y3 :: y4 :: s4 ->
    Json.look_pair hi b u y1 y2 y3 y4 = Json.NoPair.

(** ** Sample inputs *)

Module Sample.

Definition clock (n : nat) : str := lit "[12:00:00]".

(** A world whose gateway answers every request with [reply]. *)
Definition world (tts : bool) (reply : result Response) : World :=
  mkWorld tts clock (fun _ => reply) (fun _ => Ok (true, [])) (fun s => s).

Definition ok_json (v : json) : Response :=
  mkResponse 200 (lit "OK") (lit "https://gw/chat") [] (inr v).

Definition unauthorized : Response :=
  mkResponse 401 (lit "Unauthorized") (lit "https://gw/vision")
             (lit "bad key") (inl (lit "Expecting value")).

(** A fresh window with host and key typed in and [typed] in the chat box. *)
Definition window (typed : str) (lines : list str) : MainWindow :=
  mkWindow (Settings.mk [] [] []) (lit "https://gw") (lit "k") typed []
           (lit "navigate") lines None [] [] [] 0.

(** A window with nothing typed in and nothing saved. *)
Definition blank_window : MainWindow :=
  mkWindow (Settings.mk [] [] []) [] [] (lit "hi") [] (lit "scene") []
           None [] [] [] 0.

(** The answers [{"text": "hello"}] and [{"text": ""}]. *)
Definition hello : Response := ok_json (JDict [(lit "text", JStr (lit "hello"))]).
Definition empty : Response := ok_json (JDict [(lit "text", JStr [])]).

(** A gateway that cannot be reached. *)
Definition unreachable : result Response :=
  Raise (ConnectionError (lit "Max retries exceeded")).

(** A log whose first entry is a vision answer of two lines. *)
Definition vision_log : list str :=
  [lit "[12:00:00] Vision:" ++ [10] ++ lit "Assistant: go left";
   lit "[12:00:05] You: hi"].

(** Two settings files, as [json.dumps(_, indent=2)] writes them: one with
    three strings, one whose [host] is the number 5. *)
Definition quoted (s : string) : str := [34] ++ lit s ++ [34].

Definition member (k : string) (v : str) : str :=
  lit "  " ++ quoted k ++ lit ": " ++ v.

Definition settings_text : str :=
  lit "{" ++ [10]
    ++ member "host" (quoted "https://gw") ++ lit "," ++ [10]
    ++ member "api_key" (quoted "k") ++ lit "," ++ [10]
    ++ member "voice_name" (quoted "") ++ [10]
    ++ lit "}".

Definition settings_value : Settings.t str :=
  Settings.mk (lit "https://gw") (lit "k") [].

Definition odd_text : str :=
  lit "{" ++ [10]
    ++ member "host" (lit "5") ++ lit "," ++ [10]
    ++ member "api_key" (quoted "k") ++ lit "," ++ [10]
    ++ member "voice_name" (quoted "") ++ [10]
    ++ lit "}".

Definition odd_value : Settings.t json :=
  Settings.mk (JInt 5) (JStr (lit "k")) (JStr []).

(** Two utterances requested one after the other; the worker of the first
    has taken the lock and made its first engine call. *)
Definition two_workers : Tts.state :=
  Tts.call 0 Tts.EInit
    (Tts.goto 0 Tts.SelectVoice true
       (Tts.goto 0 Tts.InitEngine true
          (Tts.spawn (lit "go left") (Tts.spawn (lit "hello") Tts.init)))).

End Sample.

(** Further sample inputs. *)
Module Scene.

(** The line [__init__] logs, as it stands in the log pane. *)
Definition ready_line : str :=
  lit "[12:00:00] [Ready] Set Host + API key, then Save/Test.".

(** A window with host and key typed in and "hi" in the chat box, and a
    world with pyttsx3 whose gateway answers [r]. *)
Definition typing : MainWindow := Sample.window (lit "hi") [].

Definition answering (r : Response) : World := Sample.world true (Ok r).

Definition padded_hello : Response :=
  Sample.ok_json (JDict [(lit "text", JStr (lit "  hello "))]).

Definition chat_refused : Response :=
  mkResponse 401 (lit "Unauthorized") (lit "https://gw/chat")
             (lit "bad key") (inl (lit "Expecting value")).

Definition null_reply : Response := Sample.ok_json JNull.

Definition list_reply : Response := Sample.ok_json (JList [JInt 1]).

Definition vision_seen : Response :=
  mkResponse 200 (lit "OK") (lit "https://gw/vision") []
             (inr (JDict [(lit "text", JStr (lit " a door "))])).

(** A world whose JPEG encoder reports failure. *)
Definition blind : World :=
  mkWorld true Sample.clock (fun _ => Sample.unreachable)
          (fun _ => Ok (false, [])) (fun s => s).

(** The window of [typing] with a frame at hand. *)
Definition seeing : MainWindow := with_last_frame (Some []) typing.

(** A window with a host saved but the host field wiped. *)
Definition wiped : MainWindow :=
  mkWindow (Settings.mk (lit "https://gw") (lit "k") []) (lit "  ") (lit "k")
           [] [] (lit "scene") [] None [] [] [] 0.

Definition ears (h : hearing) : Ears := mkEars true h.

(** The interpreter's side of the JSON codec; no float occurs in the
    samples. *)
Definition json_env : Json.Env :=
  Json.mkEnv (fun _ => FNan) (fun _ => lit "nan") 4300.

(** A record whose host is a high surrogate followed by a low one. *)
Definition paired : Settings.t str := Settings.mk [55357; 56832] (lit "k") [].

Definition eyes : Eyes :=
  mkEyes true Opened (Ok tt) (Ok (false, None)) (fun f => Ok f).

Definition camera_on : Camera :=
  mkCamera true true (lit "Stop Camera") (PreviewPixmap []).

(** A settings file with the host only. *)
Definition host_only_text : str :=
  lit "{" ++ Sample.quoted "host" ++ lit ": " ++ Sample.quoted "x" ++ lit "}".

End Scene.

(** * Properties *)

(** ** Strings *)

Lemma truthy_true (s : str) : truthy s = true <-> s <> [].
Proof. destruct s; simpl; split; congruence. Qed.

Lemma truthy_false (s : str) : truthy s = false <-> s = [].
Proof. destruct s; simpl; split; congruence. Qed.

Lemma str_eqb_eq (a b : str) : str_eqb a b = true <-> a = b.
Proof.
  unfold str_eqb. destruct (list_eq_dec N.eq_dec a b); split; congruence.
Qed.

Lemma startswith_app (p r : str) : startswith (p ++ r) p = true.
Proof.
  induction p as [|a p IH]; simpl; [reflexivity|].
  now rewrite N.eqb_refl, IH.
Qed.

Lemma startswith_inv (p s : str) :
  startswith s p = true -> exists r, s = p ++ r.
Proof.
  revert s. induction p as [|a p IH]; intros s H.
  - now exists s.
  - destruct s as [|b s]; simpl in H; [discriminate|].
    apply andb_true_iff in H. destruct H as [Hab Hp].
    apply N.eqb_eq in Hab. subst b.
    destruct (IH _ Hp) as [r ->]. now exists r.
Qed.

Lemma split1_snd_app (sep : N) (p r : str) :
  ~ In sep p -> split1_snd sep (p ++ sep :: r) = Some r.
Proof.
  induction p as [|c p IH]; simpl; intros Hp.
  - now rewrite N.eqb_refl.
  - destruct (N.eqb_spec c sep) as [->|_]; [tauto|]. apply IH. tauto.
Qed.

Lemma occurs_in_mid (pre x post : str) : occurs_in x (pre ++ x ++ post).
Proof. now exists pre, post. Qed.

Example strip_sample : strip (lit "  Vision: a b  ") = lit "Vision: a b".
Proof. reflexivity. Qed.

Example splitlines_sample :
  splitlines (lit "a" ++ [10; 10] ++ lit "b" ++ [13; 10] ++ lit "c" ++ [10])
  = [lit "a"; []; lit "b"; lit "c"].
Proof. reflexivity. Qed.

Example str_of_int_sample : str_of_int 401 = lit "401".
Proof. reflexivity. Qed.

(** ** Speak last *)

(** C8. With no last utterance and no line in the log, [_speak_last_text]
    logs "Nothing to speak yet." (stamped with the time by [_log], as every
    log line is) and starts no speech. *)
Theorem speak_last_nothing (w : World) (st : MainWindow) :
  _last_spoken_text st = [] ->
  splitlines (toPlainText st) = [] ->
  exists st',
    _speak_last_text w st = (Ok tt, st')
    /\ log st' = log st ++ [strftime w (clock_reads st)
                              ++ lit " " ++ lit "Nothing to speak yet."]
    /\ tts_started st' = tts_started st
    /\ http_sent st' = http_sent st.
Proof.
  intros Hlast Hlines.
  eexists. unfold _speak_last_text, bind, gets.
  rewrite Hlast. cbn [truthy]. cbv beta iota. rewrite Hlines.
  simpl. repeat split; reflexivity.
Qed.

Lemma speak_last_nothing_witness :
  exists st',
    _speak_last_text (Sample.world true Sample.unreachable)
                     Sample.blank_window = (Ok tt, st')
    /\ log st' = [lit "[12:00:00] Nothing to speak yet."]
    /\ tts_started st' = []
    /\ http_sent st' = [].
Proof.
  apply (speak_last_nothing (Sample.world true Sample.unreachable)
                            Sample.blank_window); reflexivity.
Defined.

Section SpeakLast.

Variable w : World.

Lemma prefix_content (s rest : str) :
  s = lit "Assistant:" ++ rest \/ s = lit "Vision:" ++ rest ->
  startswith s (lit "Assistant:") || startswith s (lit "Vision:") = true
  /\ split1_snd 58 s = Some rest.
Proof.
  intros [-> | ->].
  - split.
    + now rewrite startswith_app.
    + change (lit "Assistant:" ++ rest) with (lit "Assistant" ++ 58 :: rest).
      apply split1_snd_app. simpl. intuition discriminate.
  - split.
    + rewrite (startswith_app (lit "Vision:") rest). apply orb_true_r.
    + change (lit "Vision:" ++ rest) with (lit "Vision" ++ 58 :: rest).
      apply split1_snd_app. simpl. intuition discriminate.
Qed.

Lemma scan_prefixed_hit (line content : str) (rest : list str) st :
  carries line content ->
  scan_prefixed w (line :: rest) st
  = (_speak_async w content ;;; ret true) st.
Proof.
  intros (r & Hs & -> & Hne).
  destruct (prefix_content _ _ Hs) as [Hp Hsplit].
  cbn [scan_prefixed]. cbv zeta. rewrite Hp, Hsplit.
  apply truthy_true in Hne. now rewrite Hne.
Qed.

Lemma scan_prefixed_skip (line : str) (rest : list str) st :
  (forall c, ~ carries line c) ->
  scan_prefixed w (line :: rest) st = scan_prefixed w rest st.
Proof.
  intros Hno. cbn [scan_prefixed]. cbv zeta.
  destruct (startswith (strip line) (lit "Assistant:")
            || startswith (strip line) (lit "Vision:")) eqn:Hp;
    [|reflexivity].
  assert (exists r, strip line = lit "Assistant:" ++ r
                    \/ strip line = lit "Vision:" ++ r) as [r Hs].
  { apply orb_true_iff in Hp. destruct Hp as [Hp | Hp];
      apply startswith_inv in Hp; destruct Hp as [r Hr]; exists r; tauto. }
  destruct (prefix_content _ _ Hs) as [_ Hsplit]. rewrite Hsplit.
  destruct (truthy (strip r)) eqn:Ht; [|reflexivity].
  exfalso. apply (Hno (strip r)). exists r.
  repeat split; [exact Hs | now apply truthy_true].
Qed.

Lemma scan_prefixed_last (before after : list str) (line content : str) st :
  carries line content ->
  (forall l c, In l after -> ~ carries l c) ->
  scan_prefixed w (rev (before ++ line :: after)) st
  = (_speak_async w content ;;; ret true) st.
Proof.
  intros Hline Hafter.
  rewrite rev_app_distr. cbn [rev]. rewrite <- app_assoc. cbn [app].
  assert (Hrev : forall l c, In l (rev after) -> ~ carries l c)
    by (intros l c Hin; apply Hafter; now apply in_rev).
  clear Hafter. induction (rev after) as [|l ls IH]; cbn [app].
  - now apply scan_prefixed_hit.
  - rewrite scan_prefixed_skip.
    + apply IH. intros l' c Hin. apply Hrev. now right.
    + intros c. apply Hrev. now left.
Qed.

(** C1, as amended. When pyttsx3 is available, no utterance has been made
    yet, and some line of the log carries an utterance, [_speak_last_text]
    takes the last such line and starts speech with its content (which also
    becomes the last spoken text); nothing is logged. *)
Theorem speak_last_from_log
        (st : MainWindow) (before after : list str) (line content : str) :
  pyttsx3_present w = true ->
  _last_spoken_text st = [] ->
  splitlines (toPlainText st) = before ++ line :: after ->
  carries line content ->
  (forall l c, In l after -> ~ carries l c) ->
  exists st',
    _speak_last_text w st = (Ok tt, st')
    /\ tts_started st' = tts_started st ++ [content]
    /\ _last_spoken_text st' = content
    /\ log st' = log st.
Proof.
  intros Htts Hlast Hlines Hline Hafter.
  exists (with_speech content st).
  unfold _speak_last_text, bind at 1, gets at 1.
  rewrite Hlast. cbn [truthy]. cbv beta iota.
  unfold bind at 1, gets at 1. rewrite Hlines.
  unfold bind at 1. rewrite (scan_prefixed_last before after line content st Hline Hafter).
  destruct Hline as (r & _ & _ & Hne). apply truthy_true in Hne.
  unfold bind, _speak_async, modify, ret. rewrite Hne, Htts. cbn.
  repeat split; reflexivity.
Qed.

End SpeakLast.

Lemma carries_go_left : carries (lit "Assistant: go left") (lit "go left").
Proof.
  exists (lit " go left"). repeat split; [now left | discriminate].
Qed.

Lemma you_line_carries_nothing (c : str) :
  ~ carries (lit "[12:00:05] You: hi") c.
Proof. intros (r & [H | H] & _); discriminate H. Qed.

Lemma speak_last_from_log_witness :
  exists st',
    _speak_last_text (Sample.world true Sample.unreachable)
                     (Sample.window [] Sample.vision_log) = (Ok tt, st')
    /\ tts_started st' = [] ++ [lit "go left"]
    /\ _last_spoken_text st' = lit "go left"
    /\ log st' = Sample.vision_log.
Proof.
  apply (speak_last_from_log
           (Sample.world true Sample.unreachable)
           (Sample.window [] Sample.vision_log)
           [lit "[12:00:00] Vision:"] [lit "[12:00:05] You: hi"]
           (lit "Assistant: go left") (lit "go left")).
  - reflexivity.
  - reflexivity.
  - reflexivity.
  - exact carries_go_left.
  - intros l c [<- | []]. apply you_line_carries_nothing.
Defined.

(** C1 as it was stated, without the condition on pyttsx3, fails: where the
    import of pyttsx3 failed, [_speak_async] returns at once and
    [_speak_last_text] changes nothing. *)
Lemma speak_last_without_pyttsx3 :
  ~ (forall (w : World) (st : MainWindow) (before after : list str)
            (line content : str),
        _last_spoken_text st = [] ->
        splitlines (toPlainText st) = before ++ line :: after ->
        carries line content ->
        (forall l c, In l after -> ~ carries l c) ->
        exists st',
          _speak_last_text w st = (Ok tt, st')
          /\ tts_started st' = tts_started st ++ [content]).
Proof.
  intros H.
  destruct (H (Sample.world false Sample.unreachable)
              (Sample.window [] Sample.vision_log)
              [lit "[12:00:00] Vision:"] [lit "[12:00:05] You: hi"]
              (lit "Assistant: go left") (lit "go left")
              eq_refl eq_refl carries_go_left)
    as (st' & Hrun & Hspoken).
  - intros l c [<- | []]. apply you_line_carries_nothing.
  - vm_compute in Hrun. injection Hrun as <-. discriminate Hspoken.
Qed.

(** ** Chat *)

Lemma dict_get_default (d : list (str * json)) (k : str) (v a b : json) :
  dict_get d k a = v -> v <> a -> dict_get d k b = v.
Proof.
  induction d as [|[k' v'] d IH]; simpl; intros H Hne.
  - congruence.
  - destruct (str_eqb k' k); auto.
Qed.

Lemma reply_text_field (d : list (str * json)) (s : str) :
  dict_get d (lit "text") JNull = JStr s ->
  reply_text (JDict d) = Ok (strip s).
Proof.
  intros H. unfold reply_text.
  assert (Hd : json_truthy (JDict d) = true)
    by (destruct d; [discriminate H | reflexivity]).
  rewrite Hd, (dict_get_default d _ _ JNull (JStr []) H); [reflexivity | discriminate].
Qed.

Section Chat.

Variable w : World.

Lemma speak_async_returns (text : str) (st : MainWindow) :
  fst (_speak_async w text st) = Ok tt.
Proof.
  unfold _speak_async.
  now destruct (negb (truthy text) || negb (pyttsx3_present w)).
Qed.

Lemma post_chat_ok (st : MainWindow) (host key text : str) (r : Response)
      (v : json) :
  requests_send w (PostChat (host ++ lit "/chat") (lit "Bearer " ++ key)
                            text (voice_id st)) = Ok r ->
  raise_for_status r = Ok tt ->
  decoded r = inr v ->
  _post_chat w host key text st
  = (Ok v, with_request (PostChat (host ++ lit "/chat") (lit "Bearer " ++ key)
                                  text (voice_id st)) st).
Proof.
  intros Hsend Hstatus Hjson.
  unfold _post_chat, send. unfold bind, gets, modify, lift, response_json.
  cbv beta iota. rewrite Hsend. cbv beta iota. rewrite Hstatus.
  cbv beta iota. now rewrite Hjson.
Qed.

(** What [_send_chat] does once the gateway has answered with a JSON object
    whose "text" is the string [s]. *)
Lemma send_chat_answered (st : MainWindow) (host key : str) (r : Response)
      (d : list (str * json)) (s : str) :
  _hk st = (Ok (host, key), st) ->
  strip (chat_input st) <> [] ->
  requests_send w (PostChat (host ++ lit "/chat") (lit "Bearer " ++ key)
                            (strip (chat_input st)) (voice_id st)) = Ok r ->
  raise_for_status r = Ok tt ->
  decoded r = inr (JDict d) ->
  dict_get d (lit "text") JNull = JStr s ->
  _send_chat w st
  = ((if truthy (strip s)
      then _log w (lit "Assistant: " ++ strip s) ;;; _speak_async w (strip s)
      else _log w (lit "Assistant: (empty)"))
       (with_request
          (PostChat (host ++ lit "/chat") (lit "Bearer " ++ key)
                    (strip (chat_input st)) (voice_id st))
          (snd (_log w (lit "You: " ++ strip (chat_input st)) st)))).
Proof.
  intros Hhk Htext Hsend Hstatus Hjson Hfield.
  apply truthy_true in Htext.
  unfold _send_chat, bind at 1, attempt. rewrite Hhk.
  unfold bind at 1, gets at 1. cbv beta iota. rewrite Htext. cbn [negb].
  unfold bind at 1. unfold _log at 1. cbv beta iota zeta.
  unfold try_except, bind at 1.
  rewrite (post_chat_ok (with_log _ _ st) _ _ _ _ _ Hsend Hstatus Hjson).
  unfold bind at 1, lift at 1. rewrite (reply_text_field _ _ Hfield).
  cbn [snd _log].
  destruct (truthy (strip s)).
  - unfold bind, _log, _speak_async.
    now destruct (negb (truthy (strip s)) || negb (pyttsx3_present w)).
  - reflexivity.
Qed.

(** C2, as amended. When pyttsx3 is available, a chat send with host and
    key, a non-blank input and an answer whose "text" is "hello" logs the
    line "Assistant: hello" (after the "You: ..." line, each stamped with the
    time) and starts exactly one speech worker, with the text "hello". *)
Theorem chat_hello (st : MainWindow) (host key : str) (r : Response)
        (d : list (str * json)) :
  pyttsx3_present w = true ->
  _hk st = (Ok (host, key), st) ->
  strip (chat_input st) <> [] ->
  requests_send w (PostChat (host ++ lit "/chat") (lit "Bearer " ++ key)
                            (strip (chat_input st)) (voice_id st)) = Ok r ->
  raise_for_status r = Ok tt ->
  decoded r = inr (JDict d) ->
  dict_get d (lit "text") JNull = JStr (lit "hello") ->
  exists st',
    _send_chat w st = (Ok tt, st')
    /\ log st'
       = log st
           ++ [strftime w (clock_reads st)
                 ++ lit " " ++ lit "You: " ++ strip (chat_input st);
               strftime w (S (clock_reads st))
                 ++ lit " " ++ lit "Assistant: hello"]
    /\ tts_started st' = tts_started st ++ [lit "hello"]
    /\ _last_spoken_text st' = lit "hello".
Proof.
  intros Htts Hhk Htext Hsend Hstatus Hjson Hfield.
  eexists. split.
  - rewrite (send_chat_answered st host key r d _ Hhk Htext Hsend Hstatus Hjson Hfield).
    change (strip (lit "hello")) with (lit "hello"). cbn [truthy lit].
    unfold bind, _log, _speak_async. rewrite Htts. reflexivity.
  - cbn. rewrite <- app_assoc. repeat split; reflexivity.
Qed.

(** C3. A chat send that is answered with the "text" field empty logs
    "Assistant: (empty)" (after the "You: ..." line, each stamped with the
    time) and starts no speech. *)
Theorem chat_empty (st : MainWindow) (host key : str) (r : Response)
        (d : list (str * json)) :
  _hk st = (Ok (host, key), st) ->
  strip (chat_input st) <> [] ->
  requests_send w (PostChat (host ++ lit "/chat") (lit "Bearer " ++ key)
                            (strip (chat_input st)) (voice_id st)) = Ok r ->
  raise_for_status r = Ok tt ->
  decoded r = inr (JDict d) ->
  dict_get d (lit "text") JNull = JStr [] ->
  exists st',
    _send_chat w st = (Ok tt, st')
    /\ log st'
       = log st
           ++ [strftime w (clock_reads st)
                 ++ lit " " ++ lit "You: " ++ strip (chat_input st);
               strftime w (S (clock_reads st))
                 ++ lit " " ++ lit "Assistant: (empty)"]
    /\ tts_started st' = tts_started st
    /\ _last_spoken_text st' = _last_spoken_text st.
Proof.
  intros Hhk Htext Hsend Hstatus Hjson Hfield.
  eexists. split.
  - rewrite (send_chat_answered st host key r d _ Hhk Htext Hsend Hstatus Hjson Hfield).
    reflexivity.
  - cbn. rewrite <- app_assoc. repeat split; reflexivity.
Qed.

End Chat.

Lemma chat_hello_witness :
  exists st',
    _send_chat (Sample.world true (Ok Sample.hello)) (Sample.window (lit "hi") [])
    = (Ok tt, st')
    /\ log st' = [] ++ [lit "[12:00:00] You: hi"; lit "[12:00:00] Assistant: hello"]
    /\ tts_started st' = [] ++ [lit "hello"]
    /\ _last_spoken_text st' = lit "hello".
Proof.
  apply (chat_hello (Sample.world true (Ok Sample.hello))
                    (Sample.window (lit "hi") [])
                    (lit "https://gw") (lit "k") Sample.hello
                    [(lit "text", JStr (lit "hello"))]);
    try reflexivity.
  discriminate.
Defined.

(** C2 as it was stated, without the condition on pyttsx3, fails: where the
    import of pyttsx3 failed, the line is logged and no speech is started. *)
Lemma chat_hello_without_pyttsx3 :
  ~ (forall (w : World) (st : MainWindow) (host key : str) (r : Response)
            (d : list (str * json)),
        _hk st = (Ok (host, key), st) ->
        strip (chat_input st) <> [] ->
        requests_send w (PostChat (host ++ lit "/chat") (lit "Bearer " ++ key)
                                  (strip (chat_input st)) (voice_id st))
        = Ok r ->
        raise_for_status r = Ok tt ->
        decoded r = inr (JDict d) ->
        dict_get d (lit "text") JNull = JStr (lit "hello") ->
        exists st',
          _send_chat w st = (Ok tt, st')
          /\ tts_started st' = tts_started st ++ [lit "hello"]).
Proof.
  intros H.
  destruct (H (Sample.world false (Ok Sample.hello))
              (Sample.window (lit "hi") [])
              (lit "https://gw") (lit "k") Sample.hello
              [(lit "text", JStr (lit "hello"))])
    as (st' & Hrun & Hspoken); try reflexivity; try discriminate.
  vm_compute in Hrun. injection Hrun as <-. discriminate Hspoken.
Qed.

Lemma chat_empty_witness :
  exists st',
    _send_chat (Sample.world true (Ok Sample.empty)) (Sample.window (lit "hi") [])
    = (Ok tt, st')
    /\ log st' = [] ++ [lit "[12:00:00] You: hi";
                        lit "[12:00:00] Assistant: (empty)"]
    /\ tts_started st' = []
    /\ _last_spoken_text st' = [].
Proof.
  apply (chat_empty (Sample.world true (Ok Sample.empty))
                    (Sample.window (lit "hi") [])
                    (lit "https://gw") (lit "k") Sample.empty
                    [(lit "text", JStr [])]);
    try reflexivity.
  discriminate.
Defined.

(** ** Host and key *)

Lemma resolve_or_else (edit saved : str) :
  or_else (strip edit) (strip saved) = resolve edit saved.
Proof. unfold or_else, resolve. now destruct (strip edit). Qed.

Lemma log_only_logs (w : World) (st : MainWindow) (msg : str) :
  only_logs w st msg (_log w msg st).
Proof. repeat split. Qed.

(** C10. [_hk] resolves host and key from the edit fields, falling back to
    the saved settings; it returns the pair when both are non-empty and
    raises otherwise, and then each of the three actions that call it only
    appends its own error line: no HTTP request is sent. *)
Theorem hk_contract (w : World) (st : MainWindow) :
  let host := resolve (host_edit st) (Settings.host (settings st)) in
  let key := resolve (key_edit st) (Settings.api_key (settings st)) in
  (host <> [] /\ key <> [] -> _hk st = (Ok (host, key), st))
  /\ (host = [] \/ key = [] ->
      _hk st = (Raise (RuntimeError (lit "Host or API key missing.")), st)
      /\ only_logs w st (lit "Health check error: Host or API key missing.")
                   (_test_health w st)
      /\ only_logs w st (lit "Chat error: Host or API key missing.")
                   (_send_chat w st)
      /\ forall (f : frame) (mode target prompt : str),
          only_logs w st (lit "Vision error: Host or API key missing.")
                    (_vision_with_frame w f mode target prompt st)).
Proof.
  intros host key. split.
  - intros [Hh Hk]. apply truthy_true in Hh, Hk.
    unfold _hk. rewrite !resolve_or_else.
    fold host key. now rewrite Hh, Hk.
  - intros Hmissing.
    assert (Hraise : _hk st
                     = (Raise (RuntimeError (lit "Host or API key missing.")),
                        st)).
    { unfold _hk. rewrite !resolve_or_else. fold host key.
      destruct Hmissing as [-> | ->]; [reflexivity|].
      now rewrite orb_true_r. }
    split; [exact Hraise|].
    repeat split; intros;
      unfold _test_health, _send_chat, _vision_with_frame, bind, attempt;
      rewrite Hraise; reflexivity.
Qed.

Lemma hk_contract_witness :
  only_logs (Sample.world true Sample.unreachable) Sample.blank_window
            (lit "Chat error: Host or API key missing.")
            (_send_chat (Sample.world true Sample.unreachable)
                        Sample.blank_window)
  /\ _hk (Sample.window [] [] ) = (Ok (lit "https://gw", lit "k"),
                                   Sample.window [] []).
Proof.
  split.
  - apply (proj2 (hk_contract (Sample.world true Sample.unreachable)
                              Sample.blank_window)).
    left. reflexivity.
  - apply (proj1 (hk_contract (Sample.world true Sample.unreachable)
                              (Sample.window [] []))).
    split; discriminate.
Defined.

(** ** Vision *)

Section Vision.

Variable w : World.

Lemma log_keeps_requests (msg : str) (st : MainWindow) :
  http_sent (snd (_log w msg st)) = http_sent st.
Proof. reflexivity. Qed.

Lemma speak_keeps_requests (t : str) (st : MainWindow) :
  http_sent (snd (_speak_async w t st)) = http_sent st.
Proof.
  unfold _speak_async.
  now destruct (negb (truthy t) || negb (pyttsx3_present w)).
Qed.

(** With host and key resolved and the frame encoded, [_vision_with_frame]
    sends exactly one request, whatever the gateway then answers. *)
Lemma vision_sends_once (st : MainWindow) (f : frame)
      (mode target prompt host key : str) (jpeg : list Byte.byte) :
  _hk st = (Ok (host, key), st) ->
  encode_jpeg w f = Ok jpeg ->
  http_sent (snd (_vision_with_frame w f mode target prompt st))
  = http_sent st ++ [vision_request w st host key jpeg mode target prompt].
Proof.
  intros Hhk Hjpeg.
  unfold _vision_with_frame, bind at 1, attempt. rewrite Hhk.
  unfold try_except, bind at 1, _post_vision, send.
  unfold bind at 1, lift at 1. rewrite Hjpeg.
  unfold bind, gets, modify, lift. cbv beta iota.
  fold (vision_request w st host key jpeg mode target prompt).
  destruct (requests_send w _) as [r | e].
  - destruct (raise_for_status r) as [[] | e].
    + destruct (response_json r) as [v | e].
      * destruct (reply_text v) as [t | e].
        -- destruct (truthy t).
           ++ unfold _log, _speak_async.
              now destruct (negb (truthy t) || negb (pyttsx3_present w)).
           ++ reflexivity.
        -- now destruct e.
      * now destruct e.
    + now destruct e.
  - now destruct e.
Qed.

Lemma vision_last_prompt (st : MainWindow) (f : frame)
      (mode target host key : str) (jpeg : list Byte.byte) :
  _hk st = (Ok (host, key), st) ->
  encode_jpeg w f = Ok jpeg ->
  last_prompt (snd (_vision_with_frame w f mode target [] st))
  = Some (or_else (user_prompt w mode target []) []).
Proof.
  intros Hhk Hjpeg. unfold last_prompt.
  rewrite (vision_sends_once st f mode target [] host key jpeg Hhk Hjpeg).
  now rewrite rev_app_distr.
Qed.

(** C6. With no explicit prompt, the prompt sent to /vision is the default of
    the mode: for "navigate" with target "the door" it is the navigation
    question, which names "the door"; each of the four modes has its own
    default, and the one of "navigate" names the target (or "the target"
    when there is none). *)
Theorem vision_default_prompt (st : MainWindow) (f : frame)
        (host key : str) (jpeg : list Byte.byte) :
  _hk st = (Ok (host, key), st) ->
  encode_jpeg w f = Ok jpeg ->
  last_prompt (snd (_vision_with_frame w f (lit "navigate") (lit "the door")
                                       [] st))
  = Some (lit "How to navigate toward the door in the scene?")
  /\ occurs_in (lit "the door")
               (lit "How to navigate toward the door in the scene?")
  /\ forall target : str,
      last_prompt (snd (_vision_with_frame w f (lit "scene") target [] st))
      = Some (lit "Describe the scene briefly for navigation.")
      /\ last_prompt (snd (_vision_with_frame w f (lit "emotion") target [] st))
         = Some (lit "Describe the likely facial expression and overall emotion.")
      /\ last_prompt (snd (_vision_with_frame w f (lit "navigate") target [] st))
         = Some (lit "How to navigate toward "
                   ++ match target with [] => lit "the target" | _ => target end
                   ++ lit " in the scene?")
      /\ last_prompt (snd (_vision_with_frame w f (lit "objects") target [] st))
         = Some (lit "List the main objects present with short positions.").
Proof.
  intros Hhk Hjpeg. split; [|split].
  - now rewrite (vision_last_prompt st f _ _ host key jpeg Hhk Hjpeg).
  - exists (lit "How to navigate toward "), (lit " in the scene?").
    reflexivity.
  - intros target.
    rewrite !(vision_last_prompt st f _ _ host key jpeg Hhk Hjpeg).
    repeat split. now destruct target.
Qed.

Lemma raise_for_status_error (r : Response) :
  (400 <= status_code r < 600)%Z ->
  exists kind,
    raise_for_status r
    = Raise (HTTPError (str_of_int (status_code r) ++ kind ++ reason r
                          ++ lit " for url: " ++ url r) (Some r)).
Proof.
  intros Hrange. unfold raise_for_status.
  destruct ((400 <=? status_code r) && (status_code r <? 500))%Z eqn:H4.
  - now exists (lit " Client Error: ").
  - destruct ((500 <=? status_code r) && (status_code r <? 600))%Z eqn:H5.
    + now exists (lit " Server Error: ").
    + apply andb_false_iff in H4, H5. lia.
Qed.

(** C7. When /vision answers with an error status (400 to 599),
    [_vision_with_frame] returns normally, having appended exactly one log
    entry, "Vision error: ... | Body: ...", which shows the status code and
    the response body; no speech is started. *)
Theorem vision_http_error (st : MainWindow) (f : frame)
        (mode target prompt host key : str) (jpeg : list Byte.byte)
        (r : Response) :
  _hk st = (Ok (host, key), st) ->
  encode_jpeg w f = Ok jpeg ->
  requests_send w (vision_request w st host key jpeg mode target prompt)
  = Ok r ->
  (400 <= status_code r < 600)%Z ->
  exists (st' : MainWindow) (detail : str),
    _vision_with_frame w f mode target prompt st = (Ok tt, st')
    /\ log st' = log st ++ [strftime w (clock_reads st) ++ lit " "
                              ++ lit "Vision error: " ++ detail
                              ++ lit " | Body: " ++ text r]
    /\ occurs_in (str_of_int (status_code r)) detail
    /\ tts_started st' = tts_started st
    /\ _last_spoken_text st' = _last_spoken_text st.
Proof.
  intros Hhk Hjpeg Hsend Hstatus.
  destruct (raise_for_status_error r Hstatus) as [kind Hraise].
  eexists. eexists. split.
  - unfold _vision_with_frame, bind at 1, attempt. rewrite Hhk.
    unfold try_except, bind at 1, _post_vision, send.
    unfold bind at 1, lift at 1. rewrite Hjpeg.
    unfold bind, gets, modify, lift. cbv beta iota.
    fold (vision_request w st host key jpeg mode target prompt).
    rewrite Hsend. cbv beta iota. rewrite Hraise. reflexivity.
  - cbn. repeat split.
    exists [], (kind ++ reason r ++ lit " for url: " ++ url r). reflexivity.
Qed.

End Vision.

(** ** Settings *)

Section SettingsFile.

Variable codec : Settings.JsonCodec.

Lemma is_field_In (k : str) :
  Settings.is_field k = true <-> In k Settings.field_names.
Proof.
  unfold Settings.is_field. rewrite existsb_exists. split.
  - intros (x & Hin & Heq). apply str_eqb_eq in Heq. now subst.
  - intros Hin. exists k. split; [exact Hin | now apply str_eqb_eq].
Qed.

Lemma construct_ok (v : json) (s : Settings.t json) :
  Settings.construct v = Ok s ->
  exists d, v = JDict d
            /\ Forall (fun kv => In (fst kv) Settings.field_names) d.
Proof.
  destruct v; try discriminate. simpl.
  destruct (forallb _ items) eqn:Hall; [|discriminate].
  intros _. exists items. split; [reflexivity|].
  rewrite forallb_forall in Hall. apply Forall_forall.
  intros kv Hin. apply is_field_In. now apply Hall.
Qed.

(** C4, as amended. Where the existence of the file can be tested,
    [Settings.load] does not raise, and it returns the defaults (three empty
    strings) whenever the file is absent or does not parse as a JSON object
    whose keys all name fields of the record. *)
Theorem load_defaults (f : Settings.settings_file) :
  (forall e, f <> Settings.Inaccessible e) ->
  (exists s, Settings.load codec f = Ok s)
  /\ (~ parses_as_fields codec f ->
      Settings.load codec f = Ok (Settings.mk (JStr []) (JStr []) (JStr []))).
Proof.
  intros Haccess. unfold Settings.load, Settings.load_file. split.
  - destruct f as [|e|c|e]; cbn [Settings.exists_ Settings.read_text];
      [eauto | eauto | | now destruct (Haccess e)].
    destruct (Settings.loads codec c) as [v|e]; [|eauto].
    destruct (Settings.construct v); eauto.
  - intros Hno. destruct f as [|e|c|e]; try reflexivity;
      [|now destruct (Haccess e)].
    cbn [Settings.exists_ Settings.read_text].
    destruct (Settings.loads codec c) as [v|e] eqn:Hloads; [|reflexivity].
    destruct (Settings.construct v) as [s|e] eqn:Hcons; [|reflexivity].
    exfalso. apply Hno.
    destruct (construct_ok v s Hcons) as (d & -> & Hkeys).
    now exists c, d.
Qed.

(** The test [SETTINGS_FILE.exists()] is outside the [try]: what it raises,
    [Settings.load] raises. *)
Lemma load_raises_with_exists (e : exn) :
  Settings.load codec (Settings.Inaccessible e) = Raise e.
Proof. reflexivity. Qed.

End SettingsFile.

Lemma load_defaults_witness :
  Settings.load (Json.python Scene.json_env) Settings.Missing
  = Ok Settings.defaults
  /\ Settings.load (Json.python Scene.json_env) (Settings.Content (lit "{"))
     = Ok Settings.defaults.
Proof.
  split.
  - apply (proj2 (load_defaults (Json.python Scene.json_env)
                                Settings.Missing ltac:(discriminate))).
    intros (c & d & Hf & _). discriminate Hf.
  - apply (proj2 (load_defaults (Json.python Scene.json_env)
                                (Settings.Content (lit "{"))
                                ltac:(discriminate))).
    intros (c & d & Hf & Hloads & _).
    injection Hf as <-. discriminate Hloads.
Defined.

(** C4 as it was stated fails: a file whose [host] is a number does not
    match the record, yet it is loaded as it is, not replaced by the
    defaults. *)
Lemma load_keeps_mistyped_file :
  ~ (forall (codec : Settings.JsonCodec) (f : Settings.settings_file),
        ~ parses_as_record codec f ->
        Settings.load codec f = Ok Settings.defaults).
Proof.
  intros H.
  specialize (H (Json.python Scene.json_env)
                (Settings.Content Sample.odd_text)).
  assert (Hload : Settings.load (Json.python Scene.json_env)
                                (Settings.Content Sample.odd_text)
                  = Ok Sample.odd_value) by reflexivity.
  rewrite Hload in H.
  assert (Hne : Ok Sample.odd_value <> Ok Settings.defaults)
    by discriminate.
  apply Hne, H.
  intros (c & v & Hf & Hloads & d & h & k & n & -> & Hhost & _).
  injection Hf as <-. vm_compute in Hloads.
  injection Hloads as <-. discriminate Hhost.
Qed.


Lemma vision_default_prompt_witness :
  last_prompt
    (snd (_vision_with_frame (Sample.world true Sample.unreachable) []
                             (lit "navigate") (lit "the door") []
                             (Sample.window [] [])))
  = Some (lit "How to navigate toward the door in the scene?").
Proof.
  refine (proj1 (vision_default_prompt
                   (Sample.world true Sample.unreachable)
                   (Sample.window [] []) []
                   (lit "https://gw") (lit "k") [] _ _));
    reflexivity.
Defined.

Lemma vision_http_error_witness :
  exists (st' : MainWindow) (detail : str),
    _vision_with_frame (Sample.world true (Ok Sample.unauthorized)) []
                       (lit "navigate") (lit "the door") []
                       (Sample.window [] [])
    = (Ok tt, st')
    /\ log st'
       = log (Sample.window [] [])
           ++ [strftime (Sample.world true (Ok Sample.unauthorized))
                        (clock_reads (Sample.window [] []))
                 ++ lit " " ++ lit "Vision error: " ++ detail
                 ++ lit " | Body: " ++ text Sample.unauthorized]
    /\ occurs_in (str_of_int (status_code Sample.unauthorized)) detail
    /\ tts_started st' = tts_started (Sample.window [] [])
    /\ _last_spoken_text st' = _last_spoken_text (Sample.window [] []).
Proof.
  refine (vision_http_error (Sample.world true (Ok Sample.unauthorized))
                            (Sample.window [] []) []
                            (lit "navigate") (lit "the door") []
                            (lit "https://gw") (lit "k") []
                            Sample.unauthorized _ _ _ _).
  - reflexivity.
  - reflexivity.
  - reflexivity.
  - simpl. lia.
Defined.

(** ** Speech workers *)

Module TtsFacts.

Import Tts.

Lemma owners_cons (i : nat) (l : list nat) :
  owners (i :: l)
  = match l with
    | j :: _ => if Nat.eqb i j then owners l else i :: owners l
    | [] => [i]
    end.
Proof. reflexivity. Qed.

Lemma owners_In (i : nat) (l : list nat) : In i (owners l) <-> In i l.
Proof.
  induction l as [|a l IH]; [tauto|].
  rewrite owners_cons. destruct l as [|b l].
  - tauto.
  - destruct (Nat.eqb_spec a b) as [->|Hab].
    + rewrite IH. simpl. tauto.
    + simpl in *. rewrite IH. tauto.
Qed.

Lemma owners_snoc_same (l : list nat) (i : nat) :
  owners ((l ++ [i]) ++ [i]) = owners (l ++ [i]).
Proof.
  induction l as [|a l IH].
  - simpl. now rewrite Nat.eqb_refl.
  - cbn [app]. rewrite !owners_cons.
    destruct l as [|b l]; cbn [app] in *.
    + now rewrite IH.
    + now rewrite IH.
Qed.

Lemma owners_snoc_new (l : list nat) (i : nat) :
  ~ In i l -> owners (l ++ [i]) = owners l ++ [i].
Proof.
  induction l as [|a l IH]; intros Hin; [reflexivity|].
  cbn [app]. rewrite !owners_cons.
  assert (Hl : ~ In i l) by (simpl in Hin; tauto).
  destruct l as [|b l]; cbn [app] in *.
  - destruct (Nat.eqb_spec a i) as [->|_]; [simpl in Hin; tauto | reflexivity].
  - rewrite (IH Hl). now destruct (Nat.eqb a b).
Qed.

Lemma upd_same {A} (f : nat -> A) (i : nat) (a : A) : upd f i a i = a.
Proof. unfold upd. now rewrite Nat.eqb_refl. Qed.

Lemma upd_other {A} (f : nat -> A) (i j : nat) (a : A) :
  j <> i -> upd f i a j = f j.
Proof. unfold upd. intros H. now destruct (Nat.eqb_spec j i). Qed.

Lemma in_lock_cases (p : pc) :
  in_lock p = true -> p = InitEngine \/ speaking p = true.
Proof. destruct p; simpl; auto; discriminate. Qed.

Lemma speaking_in_lock (p : pc) : speaking p = true -> in_lock p = true.
Proof. now destruct p. Qed.

Lemma silent_not_speaking (p : pc) : silent p = true -> speaking p = false.
Proof. now destruct p. Qed.

Lemma NoDup_snoc (l : list nat) (i : nat) :
  NoDup l -> ~ In i l -> NoDup (l ++ [i]).
Proof.
  induction 1 as [|a l Ha Hl IH]; intros Hi; simpl.
  - constructor; [tauto | constructor].
  - constructor.
    + rewrite in_app_iff. simpl in *. intuition congruence.
    + apply IH. simpl in Hi. tauto.
Qed.

Lemma inv_init : tts_inv init.
Proof.
  constructor; simpl; try discriminate; try tauto.
  constructor.
Qed.

(** Starting a thread. *)
Lemma inv_spawn (s : state) (text : str) :
  tts_inv s -> tts_inv (spawn text s).
Proof.
  intros [Hlocked Halone Hstarted Hsilent Hspeaking Hserial].
  assert (Hpc : forall j (P : pc -> bool),
             P Start = false ->
             P (upd (at_pc s) (started s) Start j) = true ->
             P (at_pc s j) = true).
  { intros j P HP. unfold upd. destruct (Nat.eqb j (started s)); congruence. }
  constructor; cbn [spawn locked started at_pc engine].
  - intros j Hj. apply (Hlocked j). now apply (Hpc j in_lock).
  - intros j k Hj Hk. apply Halone; now apply (Hpc _ in_lock).
  - intros j Hj. apply Hstarted in Hj. lia.
  - intros j Hj Hin. destruct (Nat.eq_dec j (started s)) as [Heq | Hne].
    + apply Hstarted in Hin. lia.
    + rewrite upd_other in Hj by exact Hne. now apply (Hsilent j).
  - intros j Hj. apply Hspeaking. now apply (Hpc j speaking).
  - exact Hserial.
Qed.

(** Taking the lock. *)
Lemma inv_acquire (s : state) (i : nat) :
  tts_inv s -> at_pc s i = Start -> locked s = false ->
  tts_inv (goto i InitEngine true s).
Proof.
  intros [Hlocked Halone Hstarted Hsilent Hspeaking Hserial] Hi Hfree.
  assert (Hout : forall j, in_lock (at_pc s j) = false).
  { intros j. destruct (in_lock (at_pc s j)) eqn:Hj; [|reflexivity].
    apply Hlocked in Hj. congruence. }
  assert (Hin : forall j, in_lock (upd (at_pc s) i InitEngine j) = true ->
                          j = i).
  { intros j. unfold upd. destruct (Nat.eqb_spec j i); [auto|].
    rewrite Hout. discriminate. }
  constructor; cbn [goto locked started at_pc engine].
  - reflexivity.
  - intros j k Hj Hk. apply Hin in Hj, Hk. congruence.
  - exact Hstarted.
  - intros j Hj. destruct (Nat.eq_dec j i) as [Heq | Hne].
    + subst j. apply Hsilent. now rewrite Hi.
    + rewrite upd_other in Hj by exact Hne. now apply Hsilent.
  - intros j Hj. pose proof (speaking_in_lock _ Hj) as Hl.
    apply Hin in Hl. subst j. rewrite upd_same in Hj. discriminate.
  - exact Hserial.
Qed.

(** A step of the thread that is inside the [with] block: it moves to [p],
    makes the engine calls [evs] (none or one), and leaves the lock as [l]. *)
Lemma inv_inside (s : state) (i : nat) (p : pc) (l : bool)
      (evs : list (nat * op)) (errs : list nat) :
  tts_inv s ->
  (i < started s)%nat ->
  in_lock (at_pc s i) = true ->
  (in_lock p = true -> l = true) ->
  silent p = false ->
  (evs = [] \/ exists o, evs = [(i, o)]) ->
  (speaking p = true -> evs <> [] \/ speaking (at_pc s i) = true) ->
  tts_inv (mkState l (started s) (upd (at_pc s) i p) (text_of s)
                   (engine s ++ evs) errs).
Proof.
  intros [Hlocked Halone Hstarted Hsilent Hspeaking Hserial]
         Hlt Hi Hl Hp Hevs Hlast.
  assert (Honly : forall j (P : pc -> bool),
             (forall q, P q = true -> in_lock q = true) ->
             P (upd (at_pc s) i p j) = true -> j = i).
  { intros j P HP. unfold upd. destruct (Nat.eqb_spec j i); [auto|].
    intros Hj. apply HP in Hj. now apply Halone. }
  assert (Hmap : map fst (engine s ++ evs) = map fst (engine s)
                 \/ map fst (engine s ++ evs) = map fst (engine s) ++ [i]).
  { rewrite map_app. destruct Hevs as [-> | [o ->]]; [left | right].
    - apply app_nil_r.
    - reflexivity. }
  constructor; cbn [locked started at_pc engine].
  - intros j Hj. pose proof (Honly j in_lock (fun q H => H) Hj). subst j.
    rewrite upd_same in Hj. auto.
  - intros j k Hj Hk.
    pose proof (Honly j in_lock (fun q H => H) Hj).
    pose proof (Honly k in_lock (fun q H => H) Hk). congruence.
  - intros j Hj. destruct Hmap as [-> | ->] in Hj; [auto|].
    apply in_app_iff in Hj. destruct Hj as [Hj | [<- | []]]; auto.
  - intros j Hj. destruct (Nat.eq_dec j i) as [Heq | Hne];
      [subst j; rewrite upd_same in Hj; congruence|].
    rewrite upd_other in Hj by exact Hne.
    destruct Hmap as [-> | ->]; [auto|].
    rewrite in_app_iff. simpl. specialize (Hsilent j Hj). intuition.
  - intros j Hj. pose proof (Honly j speaking speaking_in_lock Hj). subst j.
    rewrite upd_same in Hj.
    destruct Hmap as [Hm | Hm]; rewrite Hm; [|eauto].
    destruct (Hlast Hj) as [Hne | Hwas]; [|auto].
    exfalso. destruct Hevs as [-> | [o ->]]; [congruence|].
    apply (f_equal (@List.length nat)) in Hm.
    rewrite map_app, length_app in Hm. simpl in Hm. lia.
  - unfold serial in *. cbn [engine].
    destruct Hmap as [-> | Hm]; [exact Hserial|].
    rewrite Hm.
    destruct (in_lock_cases _ Hi) as [Hinit | Hspk].
    + assert (Hnew : ~ In i (map fst (engine s)))
        by (apply Hsilent; now rewrite Hinit).
      rewrite owners_snoc_new by exact Hnew.
      apply NoDup_snoc; [exact Hserial | now rewrite owners_In].
    + destruct (Hspeaking i Hspk) as [l' Hl'].
      rewrite Hl', owners_snoc_same, <- Hl'. exact Hserial.
Qed.

Ltac inside :=
  match goal with
  | Hpc : at_pc ?s ?i = _ |- _ => rewrite ?Hpc
  | _ => idtac
  end;
  match goal with
  | |- _ \/ _ => solve [left; reflexivity | right; eexists; reflexivity
                        | left; discriminate | right; reflexivity]
  | Hinv : tts_inv ?s, Hpc : at_pc ?s ?i = _ |- _ -> locked ?s = true =>
      intros _; apply (inv_locked s Hinv i); rewrite Hpc; reflexivity
  | |- _ -> _ \/ _ => intros _; solve [left; discriminate | right; reflexivity]
  | |- _ => solve [reflexivity | discriminate]
  end.

Lemma inv_step (s s' : state) : tts_inv s -> step s s' -> tts_inv s'.
Proof.
  intros Hinv Hstep.
  destruct Hstep as [s text | s i Hlt Hpc Hfree | s i Hlt Hpc | s i Hlt Hpc
                     | s i Hlt Hpc | s i id Hlt Hpc
                     | s i Hlt Hpc | s i Hlt Hpc | s i Hlt Hpc | s i Hlt Hpc
                     | s i Hlt Hin].
  - now apply inv_spawn.
  - now apply inv_acquire.
  - refine (inv_inside s i SelectVoice (locked s) [(i, EInit)] (tts_errors s)
                       Hinv Hlt _ _ _ _ _); inside.
  - pose proof (inv_inside s i Say (locked s) [] (tts_errors s) Hinv Hlt)
      as H.
    rewrite app_nil_r in H. apply H; inside.
  - refine (inv_inside s i PickVoice (locked s) [(i, EGetVoices)]
                       (tts_errors s) Hinv Hlt _ _ _ _ _); inside.
  - refine (inv_inside s i Say (locked s) [(i, ESetVoice id)]
                       (tts_errors s) Hinv Hlt _ _ _ _ _); inside.
  - pose proof (inv_inside s i Say (locked s) [] (tts_errors s) Hinv Hlt)
      as H.
    rewrite app_nil_r in H. apply H; inside.
  - refine (inv_inside s i RunAndWait (locked s) [(i, ESay (text_of s i))]
                       (tts_errors s) Hinv Hlt _ _ _ _ _); inside.
  - refine (inv_inside s i StopEngine (locked s) [(i, ERunAndWait)]
                       (tts_errors s) Hinv Hlt _ _ _ _ _); inside.
  - refine (inv_inside s i Finished false [(i, EStop)] (tts_errors s)
                       Hinv Hlt _ _ _ _ _); inside.
  - pose proof (inv_inside s i Finished false [] (tts_errors s ++ [i])
                           Hinv Hlt Hin) as H.
    rewrite app_nil_r in H. apply H; inside.
Qed.

Lemma reachable_inv (s : state) : reachable s -> tts_inv s.
Proof.
  induction 1 as [|s s' _ IH Hstep]; [exact inv_init|].
  exact (inv_step s s' IH Hstep).
Qed.

(** A step that calls the engine is a step of a thread inside the [with]
    block. *)
Lemma engine_call_inside (s s' : state) (i : nat) (o : op) :
  step s s' -> engine s' = engine s ++ [(i, o)] ->
  in_lock (at_pc s i) = true.
Proof.
  intros Hstep Hcall.
  destruct Hstep as [s text | s k Hlt Hpc Hfree | s k Hlt Hpc | s k Hlt Hpc
                     | s k Hlt Hpc | s k id Hlt Hpc
                     | s k Hlt Hpc | s k Hlt Hpc | s k Hlt Hpc | s k Hlt Hpc
                     | s k Hlt Hin];
    cbn in Hcall;
    try (apply app_inv_head in Hcall; injection Hcall as <- _;
         now rewrite Hpc);
    rewrite <- (app_nil_r (engine s)) in Hcall at 1;
    apply app_inv_head in Hcall; discriminate Hcall.
Qed.

End TtsFacts.

(** C9. In every state the speech workers can reach, at most one of them is
    inside the [with self._tts_lock] block, the lock is held while one is,
    every engine call (init, say, runAndWait, stop) is made by the worker
    inside the block, and the calls of different workers do not interleave:
    the utterances run one after the other. *)
Theorem tts_one_at_a_time (s : Tts.state) :
  Tts.reachable s ->
  (forall i j, Tts.in_lock (Tts.at_pc s i) = true ->
               Tts.in_lock (Tts.at_pc s j) = true -> i = j)
  /\ (forall i, Tts.in_lock (Tts.at_pc s i) = true -> Tts.locked s = true)
  /\ (forall s' i o, Tts.step s s' ->
                     Tts.engine s' = Tts.engine s ++ [(i, o)] ->
                     Tts.in_lock (Tts.at_pc s i) = true)
  /\ Tts.serial s.
Proof.
  intros Hreach. pose proof (TtsFacts.reachable_inv s Hreach) as Hinv.
  repeat split.
  - exact (inv_alone s Hinv).
  - exact (inv_locked s Hinv).
  - intros s' i o. apply TtsFacts.engine_call_inside.
  - exact (inv_serial s Hinv).
Qed.

Lemma two_workers_reachable : Tts.reachable Sample.two_workers.
Proof.
  unfold Sample.two_workers.
  eapply Tts.reach_step;
    [|apply (Tts.step_init
               (Tts.goto 0 Tts.InitEngine true
                  (Tts.spawn (lit "go left")
                     (Tts.spawn (lit "hello") Tts.init))));
      [simpl; lia | reflexivity]].
  eapply Tts.reach_step;
    [|apply (Tts.step_acquire
               (Tts.spawn (lit "go left") (Tts.spawn (lit "hello") Tts.init)));
      [simpl; lia | reflexivity | reflexivity]].
  eapply Tts.reach_step; [|apply Tts.step_spawn].
  eapply Tts.reach_step; [|apply Tts.step_spawn].
  apply Tts.reach_init.
Defined.

Lemma tts_one_at_a_time_witness :
  Tts.serial Sample.two_workers
  /\ Tts.locked Sample.two_workers = true.
Proof.
  destruct (tts_one_at_a_time Sample.two_workers two_workers_reachable)
    as (_ & Hlocked & _ & Hserial).
  split; [exact Hserial | apply (Hlocked 0%nat); reflexivity].
Defined.

(** * Further properties *)

(** ** Speak last, the rest of it *)

Section SpeakLastMore.

Variable w : World.

Lemma speak_async_effect (t : str) (st : MainWindow) :
  exists st',
    _speak_async w t st = (Ok tt, st')
    /\ http_sent st' = http_sent st /\ log st' = log st
    /\ clock_reads st' = clock_reads st.
Proof.
  unfold _speak_async.
  destruct (negb (truthy t) || negb (pyttsx3_present w));
    eexists; repeat split.
Qed.

Lemma scan_prefixed_effect (ls : list str) (st : MainWindow) :
  exists (b : bool) (st' : MainWindow),
    scan_prefixed w ls st = (Ok b, st')
    /\ http_sent st' = http_sent st /\ log st' = log st
    /\ (b = false -> st' = st).
Proof.
  induction ls as [|line rest IH]; [exists false, st; repeat split|].
  cbn [scan_prefixed]. cbv zeta.
  destruct (startswith (strip line) (lit "Assistant:")
            || startswith (strip line) (lit "Vision:")) eqn:Hp; [|exact IH].
  assert (exists r, strip line = lit "Assistant:" ++ r
                    \/ strip line = lit "Vision:" ++ r) as [r Hs].
  { apply orb_true_iff in Hp. destruct Hp as [Hp | Hp];
      apply startswith_inv in Hp; destruct Hp as [r Hr]; exists r; tauto. }
  destruct (prefix_content _ _ Hs) as [_ Hsplit]. rewrite Hsplit.
  destruct (truthy (strip r)); [|exact IH].
  destruct (speak_async_effect (strip r) st) as (st' & Hrun & Hhttp & Hlog & _).
  exists true, st'. unfold bind, ret. rewrite Hrun.
  repeat split; auto. discriminate.
Qed.

Lemma scan_nonblank_effect (ls : list str) (st : MainWindow) :
  exists (b : bool) (st' : MainWindow),
    scan_nonblank w ls st = (Ok b, st')
    /\ http_sent st' = http_sent st /\ log st' = log st
    /\ (b = false -> st' = st).
Proof.
  induction ls as [|line rest IH]; [exists false, st; repeat split|].
  cbn [scan_nonblank]. cbv zeta.
  destruct (truthy (strip line)); [|exact IH].
  destruct (speak_async_effect (strip line) st)
    as (st' & Hrun & Hhttp & Hlog & _).
  exists true, st'. unfold bind, ret. rewrite Hrun.
  repeat split; auto. discriminate.
Qed.

(** [_speak_last_text] always returns: the lookup [s.split(":", 1)[1]]
    cannot fail where the code makes it. It sends no HTTP request, and the
    only line it can add to the log is "Nothing to speak yet.". *)
Theorem speak_last_returns (st : MainWindow) :
  exists st',
    _speak_last_text w st = (Ok tt, st')
    /\ http_sent st' = http_sent st
    /\ (log st' = log st
        \/ log st' = log st ++ [strftime w (clock_reads st) ++ lit " "
                                  ++ lit "Nothing to speak yet."]).
Proof.
  unfold _speak_last_text, bind at 1, gets at 1.
  destruct (truthy (_last_spoken_text st)).
  - destruct (speak_async_effect (_last_spoken_text st) st)
      as (st' & Hrun & Hhttp & Hlog & _).
    exists st'. auto.
  - unfold bind at 1, gets at 1. unfold bind at 1.
    destruct (scan_prefixed_effect (rev (splitlines (toPlainText st))) st)
      as (b & st1 & Hrun & Hhttp & Hlog & Hsame).
    rewrite Hrun. destruct b.
    + exists st1. unfold ret. auto.
    + rewrite (Hsame eq_refl). unfold bind at 1.
      destruct (scan_nonblank_effect (rev (splitlines (toPlainText st))) st)
        as (b & st2 & Hrun2 & Hhttp2 & Hlog2 & Hsame2).
      rewrite Hrun2. destruct b.
      * exists st2. unfold ret. auto.
      * rewrite (Hsame2 eq_refl). eexists. split; [reflexivity|].
        split; [reflexivity | right; reflexivity].
Qed.

Lemma scan_prefixed_none (ls : list str) (st : MainWindow) :
  (forall l c, In l ls -> ~ carries l c) ->
  scan_prefixed w ls st = (Ok false, st).
Proof.
  induction ls as [|line rest IH]; intros Hno; [reflexivity|].
  rewrite scan_prefixed_skip.
  - apply IH. intros l c Hin. apply Hno. now right.
  - intros c. apply Hno. now left.
Qed.

Lemma scan_nonblank_last (before after : list str) (line : str) st :
  strip line <> [] ->
  (forall l, In l after -> strip l = []) ->
  scan_nonblank w (rev (before ++ line :: after)) st
  = (_speak_async w (strip line) ;;; ret true) st.
Proof.
  intros Hline Hafter.
  rewrite rev_app_distr. cbn [rev]. rewrite <- app_assoc. cbn [app].
  assert (Hrev : forall l, In l (rev after) -> strip l = [])
    by (intros l Hin; apply Hafter; now apply in_rev).
  clear Hafter. induction (rev after) as [|l ls IH]; cbn [app].
  - cbn [scan_nonblank]. cbv zeta.
    apply truthy_true in Hline. now rewrite Hline.
  - cbn [scan_nonblank]. cbv zeta. rewrite (Hrev l) by now left.
    cbn [truthy]. apply IH. intros l' Hin. apply Hrev. now right.
Qed.

Lemma speak_last_any_line_holds
        (st : MainWindow) (before after : list str) (line : str) :
  pyttsx3_present w = true ->
  _last_spoken_text st = [] ->
  splitlines (toPlainText st) = before ++ line :: after ->
  (forall l c, In l (before ++ line :: after) -> ~ carries l c) ->
  strip line <> [] ->
  (forall l, In l after -> strip l = []) ->
  exists st',
    _speak_last_text w st = (Ok tt, st')
    /\ tts_started st' = tts_started st ++ [strip line]
    /\ _last_spoken_text st' = strip line
    /\ log st' = log st.
Proof.
  intros Htts Hlast Hlines Hnone Hline Hafter.
  exists (with_speech (strip line) st).
  unfold _speak_last_text, bind at 1, gets at 1.
  rewrite Hlast. cbn [truthy]. cbv beta iota.
  unfold bind at 1, gets at 1. rewrite Hlines.
  unfold bind at 1. rewrite scan_prefixed_none.
  2:{ intros l c Hin. apply Hnone. now apply in_rev. }
  unfold bind at 1.
  rewrite (scan_nonblank_last before after line st Hline Hafter).
  apply truthy_true in Hline.
  unfold bind, _speak_async, modify, ret. rewrite Hline, Htts. cbn.
  repeat split; reflexivity.
Qed.

(** When no line of the log carries an utterance, [_speak_last_text] falls
    back to the last line that is not blank and speaks it, stripped. *)
Theorem speak_last_any_line
        (st : MainWindow) (before after : list str) (line : str) :
  pyttsx3_present w = true ->
  _last_spoken_text st = [] ->
  splitlines (toPlainText st) = before ++ line :: after ->
  (forall l c, In l (before ++ line :: after) -> ~ carries l c) ->
  strip line <> [] ->
  (forall l, In l after -> strip l = []) ->
  exists st',
    _speak_last_text w st = (Ok tt, st')
    /\ tts_started st' = tts_started st ++ [strip line]
    /\ _last_spoken_text st' = strip line
    /\ log st' = log st.
Proof.
  intros Htts Hlast Hlines Hnone Hline Hafter.
  exists (with_speech (strip line) st).
  unfold _speak_last_text, bind at 1, gets at 1.
  rewrite Hlast. cbn [truthy]. cbv beta iota.
  unfold bind at 1, gets at 1. rewrite Hlines.
  unfold bind at 1. rewrite scan_prefixed_none.
  2:{ intros l c Hin. apply Hnone. now apply in_rev. }
  unfold bind at 1.
  rewrite (scan_nonblank_last before after line st Hline Hafter).
  apply truthy_true in Hline.
  unfold bind, _speak_async, modify, ret. rewrite Hline, Htts. cbn.
  repeat split; reflexivity.
Qed.

End SpeakLastMore.

Lemma drop_space_snoc (m : str) (a : N) :
  is_space a = false -> exists x, drop_space (m ++ [a]) = x ++ [a].
Proof.
  intros Ha. induction m as [|c m IH]; simpl.
  - rewrite Ha. now exists [].
  - destruct (is_space c); [exact IH | now exists (c :: m)].
Qed.

Lemma strip_keeps_head (a : N) (l : str) :
  is_space a = false -> exists t, strip (a :: l) = a :: t.
Proof.
  intros Ha. unfold strip, lstrip, rstrip. simpl. rewrite Ha. simpl.
  destruct (drop_space_snoc (rev l) a Ha) as [x ->].
  rewrite rev_app_distr. now exists (rev x).
Qed.

(** A line that starts with "[", as the lines stamped by [_log] do, carries
    no utterance for the first loop of [_speak_last_text]. *)
Lemma stamped_line_carries_nothing (rest c : str) : ~ carries (91 :: rest) c.
Proof.
  intros (r & Hs & _).
  destruct (strip_keeps_head 91 rest eq_refl) as [t Ht].
  rewrite Ht in Hs. destruct Hs as [Hs | Hs]; discriminate Hs.
Qed.

(** In a log where every line starts with the "[" of a time stamp, "Speak
    last" does not find the "Assistant:" lines: with no utterance made yet
    it speaks the whole last line, time stamp included. *)
Theorem speak_last_stamped (w : World) (st : MainWindow)
        (before : list str) (line : str) :
  pyttsx3_present w = true ->
  _last_spoken_text st = [] ->
  splitlines (toPlainText st) = before ++ [line] ->
  (forall l, In l (before ++ [line]) -> exists r, l = 91 :: r) ->
  exists (st' : MainWindow) (t : str),
    _speak_last_text w st = (Ok tt, st')
    /\ tts_started st' = tts_started st ++ [strip line]
    /\ strip line = 91 :: t.
Proof.
  intros Htts Hlast Hlines Hstamped.
  destruct (Hstamped line) as [r ->]; [apply in_or_app; right; now left|].
  destruct (strip_keeps_head 91 r eq_refl) as [t Ht].
  destruct (speak_last_any_line_holds w st before [] (91 :: r) Htts Hlast Hlines)
    as (st' & Hrun & Hspoken & _).
  - intros l c Hin. destruct (Hstamped l Hin) as [r' ->].
    apply stamped_line_carries_nothing.
  - rewrite Ht. discriminate.
  - intros l [].
  - exists st', t. auto.
Qed.

Lemma speak_last_any_line_witness :
  exists st',
    _speak_last_text (Sample.world true Sample.unreachable)
                     (Sample.window [] [lit "hello there"; lit "   "])
    = (Ok tt, st')
    /\ tts_started st' = [] ++ [strip (lit "hello there")]
    /\ _last_spoken_text st' = strip (lit "hello there")
    /\ log st' = [lit "hello there"; lit "   "].
Proof.
  refine (speak_last_any_line
            (Sample.world true Sample.unreachable)
            (Sample.window [] [lit "hello there"; lit "   "])
            [] [lit "   "] (lit "hello there") eq_refl eq_refl eq_refl _ _ _).
  - intros l c [<- | [<- | []]] (r & [H | H] & _); discriminate H.
  - discriminate.
  - intros l [<- | []]. reflexivity.
Defined.

Lemma speak_last_stamped_witness :
  exists (st' : MainWindow) (t : str),
    _speak_last_text (Sample.world true Sample.unreachable)
                     (Sample.window [] [Scene.ready_line])
    = (Ok tt, st')
    /\ tts_started st' = [] ++ [strip Scene.ready_line]
    /\ strip Scene.ready_line = 91 :: t.
Proof.
  refine (speak_last_stamped
            (Sample.world true Sample.unreachable)
            (Sample.window [] [Scene.ready_line])
            [] Scene.ready_line eq_refl eq_refl eq_refl _).
  intros l [<- | []]. eexists. reflexivity.
Defined.

(** ** Chat, the rest of it *)

Section ChatMore.

Variable w : World.

Lemma send_chat_posts (st : MainWindow) (host key : str) :
  _hk st = (Ok (host, key), st) ->
  strip (chat_input st) <> [] ->
  _send_chat w st
  = match requests_send w (chat_request st host key) with
    | Raise e =>
        match e with
        | HTTPError _ _ =>
            _log w (lit "Chat error: " ++ exn_str e
                      ++ lit " | Body: " ++ response_text e)
        | _ => _log w (lit "Chat error: " ++ exn_str e)
        end (asked w st host key)
    | Ok r =>
        match raise_for_status r with
        | Raise e =>
            _log w (lit "Chat error: " ++ exn_str e
                      ++ lit " | Body: " ++ response_text e)
                 (asked w st host key)
        | Ok _ =>
            match response_json r with
            | Raise e =>
                _log w (lit "Chat error: " ++ exn_str e) (asked w st host key)
            | Ok v =>
                match reply_text v with
                | Raise e =>
                    _log w (lit "Chat error: " ++ exn_str e)
                         (asked w st host key)
                | Ok t =>
                    (if truthy t
                     then _log w (lit "Assistant: " ++ t) ;;;
                          _speak_async w t
                     else _log w (lit "Assistant: (empty)"))
                      (asked w st host key)
                end
            end
        end
    end.
Proof.
  intros Hhk Htext. apply truthy_true in Htext.
  unfold _send_chat, bind at 1, attempt. rewrite Hhk.
  unfold bind at 1, gets at 1. cbv beta iota. rewrite Htext. cbn [negb].
  unfold bind at 1. unfold _log at 1. cbv beta iota zeta.
  unfold try_except, bind at 1, _post_chat, send.
  unfold bind at 1, gets at 1. unfold bind at 1, bind at 1, modify at 1.
  unfold lift at 1. unfold asked, chat_request. cbn [snd _log].
  change (voice_id (with_log _ _ st)) with (voice_id st).
  destruct (requests_send w _) as [r | e]; [|reflexivity].
  unfold bind at 1, lift at 1.
  destruct (raise_for_status r) as [[] | e] eqn:Hst.
  - unfold lift at 1. unfold response_json.
    destruct (decoded r) as [msg | v]; [reflexivity|].
    unfold bind at 1, lift at 1.
    destruct (reply_text v) as [t | e] eqn:Hreply.
    + destruct (truthy t); [|reflexivity].
      unfold bind, _log, _speak_async.
      now destruct (negb (truthy t) || negb (pyttsx3_present w)).
    + unfold reply_text in Hreply.
      destruct (if json_truthy v then v else JDict []);
        try (injection Hreply as <-; reflexivity).
      destruct (dict_get items (lit "text") (JStr []));
        try (injection Hreply as <-; reflexivity).
      discriminate Hreply.
  - unfold raise_for_status in Hst.
    destruct ((400 <=? status_code r) && (status_code r <? 500))%Z;
      [injection Hst as <-; reflexivity|].
    destruct ((500 <=? status_code r) && (status_code r <? 600))%Z;
      [injection Hst as <-; reflexivity | discriminate Hst].
Qed.

Lemma hk_keeps_state (st : MainWindow) : snd (_hk st) = st.
Proof.
  unfold _hk.
  now destruct (negb (truthy _) || negb (truthy _)).
Qed.

Lemma chat_reply_spoken_holds (st : MainWindow) (host key : str) (r : Response)
        (d : list (str * json)) (s : str) :
  pyttsx3_present w = true ->
  _hk st = (Ok (host, key), st) ->
  strip (chat_input st) <> [] ->
  requests_send w (chat_request st host key) = Ok r ->
  raise_for_status r = Ok tt ->
  decoded r = inr (JDict d) ->
  dict_get d (lit "text") JNull = JStr s ->
  strip s <> [] ->
  exists st',
    _send_chat w st = (Ok tt, st')
    /\ log st'
       = log st
           ++ [strftime w (clock_reads st)
                 ++ lit " " ++ lit "You: " ++ strip (chat_input st);
               strftime w (S (clock_reads st))
                 ++ lit " " ++ lit "Assistant: " ++ strip s]
    /\ tts_started st' = tts_started st ++ [strip s]
    /\ _last_spoken_text st' = strip s
    /\ http_sent st' = http_sent st ++ [chat_request st host key].
Proof.
  intros Htts Hhk Htext Hsend Hstatus Hjson Hfield Hs.
  apply truthy_true in Hs.
  eexists. split.
  - rewrite (send_chat_posts st host key Hhk Htext), Hsend, Hstatus.
    unfold response_json. rewrite Hjson, (reply_text_field d s Hfield), Hs.
    unfold bind, _log, _speak_async. rewrite Hs, Htts. reflexivity.
  - cbn. rewrite <- app_assoc. repeat split; reflexivity.
Qed.

(** A reply whose "text" has something left after stripping is logged and
    spoken in its stripped form, and becomes the last spoken text. *)
Theorem chat_reply_spoken (st : MainWindow) (host key : str) (r : Response)
        (d : list (str * json)) (s : str) :
  pyttsx3_present w = true ->
  _hk st = (Ok (host, key), st) ->
  strip (chat_input st) <> [] ->
  requests_send w (chat_request st host key) = Ok r ->
  raise_for_status r = Ok tt ->
  decoded r = inr (JDict d) ->
  dict_get d (lit "text") JNull = JStr s ->
  strip s <> [] ->
  exists st',
    _send_chat w st = (Ok tt, st')
    /\ log st'
       = log st
           ++ [strftime w (clock_reads st)
                 ++ lit " " ++ lit "You: " ++ strip (chat_input st);
               strftime w (S (clock_reads st))
                 ++ lit " " ++ lit "Assistant: " ++ strip s]
    /\ tts_started st' = tts_started st ++ [strip s]
    /\ _last_spoken_text st' = strip s
    /\ http_sent st' = http_sent st ++ [chat_request st host key].
Proof.
  intros Htts Hhk Htext Hsend Hstatus Hjson Hfield Hs.
  apply truthy_true in Hs.
  eexists. split.
  - rewrite (send_chat_posts st host key Hhk Htext), Hsend, Hstatus.
    unfold response_json. rewrite Hjson, (reply_text_field d s Hfield), Hs.
    unfold bind, _log, _speak_async. rewrite Hs, Htts. reflexivity.
  - cbn. rewrite <- app_assoc. repeat split; reflexivity.
Qed.

(** After such a reply "Speak last" repeats it: the utterance is started a
    second time and the log is left alone. *)
Theorem chat_then_speak_last (st : MainWindow) (host key : str)
        (r : Response) (d : list (str * json)) (s : str) :
  pyttsx3_present w = true ->
  _hk st = (Ok (host, key), st) ->
  strip (chat_input st) <> [] ->
  requests_send w (chat_request st host key) = Ok r ->
  raise_for_status r = Ok tt ->
  decoded r = inr (JDict d) ->
  dict_get d (lit "text") JNull = JStr s ->
  strip s <> [] ->
  exists st' st'',
    _send_chat w st = (Ok tt, st')
    /\ _speak_last_text w st' = (Ok tt, st'')
    /\ tts_started st'' = tts_started st ++ [strip s; strip s]
    /\ log st'' = log st'.
Proof.
  intros Htts Hhk Htext Hsend Hstatus Hjson Hfield Hs.
  destruct (chat_reply_spoken_holds st host key r d s Htts Hhk Htext Hsend Hstatus
                              Hjson Hfield Hs)
    as (st' & Hrun & _ & Hspoken & Hlast & _).
  exists st', (with_speech (strip s) st'). split; [exact Hrun|].
  apply truthy_true in Hs.
  unfold _speak_last_text, bind, gets, _speak_async, modify.
  rewrite Hlast, Hs, Htts. cbn. rewrite Hspoken, <- app_assoc.
  repeat split; reflexivity.
Qed.

Lemma chat_blank_input_holds (st : MainWindow) (host key : str) :
  _hk st = (Ok (host, key), st) ->
  strip (chat_input st) = [] ->
  _send_chat w st = (Ok tt, st).
Proof.
  intros Hhk Hblank.
  unfold _send_chat, bind, attempt, gets. rewrite Hhk. cbv beta iota.
  now rewrite Hblank.
Qed.

(** With nothing but white space typed in, [_send_chat] does nothing: no
    log line, no request. *)
Theorem chat_blank_input (st : MainWindow) (host key : str) :
  _hk st = (Ok (host, key), st) ->
  strip (chat_input st) = [] ->
  _send_chat w st = (Ok tt, st).
Proof.
  intros Hhk Hblank.
  unfold _send_chat, bind, attempt, gets. rewrite Hhk. cbv beta iota.
  now rewrite Hblank.
Qed.

Lemma log_effect (msg : str) (st : MainWindow) :
  exists st', _log w msg st = (Ok tt, st') /\ http_sent st' = http_sent st.
Proof. eexists. split; reflexivity. Qed.

(** [_send_chat] never lets an exception out, and it sends at most one
    request. *)
Theorem chat_returns (st : MainWindow) :
  exists st',
    _send_chat w st = (Ok tt, st')
    /\ (http_sent st' = http_sent st
        \/ exists r, http_sent st' = http_sent st ++ [r]).
Proof.
  destruct (_hk st) as [[[host key] | e] st0] eqn:Hhk.
  - pose proof (hk_keeps_state st) as Hst. rewrite Hhk in Hst.
    simpl in Hst. subst st0.
    destruct (strip (chat_input st)) as [|c t] eqn:Htext.
    + exists st. rewrite (chat_blank_input_holds st host key Hhk Htext). auto.
    + assert (Hne : strip (chat_input st) <> []) by (rewrite Htext; discriminate).
      rewrite (send_chat_posts st host key Hhk Hne).
      assert (Hlog : forall msg, exists st',
                   _log w msg (asked w st host key) = (Ok tt, st')
                   /\ (http_sent st' = http_sent st
                       \/ exists r, http_sent st' = http_sent st ++ [r])).
      { intros msg. eexists. split; [reflexivity|]. right. eexists.
        reflexivity. }
      destruct (requests_send w _) as [r | e]; [|destruct e; apply Hlog].
      destruct (raise_for_status r); [|apply Hlog].
      destruct (response_json r) as [v | e]; [|apply Hlog].
      destruct (reply_text v) as [t' | e]; [|apply Hlog].
      destruct (truthy t'); [|apply Hlog].
      unfold bind, _log, _speak_async.
      destruct (negb (truthy t') || negb (pyttsx3_present w));
        eexists; (split; [reflexivity|]); right; eexists; reflexivity.
  - exists (snd (_log w (lit "Chat error: " ++ exn_str e) st)).
    unfold _send_chat, bind, attempt. rewrite Hhk.
    pose proof (hk_keeps_state st) as Hst. rewrite Hhk in Hst.
    simpl in Hst. subst st0. split; [reflexivity | left; reflexivity].
Qed.

(** When /chat answers with an error status (400 to 599), one entry "Chat
    error: ... | Body: ..." with the status code and the response body
    follows the "You: ..." line; nothing is spoken. *)
Theorem chat_http_error (st : MainWindow) (host key : str) (r : Response) :
  _hk st = (Ok (host, key), st) ->
  strip (chat_input st) <> [] ->
  requests_send w (chat_request st host key) = Ok r ->
  (400 <= status_code r < 600)%Z ->
  exists (st' : MainWindow) (detail : str),
    _send_chat w st = (Ok tt, st')
    /\ log st'
       = log st
           ++ [strftime w (clock_reads st)
                 ++ lit " " ++ lit "You: " ++ strip (chat_input st);
               strftime w (S (clock_reads st))
                 ++ lit " " ++ lit "Chat error: " ++ detail
                 ++ lit " | Body: " ++ text r]
    /\ occurs_in (str_of_int (status_code r)) detail
    /\ tts_started st' = tts_started st
    /\ _last_spoken_text st' = _last_spoken_text st.
Proof.
  intros Hhk Htext Hsend Hstatus.
  destruct (raise_for_status_error r Hstatus) as [kind Hraise].
  eexists. eexists. split.
  - rewrite (send_chat_posts st host key Hhk Htext), Hsend, Hraise.
    reflexivity.
  - cbn. rewrite <- app_assoc. repeat split.
    exists [], (kind ++ reason r ++ lit " for url: " ++ url r). reflexivity.
Qed.

(** When the request itself fails (no connection, a timeout), the entry is
    "Chat error: " and the message of the exception; nothing is spoken. *)
Theorem chat_send_failure (st : MainWindow) (host key : str) (e : exn) :
  _hk st = (Ok (host, key), st) ->
  strip (chat_input st) <> [] ->
  requests_send w (chat_request st host key) = Raise e ->
  (forall m r, e <> HTTPError m r) ->
  exists st',
    _send_chat w st = (Ok tt, st')
    /\ log st'
       = log st
           ++ [strftime w (clock_reads st)
                 ++ lit " " ++ lit "You: " ++ strip (chat_input st);
               strftime w (S (clock_reads st))
                 ++ lit " " ++ lit "Chat error: " ++ exn_str e]
    /\ tts_started st' = tts_started st
    /\ _last_spoken_text st' = _last_spoken_text st.
Proof.
  intros Hhk Htext Hsend Hkind.
  eexists. split.
  - rewrite (send_chat_posts st host key Hhk Htext), Hsend.
    destruct e; try reflexivity. now destruct (Hkind msg response).
  - cbn. rewrite <- app_assoc. repeat split.
Qed.

Lemma dict_get_absent (d : list (str * json)) (k : str) (a : json) :
  (forall x, ~ In (k, x) d) -> dict_get d k a = a.
Proof.
  induction d as [|[k' v'] d IH]; intros Habsent; [reflexivity|].
  simpl. destruct (str_eqb k' k) eqn:Hk.
  - apply str_eqb_eq in Hk. subst k'. destruct (Habsent v'). now left.
  - apply IH. intros x Hin. apply (Habsent x). now right.
Qed.

(** A reply that is null, false, 0, an empty string, list or object, or an
    object without "text", counts as empty: "Assistant: (empty)" is logged
    and nothing is spoken. *)
Theorem chat_reply_counts_as_empty (st : MainWindow) (host key : str)
        (r : Response) (v : json) :
  _hk st = (Ok (host, key), st) ->
  strip (chat_input st) <> [] ->
  requests_send w (chat_request st host key) = Ok r ->
  raise_for_status r = Ok tt ->
  decoded r = inr v ->
  (json_truthy v = false
   \/ exists d, v = JDict d /\ forall x, ~ In (lit "text", x) d) ->
  exists st',
    _send_chat w st = (Ok tt, st')
    /\ log st'
       = log st
           ++ [strftime w (clock_reads st)
                 ++ lit " " ++ lit "You: " ++ strip (chat_input st);
               strftime w (S (clock_reads st))
                 ++ lit " " ++ lit "Assistant: (empty)"]
    /\ tts_started st' = tts_started st.
Proof.
  intros Hhk Htext Hsend Hstatus Hjson Hempty.
  assert (Hreply : reply_text v = Ok []).
  { unfold reply_text. destruct Hempty as [Hfalse | (d & -> & Habsent)].
    - now rewrite Hfalse.
    - assert (Hd : (if json_truthy (JDict d) then JDict d else JDict [])
                   = JDict d) by now destruct d.
      rewrite Hd, (dict_get_absent d _ _ Habsent). reflexivity. }
  eexists. split.
  - rewrite (send_chat_posts st host key Hhk Htext), Hsend, Hstatus.
    unfold response_json. rewrite Hjson, Hreply. reflexivity.
  - cbn. rewrite <- app_assoc. repeat split.
Qed.

(** A reply that is not an object (a number, a string, a list, true), or
    whose "text" is not a string (null included), ends in the entry "Chat
    error: 'T' object has no attribute ..." naming the type; nothing is
    spoken. *)
Theorem chat_malformed_reply (st : MainWindow) (host key : str)
        (r : Response) (v bad : json) (attr : string) :
  _hk st = (Ok (host, key), st) ->
  strip (chat_input st) <> [] ->
  requests_send w (chat_request st host key) = Ok r ->
  raise_for_status r = Ok tt ->
  decoded r = inr v ->
  (json_truthy v = true /\ (forall d, v <> JDict d)
   /\ bad = v /\ attr = "get"%string)
  \/ (exists d k x, v = JDict ((k, x) :: d)
                    /\ dict_get ((k, x) :: d) (lit "text") (JStr []) = bad
                    /\ (forall s, bad <> JStr s) /\ attr = "strip"%string) ->
  exists st',
    _send_chat w st = (Ok tt, st')
    /\ log st'
       = log st
           ++ [strftime w (clock_reads st)
                 ++ lit " " ++ lit "You: " ++ strip (chat_input st);
               strftime w (S (clock_reads st))
                 ++ lit " " ++ lit "Chat error: "
                 ++ lit "'" ++ type_name bad
                 ++ lit "' object has no attribute '" ++ lit attr ++ lit "'"]
    /\ tts_started st' = tts_started st.
Proof.
  intros Hhk Htext Hsend Hstatus Hjson Hbad.
  assert (Hreply : reply_text v = Raise (no_attribute bad attr)).
  { unfold reply_text.
    destruct Hbad as [(Htrue & Hnot & -> & ->)
                     | (d & k & x & -> & Hget & Hnot & ->)].
    - rewrite Htrue. destruct v; try reflexivity. now destruct (Hnot items).
    - cbn [json_truthy]. rewrite Hget.
      destruct bad; try reflexivity. now destruct (Hnot s). }
  eexists. split.
  - rewrite (send_chat_posts st host key Hhk Htext), Hsend, Hstatus.
    unfold response_json. rewrite Hjson, Hreply. reflexivity.
  - cbn. rewrite <- !app_assoc. repeat split.
Qed.

End ChatMore.

Lemma chat_reply_spoken_witness :
  exists st',
    _send_chat (Scene.answering Scene.padded_hello) Scene.typing = (Ok tt, st')
    /\ tts_started st' = [lit "hello"]
    /\ _last_spoken_text st' = lit "hello".
Proof.
  destruct (chat_reply_spoken (Scene.answering Scene.padded_hello)
              Scene.typing (lit "https://gw") (lit "k") Scene.padded_hello
              [(lit "text", JStr (lit "  hello "))] (lit "  hello ")
              eq_refl eq_refl ltac:(discriminate) eq_refl eq_refl eq_refl
              eq_refl ltac:(discriminate))
    as (st' & Hrun & _ & Hspoken & Hlast & _).
  exists st'. repeat split; assumption.
Defined.

Lemma chat_then_speak_last_witness :
  exists st' st'',
    _send_chat (Scene.answering Scene.padded_hello) Scene.typing = (Ok tt, st')
    /\ _speak_last_text (Scene.answering Scene.padded_hello) st'
       = (Ok tt, st'')
    /\ tts_started st'' = [lit "hello"; lit "hello"].
Proof.
  destruct (chat_then_speak_last (Scene.answering Scene.padded_hello)
              Scene.typing (lit "https://gw") (lit "k") Scene.padded_hello
              [(lit "text", JStr (lit "  hello "))] (lit "  hello ")
              eq_refl eq_refl ltac:(discriminate) eq_refl eq_refl eq_refl
              eq_refl ltac:(discriminate))
    as (st' & st'' & Hrun & Hagain & Hspoken & _).
  exists st', st''. repeat split; assumption.
Defined.

Lemma chat_blank_input_witness :
  _send_chat (Scene.answering Scene.padded_hello)
             (Sample.window (lit "   ") [])
  = (Ok tt, Sample.window (lit "   ") []).
Proof.
  exact (chat_blank_input (Scene.answering Scene.padded_hello)
                          (Sample.window (lit "   ") [])
                          (lit "https://gw") (lit "k") eq_refl eq_refl).
Defined.

Lemma chat_http_error_witness :
  exists st',
    _send_chat (Scene.answering Scene.chat_refused) Scene.typing = (Ok tt, st')
    /\ tts_started st' = [].
Proof.
  destruct (chat_http_error (Scene.answering Scene.chat_refused)
              Scene.typing (lit "https://gw") (lit "k") Scene.chat_refused
              eq_refl ltac:(discriminate) eq_refl ltac:(simpl; lia))
    as (st' & detail & Hrun & _ & _ & Hspoken & _).
  exists st'. split; assumption.
Defined.

Lemma chat_send_failure_witness :
  exists st',
    _send_chat (Sample.world true Sample.unreachable) Scene.typing
    = (Ok tt, st')
    /\ log st' = [lit "[12:00:00] You: hi";
                  lit "[12:00:00] Chat error: Max retries exceeded"].
Proof.
  destruct (chat_send_failure (Sample.world true Sample.unreachable)
              Scene.typing (lit "https://gw") (lit "k")
              (ConnectionError (lit "Max retries exceeded"))
              eq_refl ltac:(discriminate) eq_refl ltac:(discriminate))
    as (st' & Hrun & Hlog & _).
  exists st'. split; assumption.
Defined.

Lemma chat_reply_counts_as_empty_witness :
  exists st',
    _send_chat (Scene.answering Scene.null_reply) Scene.typing = (Ok tt, st')
    /\ log st' = [lit "[12:00:00] You: hi";
                  lit "[12:00:00] Assistant: (empty)"].
Proof.
  destruct (chat_reply_counts_as_empty (Scene.answering Scene.null_reply)
              Scene.typing (lit "https://gw") (lit "k") Scene.null_reply
              JNull eq_refl ltac:(discriminate) eq_refl eq_refl eq_refl
              (or_introl eq_refl))
    as (st' & Hrun & Hlog & _).
  exists st'. split; assumption.
Defined.

Lemma chat_malformed_reply_witness :
  exists st',
    _send_chat (Scene.answering Scene.list_reply) Scene.typing = (Ok tt, st')
    /\ log st'
       = [lit "[12:00:00] You: hi";
          lit "[12:00:00] Chat error: 'list' object has no attribute 'get'"].
Proof.
  pose proof (chat_malformed_reply (Scene.answering Scene.list_reply)
                Scene.typing (lit "https://gw") (lit "k") Scene.list_reply
                (JList [JInt 1]) (JList [JInt 1]) "get" eq_refl) as H.
  specialize (H ltac:(discriminate) eq_refl eq_refl eq_refl).
  destruct H as (st' & Hrun & Hlog & _).
  { left. repeat split. intros d; discriminate. }
  exists st'. split; [exact Hrun | exact Hlog].
Defined.

(** ** Vision, the rest of it *)

Section VisionMore.

Variable w : World.

Lemma or_else_nil (s : str) : or_else s [] = s.
Proof. now destruct s. Qed.

Lemma vision_explicit_prompt_holds (st : MainWindow) (f : frame)
        (mode target prompt host key : str) (jpeg : list Byte.byte) :
  _hk st = (Ok (host, key), st) ->
  encode_jpeg w f = Ok jpeg ->
  prompt <> [] ->
  last_prompt (snd (_vision_with_frame w f mode target prompt st))
  = Some prompt.
Proof.
  intros Hhk Hjpeg Hprompt. unfold last_prompt.
  rewrite (vision_sends_once w st f mode target prompt host key jpeg
                             Hhk Hjpeg).
  rewrite rev_app_distr. cbn [rev app prompt_of vision_request].
  rewrite or_else_nil. unfold user_prompt, or_else.
  apply truthy_true in Hprompt. now rewrite Hprompt.
Qed.

(** An explicit prompt (the transcript of the microphone) is sent as it is,
    whatever the mode and the target. *)
Theorem vision_explicit_prompt (st : MainWindow) (f : frame)
        (mode target prompt host key : str) (jpeg : list Byte.byte) :
  _hk st = (Ok (host, key), st) ->
  encode_jpeg w f = Ok jpeg ->
  prompt <> [] ->
  last_prompt (snd (_vision_with_frame w f mode target prompt st))
  = Some prompt.
Proof.
  intros Hhk Hjpeg Hprompt. unfold last_prompt.
  rewrite (vision_sends_once w st f mode target prompt host key jpeg
                             Hhk Hjpeg).
  rewrite rev_app_distr. cbn [rev app prompt_of vision_request].
  rewrite or_else_nil. unfold user_prompt, or_else.
  apply truthy_true in Hprompt. now rewrite Hprompt.
Qed.

Lemma table_get_absent (d : list (str * str)) (k a : str) :
  (forall v, ~ In (k, v) d) -> table_get d k a = a.
Proof.
  induction d as [|[k' v'] d IH]; intros Habsent; [reflexivity|].
  simpl. destruct (str_eqb k' k) eqn:Hk.
  - apply str_eqb_eq in Hk. subst k'. destruct (Habsent v'). now left.
  - apply IH. intros x Hin. apply (Habsent x). now right.
Qed.

(** A mode that, lowered, is none of scene, emotion, navigate, objects gets
    the prompt of "scene". *)
Theorem vision_unknown_mode (st : MainWindow) (f : frame)
        (mode target host key : str) (jpeg : list Byte.byte) :
  _hk st = (Ok (host, key), st) ->
  encode_jpeg w f = Ok jpeg ->
  ~ In (lower w (or_else mode (lit "scene")))
       [lit "scene"; lit "emotion"; lit "navigate"; lit "objects"] ->
  last_prompt (snd (_vision_with_frame w f mode target [] st))
  = Some (lit "Describe the scene briefly for navigation.").
Proof.
  intros Hhk Hjpeg Hmode.
  rewrite (vision_last_prompt w st f mode target host key jpeg Hhk Hjpeg).
  unfold user_prompt. cbn [or_else truthy].
  rewrite table_get_absent; [reflexivity|].
  intros v Hin. apply Hmode. unfold default_prompts in Hin.
  simpl in Hin. simpl.
  destruct Hin as [H | [H | [H | [H | []]]]];
    injection H as H _; rewrite <- H; tauto.
Qed.

Lemma ascii_lower_twice (c : N) :
  ascii_lower (ascii_lower c) = ascii_lower c.
Proof.
  unfold ascii_lower.
  destruct ((65 <=? c) && (c <=? 90)) eqn:Hc; [|now rewrite Hc].
  apply andb_true_iff in Hc. destruct Hc as [H1 H2].
  apply N.leb_le in H1, H2.
  destruct ((65 <=? c + 32) && (c + 32 <=? 90)) eqn:Hc'; [|reflexivity].
  apply andb_true_iff in Hc'. destruct Hc' as [_ H3].
  apply N.leb_le in H3. lia.
Qed.

Lemma ascii_lower_ascii (c : N) : (c <? 128) = true ->
                                  (ascii_lower c <? 128) = true.
Proof.
  unfold ascii_lower. intros Hc.
  destruct ((65 <=? c) && (c <=? 90)) eqn:H; [|exact Hc].
  apply andb_true_iff in H. destruct H as [_ H2].
  apply N.leb_le in H2. apply N.ltb_lt. lia.
Qed.

Lemma lower_ascii_twice (m : str) :
  is_ascii m = true -> lower w (lower w m) = lower w m.
Proof.
  intros Hm. unfold lower. rewrite Hm.
  assert (Hl : is_ascii (map ascii_lower m) = true).
  { unfold is_ascii in *. rewrite forallb_forall in *.
    intros c Hc. apply in_map_iff in Hc. destruct Hc as (c0 & <- & Hc0).
    apply ascii_lower_ascii. now apply Hm. }
  rewrite Hl, map_map. apply map_ext. intros c. apply ascii_lower_twice.
Qed.

(** The mode is taken without regard to (ASCII) case: "NAVIGATE" sends the
    request that "navigate" sends. *)
Theorem vision_mode_case (st : MainWindow) (f : frame)
        (mode target prompt host key : str) (jpeg : list Byte.byte) :
  _hk st = (Ok (host, key), st) ->
  encode_jpeg w f = Ok jpeg ->
  is_ascii mode = true ->
  http_sent (snd (_vision_with_frame w f mode target prompt st))
  = http_sent (snd (_vision_with_frame w f (map ascii_lower mode) target
                                       prompt st)).
Proof.
  intros Hhk Hjpeg Hmode.
  rewrite !(vision_sends_once w st f _ target prompt host key jpeg Hhk Hjpeg).
  f_equal. f_equal. unfold vision_request, user_prompt.
  assert (Hsame : lower w (or_else (map ascii_lower mode) (lit "scene"))
                  = lower w (or_else mode (lit "scene"))).
  { destruct mode as [|c m]; [reflexivity|].
    change (or_else (map ascii_lower (c :: m)) (lit "scene"))
      with (map ascii_lower (c :: m)).
    change (or_else (c :: m) (lit "scene")) with (c :: m).
    assert (Hl : lower w (c :: m) = map ascii_lower (c :: m))
      by (unfold lower; now rewrite Hmode).
    rewrite <- Hl. now apply lower_ascii_twice. }
  now rewrite Hsame.
Qed.

Ltac vision_run Hhk Hjpeg :=
  unfold _vision_with_frame, bind at 1, attempt; rewrite Hhk;
  unfold try_except, bind at 1, _post_vision, send;
  unfold bind at 1, lift at 1; rewrite Hjpeg;
  unfold bind, gets, modify, lift; cbv beta iota.

(** When the frame cannot be encoded as JPEG, [_vision_with_frame] only logs
    "Vision error: Failed to encode frame as JPEG": no request is sent. *)
Theorem vision_encode_failure (st : MainWindow) (f : frame)
        (mode target prompt host key : str) (buf : list Byte.byte) :
  _hk st = (Ok (host, key), st) ->
  imencode w f = Ok (false, buf) ->
  only_logs w st (lit "Vision error: Failed to encode frame as JPEG")
            (_vision_with_frame w f mode target prompt st).
Proof.
  intros Hhk Himencode.
  assert (Hjpeg : encode_jpeg w f
                  = Raise (RuntimeError (lit "Failed to encode frame as JPEG")))
    by (unfold encode_jpeg; now rewrite Himencode).
  vision_run Hhk Hjpeg. repeat split.
Qed.

(** An answer whose "text" has something left after stripping is logged as
    one entry, "Vision:" and the text on the next line, and is spoken. *)
Theorem vision_reply_spoken (st : MainWindow) (f : frame)
        (mode target prompt host key : str) (jpeg : list Byte.byte)
        (r : Response) (d : list (str * json)) (s : str) :
  pyttsx3_present w = true ->
  _hk st = (Ok (host, key), st) ->
  encode_jpeg w f = Ok jpeg ->
  requests_send w (vision_request w st host key jpeg mode target prompt)
  = Ok r ->
  raise_for_status r = Ok tt ->
  decoded r = inr (JDict d) ->
  dict_get d (lit "text") JNull = JStr s ->
  strip s <> [] ->
  exists st',
    _vision_with_frame w f mode target prompt st = (Ok tt, st')
    /\ log st' = log st ++ [strftime w (clock_reads st) ++ lit " "
                              ++ lit "Vision:" ++ [10] ++ strip s]
    /\ tts_started st' = tts_started st ++ [strip s]
    /\ _last_spoken_text st' = strip s.
Proof.
  intros Htts Hhk Hjpeg Hsend Hstatus Hjson Hfield Hs.
  apply truthy_true in Hs. eexists. split.
  - vision_run Hhk Hjpeg.
    fold (vision_request w st host key jpeg mode target prompt).
    rewrite Hsend. cbv beta iota. rewrite Hstatus. cbv beta iota.
    unfold response_json. rewrite Hjson, (reply_text_field d s Hfield), Hs.
    unfold _log, _speak_async. rewrite Hs, Htts. reflexivity.
  - cbn. repeat split.
Qed.

(** When the gateway cannot be reached, the entry is "Vision error:
    connection failed (...)" with the message of the exception; nothing is
    spoken. *)
Theorem vision_connection_error (st : MainWindow) (f : frame)
        (mode target prompt host key : str) (jpeg : list Byte.byte)
        (msg : str) :
  _hk st = (Ok (host, key), st) ->
  encode_jpeg w f = Ok jpeg ->
  requests_send w (vision_request w st host key jpeg mode target prompt)
  = Raise (ConnectionError msg) ->
  exists st',
    _vision_with_frame w f mode target prompt st = (Ok tt, st')
    /\ log st' = log st ++ [strftime w (clock_reads st) ++ lit " "
                              ++ lit "Vision error: connection failed ("
                              ++ msg ++ lit ")"]
    /\ tts_started st' = tts_started st.
Proof.
  intros Hhk Hjpeg Hsend. eexists. split.
  - vision_run Hhk Hjpeg.
    fold (vision_request w st host key jpeg mode target prompt).
    rewrite Hsend. reflexivity.
  - cbn. repeat split.
Qed.

(** [_vision_with_frame] never lets an exception out, and it sends at most
    one request. *)
Theorem vision_returns (st : MainWindow) (f : frame)
        (mode target prompt : str) :
  exists st',
    _vision_with_frame w f mode target prompt st = (Ok tt, st')
    /\ (http_sent st' = http_sent st
        \/ exists r, http_sent st' = http_sent st ++ [r]).
Proof.
  destruct (_hk st) as [[[host key] | e] st0] eqn:Hhk;
    pose proof (hk_keeps_state st) as Hst; rewrite Hhk in Hst;
    simpl in Hst; subst st0.
  - destruct (encode_jpeg w f) as [jpeg | e] eqn:Hjpeg.
    + vision_run Hhk Hjpeg.
      destruct (requests_send w _) as [r | e];
        [|destruct e; eexists; (split; [reflexivity|]);
          right; eexists; reflexivity].
      destruct (raise_for_status r) as [[] | e];
        [|destruct e; eexists; (split; [reflexivity|]);
          right; eexists; reflexivity].
      destruct (response_json r) as [v | e];
        [|destruct e; eexists; (split; [reflexivity|]);
          right; eexists; reflexivity].
      destruct (reply_text v) as [t | e];
        [|destruct e; eexists; (split; [reflexivity|]);
          right; eexists; reflexivity].
      destruct (truthy t);
        [|eexists; (split; [reflexivity|]); right; eexists; reflexivity].
      unfold _log, _speak_async.
      destruct (negb (truthy t) || negb (pyttsx3_present w));
        eexists; (split; [reflexivity|]); right; eexists; reflexivity.
    + vision_run Hhk Hjpeg.
      destruct e; eexists; (split; [reflexivity|]); left; reflexivity.
  - unfold _vision_with_frame, bind, attempt. rewrite Hhk.
    eexists. split; [reflexivity | left; reflexivity].
Qed.

(** Without a frame, "Vision" and "Snap" only log that there is none: no
    request is sent. *)
Theorem vision_without_frame (st : MainWindow) :
  last_frame st = None ->
  only_logs w st (lit "No frame. Start Camera or Snap first.")
            (_vision_click w st)
  /\ only_logs w st (lit "No frame yet.") (_snap_to_vision w st).
Proof.
  intros Hnone.
  unfold _vision_click, _snap_to_vision, bind, gets. rewrite Hnone.
  split; repeat split.
Qed.

End VisionMore.

(** ** Without pyttsx3; the health check *)

Section Quiet.

Variable w : World.
Hypothesis no_tts : pyttsx3_present w = false.

Ltac quiet := do 2 eexists; split; [reflexivity | split; reflexivity].

Lemma speak_async_quiet (t : str) (st : MainWindow) :
  _speak_async w t st = (Ok tt, st).
Proof.
  unfold _speak_async. rewrite no_tts. now rewrite orb_true_r.
Qed.

Lemma scan_prefixed_quiet (ls : list str) (st : MainWindow) :
  exists b, scan_prefixed w ls st = (Ok b, st).
Proof.
  induction ls as [|line rest IH]; [now exists false|].
  cbn [scan_prefixed]. cbv zeta.
  destruct (startswith (strip line) (lit "Assistant:")
            || startswith (strip line) (lit "Vision:")) eqn:Hp; [|exact IH].
  assert (exists r, strip line = lit "Assistant:" ++ r
                    \/ strip line = lit "Vision:" ++ r) as [r Hs].
  { apply orb_true_iff in Hp. destruct Hp as [Hp | Hp];
      apply startswith_inv in Hp; destruct Hp as [r Hr]; exists r; tauto. }
  destruct (prefix_content _ _ Hs) as [_ Hsplit]. rewrite Hsplit.
  destruct (truthy (strip r)); [|exact IH].
  exists true. unfold bind, ret. now rewrite speak_async_quiet.
Qed.

Lemma scan_nonblank_quiet (ls : list str) (st : MainWindow) :
  exists b, scan_nonblank w ls st = (Ok b, st).
Proof.
  induction ls as [|line rest IH]; [now exists false|].
  cbn [scan_nonblank]. cbv zeta.
  destruct (truthy (strip line)); [|exact IH].
  exists true. unfold bind, ret. now rewrite speak_async_quiet.
Qed.

(** Where the import of pyttsx3 failed, no action starts speech or changes
    the last spoken text: not "Speak last", not a chat send, not a vision
    request. *)
Theorem no_speech_without_pyttsx3 (st : MainWindow) (f : frame)
        (mode target prompt : str) :
  (tts_started (snd (_speak_last_text w st)) = tts_started st
   /\ _last_spoken_text (snd (_speak_last_text w st)) = _last_spoken_text st)
  /\ (tts_started (snd (_send_chat w st)) = tts_started st
      /\ _last_spoken_text (snd (_send_chat w st)) = _last_spoken_text st)
  /\ (tts_started (snd (_vision_with_frame w f mode target prompt st))
      = tts_started st
      /\ _last_spoken_text (snd (_vision_with_frame w f mode target prompt st))
         = _last_spoken_text st).
Proof.
  assert (Hlast : exists res st',
             _speak_last_text w st = (res, st')
             /\ tts_started st' = tts_started st
             /\ _last_spoken_text st' = _last_spoken_text st).
  { unfold _speak_last_text, bind at 1, gets at 1.
    destruct (truthy (_last_spoken_text st)).
    - rewrite speak_async_quiet. quiet.
    - unfold bind at 1, gets at 1. unfold bind at 1.
      destruct (scan_prefixed_quiet (rev (splitlines (toPlainText st))) st)
        as [b ->].
      destruct b; [quiet|]. unfold bind at 1.
      destruct (scan_nonblank_quiet (rev (splitlines (toPlainText st))) st)
        as [b ->].
      destruct b; quiet. }
  assert (Hchat : exists res st',
             _send_chat w st = (res, st')
             /\ tts_started st' = tts_started st
             /\ _last_spoken_text st' = _last_spoken_text st).
  { destruct (_hk st) as [[[host key] | e] st0] eqn:Hhk;
      pose proof (hk_keeps_state st) as Hst; rewrite Hhk in Hst;
      simpl in Hst; subst st0.
    - destruct (strip (chat_input st)) as [|c t] eqn:Htext.
      + rewrite (chat_blank_input_holds w st host key Hhk Htext). quiet.
      + assert (Hne : strip (chat_input st) <> [])
          by (rewrite Htext; discriminate).
        rewrite (send_chat_posts w st host key Hhk Hne).
        destruct (requests_send w _) as [r | e]; [|destruct e; quiet].
        destruct (raise_for_status r); [|quiet].
        destruct (response_json r) as [v | e]; [|quiet].
        destruct (reply_text v) as [t' | e]; [|quiet].
        destruct (truthy t'); [|quiet].
        unfold bind, _log. rewrite speak_async_quiet. quiet.
    - unfold _send_chat, bind, attempt. rewrite Hhk. quiet. }
  assert (Hvision : exists res st',
             _vision_with_frame w f mode target prompt st = (res, st')
             /\ tts_started st' = tts_started st
             /\ _last_spoken_text st' = _last_spoken_text st).
  { destruct (_hk st) as [[[host key] | e] st0] eqn:Hhk;
      pose proof (hk_keeps_state st) as Hst; rewrite Hhk in Hst;
      simpl in Hst; subst st0.
    - unfold _vision_with_frame, bind at 1, attempt. rewrite Hhk.
      unfold try_except, bind at 1, _post_vision, send.
      unfold bind at 1, lift at 1.
      destruct (encode_jpeg w f) as [jpeg | e]; [|destruct e; quiet].
      unfold bind, gets, modify, lift. cbv beta iota.
      destruct (requests_send w _) as [r | e]; [|destruct e; quiet].
      destruct (raise_for_status r) as [[] | e]; [|destruct e; quiet].
      destruct (response_json r) as [v | e]; [|destruct e; quiet].
      destruct (reply_text v) as [t | e]; [|destruct e; quiet].
      destruct (truthy t); [|quiet].
      unfold _log. rewrite speak_async_quiet. quiet.
    - unfold _vision_with_frame, bind, attempt. rewrite Hhk. quiet. }
  destruct Hlast as (r1 & s1 & -> & ? & ?).
  destruct Hchat as (r2 & s2 & -> & ? & ?).
  destruct Hvision as (r3 & s3 & -> & ? & ?).
  simpl. auto.
Qed.

End Quiet.

(** "Test" logs what /health answers as it is, error statuses included:
    the status code and the body go into one "Health: ..." entry, after one
    GET that carries no key. *)
Theorem health_reports_response (w : World) (st : MainWindow)
        (host key : str) (r : Response) :
  _hk st = (Ok (host, key), st) ->
  requests_send w (GetHealth (host ++ lit "/health")) = Ok r ->
  exists st',
    _test_health w st = (Ok tt, st')
    /\ log st' = log st ++ [strftime w (clock_reads st) ++ lit " "
                              ++ lit "Health: " ++ str_of_int (status_code r)
                              ++ lit " " ++ text r]
    /\ http_sent st' = http_sent st ++ [GetHealth (host ++ lit "/health")].
Proof.
  intros Hhk Hsend. eexists. split.
  - unfold _test_health, bind at 1, attempt. rewrite Hhk.
    unfold try_except, send, bind, modify, lift. rewrite Hsend. reflexivity.
  - cbn. repeat split.
Qed.

(** When the GET fails, the entry is "Health check error: " and the
    message; "Test" never lets an exception out. *)
Theorem health_returns (w : World) (st : MainWindow) :
  exists st', _test_health w st = (Ok tt, st').
Proof.
  destruct (_hk st) as [[[host key] | e] st0] eqn:Hhk;
    unfold _test_health, bind at 1, attempt; rewrite Hhk.
  - unfold try_except, send, bind, modify, lift.
    destruct (requests_send w _); eexists; reflexivity.
  - eexists; reflexivity.
Qed.

(** ** Settings, the rest of it *)

Section SettingsMore.

Variable codec : Settings.JsonCodec.

Lemma forallb_fields (d : list (str * json)) :
  Forall (fun kv => In (fst kv) Settings.field_names) d ->
  forallb (fun kv => Settings.is_field (fst kv)) d = true.
Proof.
  intros Hd. apply forallb_forall. rewrite Forall_forall in Hd.
  intros kv Hin. apply is_field_In. now apply Hd.
Qed.

(** A settings file that is a JSON object with some of the three keys and no
    other is loaded field by field: a key that is missing gives the empty
    string, and a value is taken as it is, whatever its type. *)
Theorem load_reads_fields (c : str) (d : list (str * json)) :
  Settings.loads codec c = Ok (JDict d) ->
  Forall (fun kv => In (fst kv) Settings.field_names) d ->
  Settings.load codec (Settings.Content c)
  = Ok (Settings.mk (dict_get d (lit "host") (JStr []))
                    (dict_get d (lit "api_key") (JStr []))
                    (dict_get d (lit "voice_name") (JStr []))).
Proof.
  intros Hloads Hkeys.
  unfold Settings.load, Settings.load_file.
  cbn [Settings.exists_ Settings.read_text]. rewrite Hloads.
  unfold Settings.construct. now rewrite (forallb_fields d Hkeys).
Qed.

Variable w : World.
Variable o : Settings.write_outcome.


(** "Save" with a blank host field overwrites the saved host with the empty
    string, whether or not the file gets written: whatever was saved
    before, the next [_hk] raises. *)
Theorem save_blank_host_breaks_hk (st : MainWindow)
        (f : Settings.settings_file) :
  strip (host_edit st) = [] ->
  exists r st' f',
    _save_settings codec o w st f = (r, st', f')
    /\ Settings.host (settings st') = []
    /\ _hk st' = (Raise (RuntimeError (lit "Host or API key missing.")), st').
Proof.
  intros Hblank. unfold _save_settings.
  destruct (Settings.save codec o _ f) as [[[] | e] f1];
    do 3 eexists; (split; [reflexivity|]);
    (split; [cbn; exact Hblank|]);
    unfold _hk;
    cbn [settings host_edit key_edit with_log with_settings _log snd
         Settings.host Settings.api_key];
    rewrite Hblank; reflexivity.
Qed.


End SettingsMore.

(** ** Microphone and camera *)

Section MicAndCamera.

Variable w : World.

Lemma hk_after_log (st : MainWindow) (msg : str) (hk : str * str) :
  _hk st = (Ok hk, st) ->
  _hk (snd (_log w msg st)) = (Ok hk, snd (_log w msg st)).
Proof.
  unfold _hk. cbn [_log snd host_edit key_edit settings with_log].
  destruct (negb (truthy _) || negb (truthy _)); [discriminate|].
  intros H. injection H as <-. reflexivity.
Qed.

(** What is heard goes to chat unless the mic target, lowered, is "vision":
    after the "Listening" entry the transcript replaces the chat input and
    is sent as if typed. *)
Theorem mic_to_chat (ears : Ears) (mic_target t : str) (st : MainWindow) :
  sr_present ears = true ->
  hear ears = Transcript t ->
  lower w (or_else mic_target (lit "chat")) <> lit "vision" ->
  _chat_from_mic w ears mic_target st
  = _send_chat w (with_chat_input t (snd (_log w listening st))).
Proof.
  intros Hsr Hheard Htarget.
  unfold _chat_from_mic. rewrite Hsr, Hheard. cbn [negb].
  destruct (str_eqb _ (lit "vision")) eqn:Heq;
    [apply str_eqb_eq in Heq; contradiction|].
  reflexivity.
Qed.

(** When speech recognition is missing, the microphone fails, or nothing is
    recognised, [_chat_from_mic] only logs: no request, no speech, and the
    chat input stays as it was. *)
Theorem mic_nothing_heard (ears : Ears) (mic_target : str) (st : MainWindow) :
  sr_present ears = false
  \/ ((forall t, hear ears <> Transcript t)
      /\ (forall e, hear ears <> RecognizerFailed e)) ->
  exists st',
    _chat_from_mic w ears mic_target st = (Ok tt, st')
    /\ http_sent st' = http_sent st
    /\ tts_started st' = tts_started st
    /\ chat_input st' = chat_input st.
Proof.
  intros Hnothing. unfold _chat_from_mic.
  destruct (sr_present ears); [|eexists; repeat split].
  destruct Hnothing as [Hsr | [Hnot Hrec]]; [discriminate|].
  cbn [negb].
  destruct (hear ears) as [e | e | e | | msg | e | t];
    try (eexists; repeat split).
  - now destruct (Hrec e).
  - now destruct (Hnot t).
Qed.

(** With the mic target "vision" and a frame at hand, what is heard is the
    prompt of the vision request. *)
Theorem mic_to_vision (ears : Ears) (mic_target t : str) (st : MainWindow)
        (f : frame) (host key : str) (jpeg : list Byte.byte) :
  sr_present ears = true ->
  hear ears = Transcript t ->
  t <> [] ->
  lower w (or_else mic_target (lit "chat")) = lit "vision" ->
  last_frame st = Some f ->
  _hk st = (Ok (host, key), st) ->
  encode_jpeg w f = Ok jpeg ->
  last_prompt (snd (_chat_from_mic w ears mic_target st)) = Some t.
Proof.
  intros Hsr Hheard Ht Htarget Hframe Hhk Hjpeg.
  unfold _chat_from_mic. rewrite Hsr, Hheard, Htarget. cbn [negb].
  change (str_eqb (lit "vision") (lit "vision")) with true. cbv iota.
  unfold bind at 1. unfold _log at 1. cbv beta iota zeta.
  unfold bind at 1, gets at 1. cbn [last_frame with_log]. rewrite Hframe.
  unfold bind at 1, gets at 1. unfold bind at 1, gets at 1.
  apply (vision_explicit_prompt_holds w (snd (_log w listening st)) f _ _ t
                                host key jpeg);
    [now apply hk_after_log | exact Hjpeg | exact Ht].
Qed.

(** Stopping the camera forgets the last frame: right after, "Vision" only
    logs that there is no frame. *)
Theorem camera_stop_forgets_frame (eyes : Eyes) (st : MainWindow)
        (cam : Camera) :
  cv2_present eyes = true ->
  cap cam = true ->
  exists st' cam',
    _toggle_camera w eyes st cam = (Ok tt, st', cam')
    /\ last_frame st' = None
    /\ cap cam' = false /\ timer_active cam' = false
    /\ only_logs w st' (lit "No frame. Start Camera or Snap first.")
                 (_vision_click w st').
Proof.
  intros Hcv Hcap. unfold _toggle_camera. rewrite Hcv, Hcap. cbn [negb].
  do 2 eexists. split; [reflexivity|]. repeat split.
Qed.

(** [_grab_frame] replaces the last frame only by a frame that was really
    read: with no capture, a failed read or no frame, window and preview
    stay as they are; with a frame read, it is the last frame even if the
    conversion for the preview then fails. *)
Theorem grab_frame_last_frame (eyes : Eyes) (st : MainWindow) (cam : Camera) :
  (cap cam = false
   \/ (exists fr, read_frame eyes = Ok (false, fr))
   \/ (exists ok, read_frame eyes = Ok (ok, None)) ->
   _grab_frame eyes st cam = (Ok tt, st, cam))
  /\ (forall f, cap cam = true -> read_frame eyes = Ok (true, Some f) ->
                last_frame (snd (fst (_grab_frame eyes st cam))) = Some f).
Proof.
  unfold _grab_frame. split.
  - intros [Hcap | [[fr Hread] | [ok Hread]]].
    + now rewrite Hcap.
    + destruct (cap cam); [|reflexivity]. now rewrite Hread.
    + destruct (cap cam); [|reflexivity]. rewrite Hread. now destruct ok.
  - intros f Hcap Hread. rewrite Hcap, Hread. cbn [negb].
    now destruct (cvt_color eyes f).
Qed.

End MicAndCamera.

(** ** Speech workers, the rest of it *)

Module TtsMore.

Import Tts TtsFacts.

Lemma calls_of_app (i : nat) (l l' : list (nat * op)) :
  calls_of i (l ++ l') = calls_of i l ++ calls_of i l'.
Proof. unfold calls_of. now rewrite filter_app, map_app. Qed.

Lemma calls_of_own (i : nat) (o : op) : calls_of i [(i, o)] = [o].
Proof. unfold calls_of. simpl. now rewrite Nat.eqb_refl. Qed.

Lemma calls_of_other (i j : nat) (o : op) :
  j <> i -> calls_of j [(i, o)] = [].
Proof.
  intros Hne. unfold calls_of. simpl.
  destruct (Nat.eqb_spec i j); [congruence | reflexivity].
Qed.

Lemma calls_of_none (i : nat) (l : list (nat * op)) :
  ~ In i (map fst l) -> calls_of i l = [].
Proof.
  induction l as [|[j o] l IH]; intros Hin; [reflexivity|].
  unfold calls_of in *. simpl in *.
  destruct (Nat.eqb_spec j i); [tauto|]. apply IH. tauto.
Qed.

Lemma calls_of_all (i : nat) (l : list (nat * op)) :
  (forall e, In e l -> fst e = i) -> calls_of i l = map snd l.
Proof.
  induction l as [|e l IH]; intros Hall; [reflexivity|].
  unfold calls_of in *. simpl. rewrite (Hall e) by now left.
  rewrite Nat.eqb_refl. simpl. f_equal. apply IH.
  intros e' He'. apply Hall. now right.
Qed.

Lemma order_init : tts_order init.
Proof. constructor; simpl; [tauto | reflexivity]. Qed.

(** A step of thread [i] that moves it to [p] and makes the calls [evs]. *)
Lemma order_move (s : state) (i : nat) (p : pc) (l : bool)
      (evs : list (nat * op)) (errs : list nat) :
  tts_order s ->
  (i < started s)%nat ->
  (forall e, In e evs -> fst e = i) ->
  (calls_at (at_pc s i) (text_of s i) (calls_of i (engine s)) ->
   calls_at p (text_of s i) (calls_of i (engine s) ++ map snd evs)) ->
  tts_order (mkState l (started s) (upd (at_pc s) i p) (text_of s)
                     (engine s ++ evs) errs).
Proof.
  intros [Hstarted Hcalls] Hlt Hevs Hnext.
  pose proof (calls_of_all i evs Hevs) as Hown.
  assert (Hother : forall j, j <> i -> calls_of j evs = []).
  { intros j Hne. apply calls_of_none. intros Hin.
    apply in_map_iff in Hin. destruct Hin as (e & <- & He).
    apply Hne. now apply Hevs. }
  constructor; cbn [started engine at_pc text_of].
  - intros j Hj. rewrite map_app, in_app_iff in Hj.
    destruct Hj as [Hj | Hj]; [auto|].
    apply in_map_iff in Hj. destruct Hj as (e & <- & He).
    now rewrite (Hevs e He).
  - intros j. destruct (Nat.eq_dec j i) as [-> | Hne].
    + rewrite upd_same, calls_of_app, Hown. apply Hnext, Hcalls.
    + rewrite upd_other, calls_of_app, (Hother j Hne), app_nil_r by exact Hne.
      apply Hcalls.
Qed.

(** What a worker inside the [with] block has called is a beginning of a
    full run. *)
Lemma calls_at_prefix (p : pc) (t : str) (l : list op) :
  calls_at p t l ->
  exists vc n, voice_calls vc /\ l = firstn n (script vc t).
Proof.
  destruct p; simpl.
  - intros ->. exists [], 0%nat. split; [constructor | reflexivity].
  - intros ->. exists [], 0%nat. split; [constructor | reflexivity].
  - intros ->. exists [], 1%nat. split; [constructor | reflexivity].
  - intros ->. exists [EGetVoices], 2%nat. split; [constructor | reflexivity].
  - intros (vc & Hvc & ->). exists vc, (1 + List.length vc)%nat.
    split; [exact Hvc | now destruct Hvc].
  - intros (vc & Hvc & ->). exists vc, (2 + List.length vc)%nat.
    split; [exact Hvc | now destruct Hvc].
  - intros (vc & Hvc & ->). exists vc, (3 + List.length vc)%nat.
    split; [exact Hvc | now destruct Hvc].
  - auto.
Qed.

Ltac moved s i p l evs errs Hord Hlt Hpc :=
  refine (order_move s i p l evs errs Hord Hlt _ _);
  [ intros e He; simpl in He; intuition (subst; reflexivity)
  | rewrite Hpc; cbn [calls_at map snd] ].

Lemma order_step (s s' : state) : tts_order s -> step s s' -> tts_order s'.
Proof.
  intros Hord Hstep.
  destruct Hstep as [s text | s i Hlt Hpc Hfree | s i Hlt Hpc | s i Hlt Hpc
                     | s i Hlt Hpc | s i id Hlt Hpc
                     | s i Hlt Hpc | s i Hlt Hpc | s i Hlt Hpc | s i Hlt Hpc
                     | s i Hlt Hin].
  - destruct Hord as [Hstarted Hcalls].
    constructor; cbn [spawn started engine at_pc text_of].
    + intros j Hj. apply Hstarted in Hj. lia.
    + intros j. destruct (Nat.eq_dec j (started s)) as [-> | Hne].
      * rewrite upd_same. cbn [calls_at].
        apply calls_of_none. intros Hin. apply Hstarted in Hin. lia.
      * rewrite !upd_other by exact Hne. apply Hcalls.
  - pose proof (order_move s i InitEngine true [] (tts_errors s) Hord Hlt)
      as H.
    rewrite (app_nil_r (engine s)) in H. apply H; [intros e []|].
    cbn [map]. rewrite app_nil_r, Hpc. cbn [calls_at]. auto.
  - moved s i SelectVoice (locked s) [(i, EInit)] (tts_errors s) Hord Hlt Hpc.
    now intros ->.
  - pose proof (order_move s i Say (locked s) [] (tts_errors s) Hord Hlt)
      as H.
    rewrite (app_nil_r (engine s)) in H. apply H; [intros e []|].
    cbn [map]. rewrite app_nil_r, Hpc. cbn [calls_at]. intros ->.
    exists []. split; [constructor | reflexivity].
  - moved s i PickVoice (locked s) [(i, EGetVoices)] (tts_errors s)
          Hord Hlt Hpc.
    now intros ->.
  - moved s i Say (locked s) [(i, ESetVoice id)] (tts_errors s) Hord Hlt Hpc.
    intros ->. exists [EGetVoices; ESetVoice id].
    split; [constructor | reflexivity].
  - pose proof (order_move s i Say (locked s) [] (tts_errors s) Hord Hlt)
      as H.
    rewrite (app_nil_r (engine s)) in H. apply H; [intros e []|].
    cbn [map]. rewrite app_nil_r, Hpc. cbn [calls_at]. intros ->.
    exists [EGetVoices]. split; [constructor | reflexivity].
  - moved s i RunAndWait (locked s) [(i, ESay (text_of s i))] (tts_errors s)
          Hord Hlt Hpc.
    intros (vc & Hvc & ->). exists vc. split; [exact Hvc | reflexivity].
  - moved s i StopEngine (locked s) [(i, ERunAndWait)] (tts_errors s)
          Hord Hlt Hpc.
    intros (vc & Hvc & ->). exists vc. split; [exact Hvc|].
    cbn [app]. now rewrite <- app_assoc.
  - moved s i Finished false [(i, EStop)] (tts_errors s) Hord Hlt Hpc.
    intros (vc & Hvc & ->). exists vc, (4 + List.length vc)%nat.
    split; [exact Hvc | now destruct Hvc].
  - pose proof (order_move s i Finished false [] (tts_errors s ++ [i])
                           Hord Hlt) as H.
    rewrite (app_nil_r (engine s)) in H. apply H; [intros e []|].
    cbn [map]. rewrite app_nil_r. intros Hat.
    cbn [calls_at]. now apply (calls_at_prefix (at_pc s i)).
Qed.

Lemma reachable_order (s : state) : reachable s -> tts_order s.
Proof.
  induction 1 as [|s s' _ IH Hstep]; [exact order_init|].
  exact (order_step s s' IH Hstep).
Qed.

End TtsMore.

(** In every reachable state the engine calls of a worker are what its
    place in [run] says, and so a beginning of: init, the calls of the
    voice lookup (none, the voices asked for, or that and a voice set), say
    with its own text, runAndWait, stop.  Nothing is said before the engine
    is initialised, nothing is said twice, and a worker never says the text
    of another. *)
Theorem tts_calls_in_order (s : Tts.state) (i : nat) :
  Tts.reachable s ->
  calls_at (Tts.at_pc s i) (Tts.text_of s i) (calls_of i (Tts.engine s))
  /\ exists vc n,
      voice_calls vc
      /\ calls_of i (Tts.engine s) = firstn n (script vc (Tts.text_of s i)).
Proof.
  intros Hreach.
  pose proof (ord_calls s (TtsMore.reachable_order s Hreach) i) as Hat.
  split; [exact Hat|].
  exact (TtsMore.calls_at_prefix _ _ _ Hat).
Qed.

Module TtsProgress.

Import Tts TtsFacts.

Lemma held_init : tts_held init.
Proof. intros H. discriminate H. Qed.

Lemma held_step (s s' : state) : tts_held s -> step s s' -> tts_held s'.
Proof.
  intros Hheld Hstep.
  destruct Hstep as [s text | s i Hlt Hpc Hfree | s i Hlt Hpc | s i Hlt Hpc
                     | s i Hlt Hpc | s i id Hlt Hpc
                     | s i Hlt Hpc | s i Hlt Hpc | s i Hlt Hpc | s i Hlt Hpc
                     | s i Hlt Hin];
    intros Hlocked; cbn in Hlocked; try discriminate Hlocked;
    try (exists i; cbn; rewrite upd_same; split; [exact Hlt | reflexivity]).
  destruct (Hheld Hlocked) as (j & Hj & Hin).
  exists j. cbn. split; [lia|].
  rewrite upd_other by lia. exact Hin.
Qed.

Lemma reachable_held (s : state) : reachable s -> tts_held s.
Proof.
  induction 1 as [|s s' _ IH Hstep]; [exact held_init|].
  exact (held_step s s' IH Hstep).
Qed.

(** The worker inside the [with] block can always go on. *)
Lemma holder_moves (s : state) (j : nat) :
  (j < started s)%nat -> in_lock (at_pc s j) = true -> can_move s j.
Proof.
  intros Hlt Hin. unfold can_move.
  destruct (at_pc s j) eqn:Hpc; try discriminate Hin.
  - eexists. split; [apply (step_init s j Hlt Hpc)|].
    cbn. rewrite upd_same. discriminate.
  - eexists. split; [apply (step_no_voice s j Hlt Hpc)|].
    cbn. rewrite upd_same. discriminate.
  - eexists. split; [apply (step_no_match s j Hlt Hpc)|].
    cbn. rewrite upd_same. discriminate.
  - eexists. split; [apply (step_say s j Hlt Hpc)|].
    cbn. rewrite upd_same. discriminate.
  - eexists. split; [apply (step_run s j Hlt Hpc)|].
    cbn. rewrite upd_same. discriminate.
  - eexists. split; [apply (step_stop s j Hlt Hpc)|].
    cbn. rewrite upd_same. discriminate.
Qed.

End TtsProgress.

(** The workers cannot get stuck: in every reachable state with a worker
    that has not finished, some worker can take its next step (the one that
    holds the lock, or, when the lock is free, the one that waits). *)
Theorem tts_no_deadlock (s : Tts.state) (i : nat) :
  Tts.reachable s ->
  (i < Tts.started s)%nat ->
  Tts.at_pc s i <> Tts.Finished ->
  exists j, (j < Tts.started s)%nat /\ can_move s j.
Proof.
  intros Hreach Hlt Hpc.
  pose proof (TtsFacts.reachable_inv s Hreach) as Hinv.
  destruct (Tts.locked s) eqn:Hlocked.
  - destruct (TtsProgress.reachable_held s Hreach Hlocked) as (j & Hj & Hin).
    exists j. split; [exact Hj | now apply TtsProgress.holder_moves].
  - destruct (Tts.in_lock (Tts.at_pc s i)) eqn:Hin.
    + apply (inv_locked s Hinv) in Hin. congruence.
    + exists i. split; [exact Hlt|].
      assert (Hstart : Tts.at_pc s i = Tts.Start)
        by (destruct (Tts.at_pc s i); try discriminate Hin; congruence).
      eexists. split; [apply (Tts.step_acquire s i Hlt Hstart Hlocked)|].
      cbn. rewrite TtsFacts.upd_same, Hstart. discriminate.
Qed.

Lemma tts_calls_in_order_witness :
  calls_of 0 (Tts.engine Sample.two_workers) = [Tts.EInit].
Proof.
  exact (proj1 (tts_calls_in_order Sample.two_workers 0
                                   two_workers_reachable)).
Defined.

Lemma tts_no_deadlock_witness :
  exists j, (j < 2)%nat /\ can_move Sample.two_workers j.
Proof.
  refine (tts_no_deadlock Sample.two_workers 1 two_workers_reachable _ _).
  - simpl. lia.
  - discriminate.
Defined.

(** ** The further properties at sample inputs *)

Lemma vision_explicit_prompt_witness :
  last_prompt
    (snd (_vision_with_frame (Sample.world true Sample.unreachable) []
                             (lit "navigate") (lit "the door")
                             (lit "what is this") Scene.typing))
  = Some (lit "what is this").
Proof.
  exact (vision_explicit_prompt (Sample.world true Sample.unreachable)
           Scene.typing [] (lit "navigate") (lit "the door")
           (lit "what is this") (lit "https://gw") (lit "k") []
           eq_refl eq_refl ltac:(discriminate)).
Defined.

Lemma vision_unknown_mode_witness :
  last_prompt
    (snd (_vision_with_frame (Sample.world true Sample.unreachable) []
                             (lit "colours") [] [] Scene.typing))
  = Some (lit "Describe the scene briefly for navigation.").
Proof.
  refine (vision_unknown_mode (Sample.world true Sample.unreachable)
            Scene.typing [] (lit "colours") [] (lit "https://gw") (lit "k") []
            eq_refl eq_refl _).
  intros [H | [H | [H | [H | []]]]]; discriminate H.
Defined.

Lemma vision_mode_case_witness :
  http_sent
    (snd (_vision_with_frame (Sample.world true Sample.unreachable) []
                             (lit "NAVIGATE") (lit "the door") []
                             Scene.typing))
  = http_sent
      (snd (_vision_with_frame (Sample.world true Sample.unreachable) []
                               (map ascii_lower (lit "NAVIGATE"))
                               (lit "the door") [] Scene.typing)).
Proof.
  exact (vision_mode_case (Sample.world true Sample.unreachable)
           Scene.typing [] (lit "NAVIGATE") (lit "the door") []
           (lit "https://gw") (lit "k") [] eq_refl eq_refl eq_refl).
Defined.

Lemma vision_encode_failure_witness :
  only_logs Scene.blind Scene.typing
            (lit "Vision error: Failed to encode frame as JPEG")
            (_vision_with_frame Scene.blind [] (lit "scene") [] []
                                Scene.typing).
Proof.
  exact (vision_encode_failure Scene.blind Scene.typing [] (lit "scene") [] []
                               (lit "https://gw") (lit "k") []
                               eq_refl eq_refl).
Defined.

Lemma vision_reply_spoken_witness :
  exists st',
    _vision_with_frame (Scene.answering Scene.vision_seen) []
                       (lit "scene") [] [] Scene.typing = (Ok tt, st')
    /\ tts_started st' = [lit "a door"].
Proof.
  destruct (vision_reply_spoken (Scene.answering Scene.vision_seen)
              Scene.typing [] (lit "scene") [] [] (lit "https://gw") (lit "k")
              [] Scene.vision_seen [(lit "text", JStr (lit " a door "))]
              (lit " a door ") eq_refl eq_refl eq_refl eq_refl eq_refl
              eq_refl eq_refl ltac:(discriminate))
    as (st' & Hrun & _ & Hspoken & _).
  exists st'. split; assumption.
Defined.

Lemma vision_connection_error_witness :
  exists st',
    _vision_with_frame (Sample.world true Sample.unreachable) []
                       (lit "scene") [] [] Scene.typing = (Ok tt, st')
    /\ tts_started st' = [].
Proof.
  destruct (vision_connection_error (Sample.world true Sample.unreachable)
              Scene.typing [] (lit "scene") [] [] (lit "https://gw") (lit "k")
              [] (lit "Max retries exceeded") eq_refl eq_refl eq_refl)
    as (st' & Hrun & _ & Hspoken).
  exists st'. split; assumption.
Defined.

Lemma vision_without_frame_witness :
  only_logs (Sample.world true Sample.unreachable) Scene.typing
            (lit "No frame. Start Camera or Snap first.")
            (_vision_click (Sample.world true Sample.unreachable)
                           Scene.typing).
Proof.
  exact (proj1 (vision_without_frame (Sample.world true Sample.unreachable)
                                     Scene.typing eq_refl)).
Defined.

Lemma no_speech_without_pyttsx3_witness :
  tts_started
    (snd (_send_chat (Sample.world false (Ok Sample.hello)) Scene.typing))
  = [].
Proof.
  exact (proj1 (proj1 (proj2 (no_speech_without_pyttsx3
                                (Sample.world false (Ok Sample.hello))
                                eq_refl Scene.typing [] [] [] [])))).
Defined.

Lemma health_reports_response_witness :
  exists st',
    _test_health (Scene.answering Scene.chat_refused) Scene.typing
    = (Ok tt, st')
    /\ log st' = [lit "[12:00:00] Health: 401 bad key"].
Proof.
  destruct (health_reports_response (Scene.answering Scene.chat_refused)
              Scene.typing (lit "https://gw") (lit "k") Scene.chat_refused
              eq_refl eq_refl)
    as (st' & Hrun & Hlog & _).
  exists st'. split; assumption.
Defined.

Lemma load_reads_fields_witness :
  Settings.load (Json.python Scene.json_env)
                (Settings.Content Scene.host_only_text)
  = Ok (Settings.mk (JStr (lit "x")) (JStr []) (JStr [])).
Proof.
  refine (load_reads_fields (Json.python Scene.json_env) Scene.host_only_text
                            [(lit "host", JStr (lit "x"))] eq_refl _).
  constructor; [now left | constructor].
Defined.


Lemma save_blank_host_breaks_hk_witness :
  _hk Scene.wiped = (Ok (lit "https://gw", lit "k"), Scene.wiped)
  /\ exists r st' f',
      _save_settings (Json.python Scene.json_env) Settings.Written
                     (Sample.world true Sample.unreachable)
                     Scene.wiped Settings.Missing = (r, st', f')
      /\ _hk st' = (Raise (RuntimeError (lit "Host or API key missing.")), st').
Proof.
  split; [reflexivity|].
  destruct (save_blank_host_breaks_hk (Json.python Scene.json_env)
              (Sample.world true Sample.unreachable) Settings.Written
              Scene.wiped Settings.Missing eq_refl)
    as (r & st' & f' & Hrun & _ & Hhk).
  exists r, st', f'. split; assumption.
Defined.

Lemma mic_to_chat_witness :
  _chat_from_mic (Scene.answering Scene.padded_hello)
                 (Scene.ears (Transcript (lit "hi"))) [] (Sample.window [] [])
  = _send_chat (Scene.answering Scene.padded_hello)
               (with_chat_input (lit "hi")
                  (snd (_log (Scene.answering Scene.padded_hello) listening
                             (Sample.window [] [])))).
Proof.
  exact (mic_to_chat (Scene.answering Scene.padded_hello)
                     (Scene.ears (Transcript (lit "hi"))) [] (lit "hi")
                     (Sample.window [] []) eq_refl eq_refl
                     ltac:(discriminate)).
Defined.

Lemma mic_nothing_heard_witness :
  exists st',
    _chat_from_mic (Scene.answering Scene.padded_hello)
                   (Scene.ears UnknownValue) [] Scene.typing = (Ok tt, st')
    /\ http_sent st' = []
    /\ tts_started st' = []
    /\ chat_input st' = lit "hi".
Proof.
  refine (mic_nothing_heard (Scene.answering Scene.padded_hello)
                            (Scene.ears UnknownValue) [] Scene.typing _).
  right. split; intros x; discriminate.
Defined.

Lemma mic_to_vision_witness :
  last_prompt
    (snd (_chat_from_mic (Sample.world true Sample.unreachable)
                         (Scene.ears (Transcript (lit "what is this")))
                         (lit "Vision") Scene.seeing))
  = Some (lit "what is this").
Proof.
  exact (mic_to_vision (Sample.world true Sample.unreachable)
                       (Scene.ears (Transcript (lit "what is this")))
                       (lit "Vision") (lit "what is this") Scene.seeing []
                       (lit "https://gw") (lit "k") []
                       eq_refl eq_refl ltac:(discriminate) eq_refl eq_refl
                       eq_refl eq_refl).
Defined.

Lemma camera_stop_forgets_frame_witness :
  exists st' cam',
    _toggle_camera (Sample.world true Sample.unreachable) Scene.eyes
                   Scene.seeing Scene.camera_on = (Ok tt, st', cam')
    /\ last_frame st' = None.
Proof.
  destruct (camera_stop_forgets_frame (Sample.world true Sample.unreachable)
              Scene.eyes Scene.seeing Scene.camera_on eq_refl eq_refl)
    as (st' & cam' & Hrun & Hframe & _).
  exists st', cam'. split; assumption.
Defined.

Lemma grab_frame_last_frame_witness :
  _grab_frame Scene.eyes Scene.seeing Scene.camera_on
  = (Ok tt, Scene.seeing, Scene.camera_on).
Proof.
  apply (proj1 (grab_frame_last_frame Scene.eyes Scene.seeing
                                      Scene.camera_on)).
  right. left. exists None. reflexivity.
Defined.


(** ** Settings through the JSON codec

    [json.loads] reads back the strings [json.dumps] wrote, except that the
    escapes of a high and a low surrogate next to each other are read as one
    character. *)

Module JsonFacts.

Import Json.

Lemma hex_value_digit (d : N) : d < 16 -> hex_value (hex_digit d) = Some d.
Proof.
  intros Hd. unfold hex_digit, hex_value.
  destruct (N.ltb_spec d 10) as [Hlt | Hge].
  - assert (H1 : (48 <=? 48 + d) = true) by (apply N.leb_le; lia).
    assert (H2 : (48 + d <=? 57) = true) by (apply N.leb_le; lia).
    rewrite H1, H2. cbn [andb]. f_equal. lia.
  - assert (H1 : (87 + d <=? 57) = false) by (apply N.leb_gt; lia).
    assert (H2 : (97 <=? 87 + d) = true) by (apply N.leb_le; lia).
    assert (H3 : (87 + d <=? 102) = true) by (apply N.leb_le; lia).
    rewrite H1, H2, H3, andb_false_r. cbn [andb]. f_equal. lia.
Qed.

Lemma hex4_value_hex4 (n : N) :
  n < 65536 ->
  hex4_value (hex_digit (n / 4096 mod 16)) (hex_digit (n / 256 mod 16))
             (hex_digit (n / 16 mod 16)) (hex_digit (n mod 16))
  = Some n.
Proof.
  intros Hn. unfold hex4_value.
  rewrite !hex_value_digit by (apply N.mod_lt; discriminate).
  f_equal.
  pose proof (N.div_mod n 16 ltac:(discriminate)) as H0.
  pose proof (N.div_mod (n / 16) 16 ltac:(discriminate)) as H1.
  pose proof (N.div_mod (n / 256) 16 ltac:(discriminate)) as H2.
  replace (n / 16 / 16) with (n / 256) in H1
    by (rewrite N.Div0.div_div; reflexivity).
  replace (n / 256 / 16) with (n / 4096) in H2
    by (rewrite N.Div0.div_div; reflexivity).
  assert (H3 : n / 4096 < 16)
    by (apply N.Div0.div_lt_upper_bound; lia).
  rewrite (N.mod_small (n / 4096) 16 H3).
  lia.
Qed.

Lemma scan_plain (c : N) (acc s : str) :
  c <> 34 -> c <> 92 -> 32 <= c ->
  scanstring acc (c :: s) = scanstring (c :: acc) s.
Proof.
  intros H1 H2 H3. cbn [scanstring].
  apply N.eqb_neq in H1. apply N.eqb_neq in H2.
  rewrite H1, H2.
  assert (H4 : (c <? 32) = false) by (apply N.ltb_ge; exact H3).
  rewrite H4. reflexivity.
Qed.

Lemma scan_simple (e d : N) (acc s : str) :
  (e =? 117) = false -> simple_escape e = Some d ->
  scanstring acc (92 :: e :: s) = scanstring (d :: acc) s.
Proof.
  intros H1 H2. cbn [scanstring].
  change (92 =? 34) with false. change (92 =? 92) with true.
  cbv iota. rewrite H1, H2. reflexivity.
Qed.

Lemma scan_single (hi x1 x2 x3 x4 : N) (acc s : str) :
  hex4_value x1 x2 x3 x4 = Some hi ->
  s <> [] -> (is_high hi = true -> no_low_next s) ->
  scanstring acc (92 :: 117 :: x1 :: x2 :: x3 :: x4 :: s)
  = scanstring (hi :: acc) s.
Proof.
  intros Hx Hs Hn.
  destruct s as [| b s]; [congruence|].
  cbn [scanstring].
  change (92 =? 34) with false. change (92 =? 92) with true.
  change (117 =? 117) with true. cbv iota. rewrite Hx.
  destruct (is_high hi); [| reflexivity].
  destruct s as [| u [| y1 [| y2 [| y3 [| y4 [| z s4]]]]]]; try reflexivity.
  rewrite (Hn eq_refl hi b u y1 y2 y3 y4 (z :: s4) eq_refl). reflexivity.
Qed.

Lemma scan_joined (hi lo x1 x2 x3 x4 y1 y2 y3 y4 : N) (acc s : str) :
  hex4_value x1 x2 x3 x4 = Some hi -> is_high hi = true ->
  hex4_value y1 y2 y3 y4 = Some lo -> is_low lo = true ->
  s <> [] ->
  scanstring acc (92 :: 117 :: x1 :: x2 :: x3 :: x4
                    :: 92 :: 117 :: y1 :: y2 :: y3 :: y4 :: s)
  = scanstring (join_surrogates hi lo :: acc) s.
Proof.
  intros Hx Hhi Hy Hlo Hs.
  destruct s as [| z s]; [congruence|].
  cbn [scanstring].
  change (92 =? 34) with false. change (92 =? 92) with true.
  change (117 =? 117) with true. cbv iota. rewrite Hx, Hhi.
  unfold look_pair.
  change (92 =? 92) with true. change (117 =? 117) with true.
  cbn [andb]. rewrite Hy, Hlo. reflexivity.
Qed.

Lemma escape_cases (c : N) :
  c < 1114112 ->
  (exists e, escape_char c = [92; e] /\ (e =? 117) = false
             /\ simple_escape e = Some c)
  \/ (escape_char c = [c] /\ c <> 34 /\ c <> 92 /\ 32 <= c)
  \/ (escape_char c = 92 :: 117 :: hex4 c /\ c < 65536)
  \/ (exists hi lo,
        escape_char c = 92 :: 117 :: hex4 hi ++ 92 :: 117 :: hex4 lo
        /\ hi < 65536 /\ lo < 65536
        /\ is_high hi = true /\ is_low lo = true
        /\ join_surrogates hi lo = c).
Proof.
  intros Hc. unfold escape_char.
  destruct (N.eqb_spec c 34) as [-> | N34];
    [left; exists 34; repeat split; reflexivity|].
  destruct (N.eqb_spec c 92) as [-> | N92];
    [left; exists 92; repeat split; reflexivity|].
  destruct (N.eqb_spec c 10) as [-> | N10];
    [left; exists 110; repeat split; reflexivity|].
  destruct (N.eqb_spec c 13) as [-> | N13];
    [left; exists 114; repeat split; reflexivity|].
  destruct (N.eqb_spec c 9) as [-> | N9];
    [left; exists 116; repeat split; reflexivity|].
  destruct (N.eqb_spec c 8) as [-> | N8];
    [left; exists 98; repeat split; reflexivity|].
  destruct (N.eqb_spec c 12) as [-> | N12];
    [left; exists 102; repeat split; reflexivity|].
  destruct (N.leb_spec 32 c) as [H32 | H32]; cbn [andb].
  - destruct (N.leb_spec c 126) as [H126 | H126].
    + right; left. repeat split; assumption.
    + destruct (N.ltb_spec c 65536) as [Hlt | Hge].
      * right; right; left. split; [reflexivity | assumption].
      * right; right; right.
        assert (Hq : (c - 65536) / 1024 < 1024)
          by (apply N.Div0.div_lt_upper_bound; lia).
        pose proof (N.div_mod (c - 65536) 1024 ltac:(discriminate)) as Hdm.
        pose proof (N.mod_lt (c - 65536) 1024 ltac:(discriminate)) as Hr.
        exists (55296 + (c - 65536) / 1024 mod 1024),
               (56320 + (c - 65536) mod 1024).
        split; [reflexivity|].
        rewrite (N.mod_small _ _ Hq).
        unfold is_high, is_low, join_surrogates.
        generalize dependent ((c - 65536) / 1024).
        generalize dependent ((c - 65536) mod 1024).
        intros r Hr q Hq Hdm.
        split; [lia|]. split; [lia|].
        split; [apply andb_true_intro; split; apply N.leb_le; lia|].
        split; [apply andb_true_intro; split; apply N.leb_le; lia|].
        lia.
  - destruct (N.ltb_spec c 65536) as [Hlt | Hge]; [| lia].
    right; right; left. split; [reflexivity | assumption].
Qed.

Lemma high_not_low (c : N) : is_high c = true -> is_low c = false.
Proof.
  unfold is_high, is_low. intros H.
  apply andb_true_iff in H. destruct H as [_ H]. apply N.leb_le in H.
  apply andb_false_intro1. apply N.leb_gt. lia.
Qed.

Lemma no_low_end (rest : str) : no_low_next (34 :: rest).
Proof.
  intros hi b u y1 y2 y3 y4 s4 H. injection H as <- _. reflexivity.
Qed.

Lemma no_low_after (c : N) (s : str) :
  c < 1114112 -> is_low c = false -> no_low_next (escape_char c ++ s).
Proof.
  intros Hc Hlow hi b u y1 y2 y3 y4 s4 H.
  destruct (escape_cases c Hc)
    as [(e & He & Hu & _) | [(He & _ & N92 & _) | [(He & Hlt)
        | (h & l & He & Hh & _ & Hhigh & _)]]];
    rewrite He in H; cbn [app] in H.
  - injection H as <- <- _. unfold look_pair. rewrite Hu. reflexivity.
  - injection H as <- _. unfold look_pair.
    apply N.eqb_neq in N92. rewrite N92. reflexivity.
  - unfold hex4 in H. cbn [app] in H. injection H as <- <- <- <- <- <- _.
    unfold look_pair. rewrite (hex4_value_hex4 c Hlt), Hlow. reflexivity.
  - unfold hex4 in H. cbn [app] in H. injection H as <- <- <- <- <- <- _.
    unfold look_pair.
    rewrite (hex4_value_hex4 h Hh), (high_not_low h Hhigh). reflexivity.
Qed.

Lemma no_low_text (t rest : str) :
  is_text t ->
  match t with c :: _ => is_low c = false | [] => True end ->
  no_low_next (flat_map escape_char t ++ 34 :: rest).
Proof.
  intros Ht Hc. destruct t as [| c t].
  - apply no_low_end.
  - cbn [flat_map]. rewrite <- app_assoc. apply no_low_after.
    + inversion Ht; assumption.
    + exact Hc.
Qed.

Lemma encoded_not_nil (t rest : str) :
  flat_map escape_char t ++ 34 :: rest <> [].
Proof.
  destruct (flat_map escape_char t); discriminate.
Qed.

Lemma scan_encoded (t : str) :
  is_text t -> pair_free t = true ->
  forall acc rest,
    scanstring acc (flat_map escape_char t ++ 34 :: rest)
    = Ok (rev acc ++ t, rest).
Proof.
  induction t as [| c t IH]; intros Ht Hp acc rest.
  - cbn. rewrite app_nil_r. reflexivity.
  - assert (Hc : c < 1114112) by (inversion Ht; assumption).
    assert (Ht' : is_text t) by (inversion Ht; assumption).
    assert (Hp' : pair_free t = true).
    { destruct t as [| c' t']; [reflexivity|].
      cbn [pair_free] in Hp. apply andb_true_iff in Hp. apply Hp. }
    assert (Hgoal : rev (c :: acc) ++ t = rev acc ++ c :: t).
    { cbn [rev]. rewrite <- app_assoc. reflexivity. }
    cbn [flat_map]. rewrite <- app_assoc.
    destruct (escape_cases c Hc)
      as [(e & He & Hu & Hs) | [(He & N34 & N92 & H32) | [(He & Hlt)
          | (h & l & He & Hh & Hl & Hhigh & Hlow & Hj)]]];
      rewrite He; cbn [app].
    + rewrite (scan_simple e c acc _ Hu Hs), IH by assumption. now rewrite Hgoal.
    + rewrite (scan_plain c acc _ N34 N92 H32), IH by assumption.
      now rewrite Hgoal.
    + unfold hex4. cbn [app].
      rewrite (scan_single c _ _ _ _ acc _ (hex4_value_hex4 c Hlt)
                 (encoded_not_nil t rest)).
      * rewrite IH by assumption. now rewrite Hgoal.
      * intros Hhc. apply no_low_text; [exact Ht'|].
        destruct t as [| c' t']; [exact I|].
        cbn [pair_free] in Hp. apply andb_true_iff in Hp.
        destruct Hp as [Hp _]. apply negb_true_iff in Hp.
        rewrite Hhc in Hp. exact Hp.
    + unfold hex4. cbn [app].
      rewrite (scan_joined h l _ _ _ _ _ _ _ _ acc _
                 (hex4_value_hex4 h Hh) Hhigh (hex4_value_hex4 l Hl) Hlow
                 (encoded_not_nil t rest)).
      rewrite Hj, IH by assumption. now rewrite Hgoal.
Qed.

Lemma scan_once_string (env : Env) (fuel : nat) (s : str) :
  scan_once env (S fuel) (34 :: s)
  = match scanstring [] s with
    | Raise e => Raise e
    | Ok (t, r) => Ok (JStr t, r)
    end.
Proof. reflexivity. Qed.

Lemma scan_once_three (env : Env) (fuel : nat)
      (s0 s1 r1 r1' r2 r3 s2 q1 q1' q2 q3 s3 p1 p1' p2 rest k1 k2 k3 : str)
      (v1 v2 v3 : json) :
  skip_ws s0 = 34 :: s1 ->
  scanstring [] s1 = Ok (k1, r1) -> skip_ws r1 = 58 :: r1' ->
  scan_once env fuel (skip_ws r1') = Ok (v1, r2) ->
  skip_ws r2 = 44 :: r3 -> skip_ws r3 = 34 :: s2 ->
  scanstring [] s2 = Ok (k2, q1) -> skip_ws q1 = 58 :: q1' ->
  scan_once env fuel (skip_ws q1') = Ok (v2, q2) ->
  skip_ws q2 = 44 :: q3 -> skip_ws q3 = 34 :: s3 ->
  scanstring [] s3 = Ok (k3, p1) -> skip_ws p1 = 58 :: p1' ->
  scan_once env fuel (skip_ws p1') = Ok (v3, p2) ->
  skip_ws p2 = 125 :: rest ->
  scan_once env (S fuel) (123 :: s0)
  = Ok (JDict (dict_set (dict_set (dict_set [] k1 v1) k2 v2) k3 v3), rest).
Proof.
  intros A1 A2 A3 A4 A5 A6 B2 B3 B4 B5 B6 C2 C3 C4 C5.
  destruct s1 as [| c1 s1]; [discriminate A2|].
  cbn [scan_once]. change (123 =? 34) with false. change (123 =? 123) with true.
  cbv iota. rewrite A1. cbv beta iota.
  rewrite A2, A3. cbv beta iota. rewrite A4, A5. cbv beta iota.
  cbn [List.length]. cbv beta iota. rewrite A6. cbv beta iota.
  rewrite B2, B3. cbv beta iota. rewrite B4, B5. cbv beta iota.
  rewrite B6. cbv beta iota.
  rewrite C2, C3. cbv beta iota. rewrite C4, C5. reflexivity.
Qed.

Lemma scan_value (env : Env) (fuel : nat) (t rest : str) :
  is_text t -> pair_free t = true ->
  scan_once env (S fuel)
            (skip_ws (32 :: 34 :: flat_map escape_char t ++ 34 :: rest))
  = Ok (JStr t, rest).
Proof.
  intros Ht Hp.
  change (skip_ws (32 :: 34 :: flat_map escape_char t ++ 34 :: rest))
    with (34 :: flat_map escape_char t ++ 34 :: rest).
  rewrite scan_once_string, (scan_encoded t Ht Hp). reflexivity.
Qed.

Lemma loads_dumps_record (env : Env) (s : Settings.t str) :
  pair_free_record s ->
  exists c,
    dumps env (Settings.asdict (Settings.of_strings s)) = Ok c
    /\ loads env c = Ok (Settings.asdict (Settings.of_strings s)).
Proof.
  destruct s as [h k v]. intros ((Hh & Ph) & (Hk & Pk) & (Hv & Pv)).
  cbn in Hh, Ph, Hk, Pk, Hv, Pv.
  eexists. split.
  - cbn. reflexivity.
  - repeat (rewrite <- app_assoc; cbn [app]).
    unfold loads. cbn [startswith]. change (65279 =? 123) with false.
    cbn [andb List.length].
    change (skip_ws (123 :: ?x)) with (123 :: x).
    erewrite scan_once_three; cycle 1.
    + reflexivity.
    + reflexivity.
    + reflexivity.
    + apply scan_value; assumption.
    + reflexivity.
    + reflexivity.
    + reflexivity.
    + reflexivity.
    + apply scan_value; assumption.
    + reflexivity.
    + reflexivity.
    + reflexivity.
    + reflexivity.
    + apply scan_value; assumption.
    + reflexivity.
    + reflexivity.
Qed.

End JsonFacts.

(** C5, as amended. For every settings record of three Python strings in
    which no high surrogate is followed at once by a low surrogate:
    [Settings.save] returns when the file is written, and whenever it
    returns, [Settings.load] on the resulting file gives the same host,
    api_key and voice_name. *)
Theorem save_load (env : Json.Env) (s : Settings.t str)
        (f : Settings.settings_file) :
  pair_free_record s ->
  (exists f',
      Settings.save (Json.python env) Settings.Written
                    (Settings.of_strings s) f = (Ok tt, f'))
  /\ (forall o f',
        Settings.save (Json.python env) o (Settings.of_strings s) f
        = (Ok tt, f') ->
        Settings.load (Json.python env) f' = Ok (Settings.of_strings s)).
Proof.
  intros Hs.
  destruct (JsonFacts.loads_dumps_record env s Hs) as (c & Hdumps & Hloads).
  unfold Settings.save. cbn [Settings.dumps Json.python]. rewrite Hdumps.
  split; [eexists; reflexivity|].
  intros o f' Hsave.
  destruct o as [| e remains]; [| discriminate Hsave].
  injection Hsave as <-.
  unfold Settings.load, Settings.load_file.
  cbn [Settings.exists_ Settings.read_text Settings.loads Json.python].
  rewrite Hloads. destruct s as [h k v]. reflexivity.
Qed.

Lemma save_load_witness :
  pair_free_record Sample.settings_value
  /\ Settings.load (Json.python Scene.json_env)
                   (Settings.Content Sample.settings_text)
     = Ok (Settings.of_strings Sample.settings_value).
Proof.
  assert (H : pair_free_record Sample.settings_value).
  { unfold pair_free_record, is_text.
    repeat split; try reflexivity; repeat constructor. }
  split; [exact H|].
  apply (proj2 (save_load Scene.json_env Sample.settings_value
                          Settings.Missing H) Settings.Written).
  reflexivity.
Defined.

(** C5 as it was stated, for every record of strings, fails: a host made of
    the high surrogate U+D83D and the low surrogate U+DE00 is written as
    two escapes, which [json.loads] reads as the one character U+1F600. *)
Lemma save_load_joins_surrogates :
  ~ (forall (env : Json.Env) (s : Settings.t str)
            (f f' : Settings.settings_file),
        is_text (Settings.host s) -> is_text (Settings.api_key s) ->
        is_text (Settings.voice_name s) ->
        Settings.save (Json.python env) Settings.Written
                      (Settings.of_strings s) f = (Ok tt, f') ->
        Settings.load (Json.python env) f' = Ok (Settings.of_strings s)).
Proof.
  intros H.
  assert (Hsave :
            Settings.save (Json.python Scene.json_env) Settings.Written
                          (Settings.of_strings Scene.paired) Settings.Missing
            = (Ok tt,
               Settings.Content
                 (lit "{" ++ [10]
                    ++ Sample.member "host"
                         ([34] ++ lit "\ud83d\ude00" ++ [34])
                    ++ lit "," ++ [10]
                    ++ Sample.member "api_key" (Sample.quoted "k")
                    ++ lit "," ++ [10]
                    ++ Sample.member "voice_name" (Sample.quoted "")
                    ++ [10] ++ lit "}")))
    by reflexivity.
  assert (Hload :
            Settings.load (Json.python Scene.json_env)
                          (snd (Settings.save (Json.python Scene.json_env)
                                  Settings.Written
                                  (Settings.of_strings Scene.paired)
                                  Settings.Missing))
            = Ok (Settings.of_strings
                    (Settings.mk [128512] (lit "k") [])))
    by reflexivity.
  rewrite Hsave in Hload. cbn [snd] in Hload.
  rewrite (H Scene.json_env Scene.paired Settings.Missing _) in Hload.
  - discriminate Hload.
  - repeat constructor.
  - repeat constructor.
  - constructor.
  - exact Hsave.
Qed.
